(** * Room planner: object management and spatial interaction core

    A shallow embedding of the JavaScript sources

      - js/utils.js                       (geometry helpers)
      - js/config.js                      (constants)
      - js/models/Room.js                 (room and pixel scale)
      - js/models/PlacedObject.js         (one placed entity)
      - js/services/ObjectManager.js      (collection, selection, movement)
      - js/services/PersistenceService.js (save / load of the layout)
      - js/main.js                        (loadObjectsIntoManager,
                                           handleSetRoomSize,
                                           initializeApplication, and the
                                           handlers of the buttons and of
                                           the mouse)

    Modelling conventions.

    - A JavaScript number is a [number]: a finite value carried by a real, or
      one of the three special values [PInf], [NInf], [NaN].  Finite
      arithmetic is exact (no rounding, no overflow) and there is a single
      zero, taken as positive where a sign is needed.  The special values
      follow the language: [NaN] poisons arithmetic and makes every
      comparison false.
    - A property that may be missing or null is a [numval] (numeric fields) or
      a [strval] (text fields).  Numeric fields never hold text and text
      fields never hold numbers, so no string-to-number conversion is needed.
    - Objects are mutable and shared, so entities live in a heap indexed by
      references; the manager stores references.  A reference always points
      to an entity ([wf] below); where a function has to say what it does
      with a reference that points to nothing, it leaves the state alone.
    - The change callback is observed through a counter of its invocations;
      logging, drawing and the page elements are left out.
    - The storage slot is seen through JSON: it holds the value that
      [JSON.parse] returns for the text [JSON.stringify] wrote. *)

From Stdlib Require Import Reals Lra Lia ZArith.
From stdpp Require Import gmap strings list pretty.

(** ** JavaScript numbers *)

Inductive number : Type :=
| Fin (r : R)
| PInf
| NInf
| NaN.

Arguments Fin r%_R.

Declare Scope js_scope.
Delimit Scope js_scope with js.
Bind Scope js_scope with number.

(** A numeric property: missing ([undefined]), [null], or a number. *)
Inductive numval : Type :=
| NumUndefined
| NumNull
| Num (n : number).

(** A text property: missing ([undefined]), [null], or a string. *)
Inductive strval : Type :=
| StrUndefined
| StrNull
| Str (s : string).

(** The operators and the [Math] functions used by the sources. *)
Module Js.

Definition Rltb (a b : R) : bool := if Rlt_dec a b then true else false.
Definition Reqb (a b : R) : bool := if Req_dec_T a b then true else false.

(** [a < b] *)
Definition lt (a b : number) : bool :=
  match a, b with
  | NaN, _ | _, NaN => false
  | Fin x, Fin y => Rltb x y
  | Fin _, PInf => true
  | Fin _, NInf => false
  | PInf, _ => false
  | NInf, NInf => false
  | NInf, _ => true
  end.

(** [a <= b]: false when either side is NaN, otherwise not [b < a]. *)
Definition le (a b : number) : bool :=
  match a, b with
  | NaN, _ | _, NaN => false
  | _, _ => negb (lt b a)
  end.

Definition gt (a b : number) : bool := lt b a.
Definition ge (a b : number) : bool := le b a.

Definition isNaN (a : number) : bool :=
  match a with NaN => true | _ => false end.

Definition neg (a : number) : number :=
  match a with
  | Fin x => Fin (- x)
  | PInf => NInf
  | NInf => PInf
  | NaN => NaN
  end.

Definition add (a b : number) : number :=
  match a, b with
  | NaN, _ | _, NaN => NaN
  | Fin x, Fin y => Fin (x + y)
  | PInf, NInf | NInf, PInf => NaN
  | PInf, _ | _, PInf => PInf
  | NInf, _ | _, NInf => NInf
  end.

Definition sub (a b : number) : number := add a (neg b).

(** The sign of an infinite product or quotient. *)
Definition signed (positive : bool) : number :=
  if positive then PInf else NInf.

Definition mul (a b : number) : number :=
  match a, b with
  | NaN, _ | _, NaN => NaN
  | Fin x, Fin y => Fin (x * y)
  | Fin x, PInf | PInf, Fin x =>
      if Reqb x 0 then NaN else signed (Rltb 0 x)
  | Fin x, NInf | NInf, Fin x =>
      if Reqb x 0 then NaN else signed (Rltb x 0)
  | PInf, PInf | NInf, NInf => PInf
  | PInf, NInf | NInf, PInf => NInf
  end.

Definition div (a b : number) : number :=
  match a, b with
  | NaN, _ | _, NaN => NaN
  | Fin x, Fin y =>
      if Reqb y 0
      then (if Reqb x 0 then NaN else signed (Rltb 0 x))
      else Fin (x / y)
  | Fin _, (PInf | NInf) => Fin 0
  | PInf, Fin y => signed (negb (Rltb y 0))
  | NInf, Fin y => signed (Rltb y 0)
  | (PInf | NInf), (PInf | NInf) => NaN
  end.

(** Truncation toward zero, as an integer. *)
Definition Rtrunc (x : R) : Z :=
  if Rle_dec 0 x then Int_part x else (- Int_part (- x))%Z.

(** [a % b]: the remainder has the sign of the dividend. *)
Definition rem (a b : number) : number :=
  match a, b with
  | NaN, _ | _, NaN => NaN
  | (PInf | NInf), _ => NaN
  | Fin x, (PInf | NInf) => Fin x
  | Fin x, Fin y =>
      if Reqb y 0 then NaN else Fin (x - y * IZR (Rtrunc (x / y)))
  end.

(** [Math.abs], [Math.min], [Math.max], [Math.cos], [Math.sin], [Math.sqrt] *)
Definition abs (a : number) : number :=
  match a with
  | Fin x => Fin (Rabs x)
  | PInf | NInf => PInf
  | NaN => NaN
  end.

Definition min (a b : number) : number :=
  match a, b with
  | NaN, _ | _, NaN => NaN
  | _, _ => if lt b a then b else a
  end.

Definition max (a b : number) : number :=
  match a, b with
  | NaN, _ | _, NaN => NaN
  | _, _ => if lt a b then b else a
  end.

Definition cos (a : number) : number :=
  match a with Fin x => Fin (Rtrigo_def.cos x) | _ => NaN end.

Definition sin (a : number) : number :=
  match a with Fin x => Fin (Rtrigo_def.sin x) | _ => NaN end.

Definition sqrt (a : number) : number :=
  match a with
  | Fin x => if Rltb x 0 then NaN else Fin (R_sqrt.sqrt x)
  | PInf => PInf
  | NInf | NaN => NaN
  end.

Definition PI : number := Fin Rtrigo1.PI.

(** A number is falsy when it is zero or NaN. *)
Definition truthy (a : number) : bool :=
  match a with
  | Fin x => negb (Reqb x 0)
  | PInf | NInf => true
  | NaN => false
  end.

Definition is_finite (a : number) : Prop :=
  match a with Fin _ => True | _ => False end.

End Js.

(** *** Possibly missing properties *)

(** Conversion to a number, as applied by arithmetic, comparison with a
    number, [isNaN] and [Number]. *)
Definition toNumber (v : numval) : number :=
  match v with
  | NumUndefined => NaN
  | NumNull => Fin 0
  | Num n => n
  end.

(** Truthiness of a text property: only a non-empty string is truthy. *)
Definition str_truthy (v : strval) : bool :=
  match v with
  | Str s => negb (String.eqb s EmptyString)
  | _ => false
  end.

(** [v || dflt] for a text property with a string default. *)
Definition str_or (v : strval) (dflt : string) : string :=
  match v with
  | Str s => if String.eqb s EmptyString then dflt else s
  | _ => dflt
  end.

(** [typeof v === 'number'] *)
Definition typeof_number (v : numval) : bool :=
  match v with Num _ => true | _ => false end.

Notation "a + b" := (Js.add a b) : js_scope.
Notation "a - b" := (Js.sub a b) : js_scope.
Notation "a * b" := (Js.mul a b) : js_scope.
Notation "a / b" := (Js.div a b) : js_scope.
Notation "a 'mod' b" := (Js.rem a b) : js_scope.
Notation "- a" := (Js.neg a) : js_scope.
Notation "a <? b" := (Js.lt a b) : js_scope.
Notation "a <=? b" := (Js.le a b) : js_scope.
Notation "a >? b" := (Js.gt a b) : js_scope.
Notation "a >=? b" := (Js.ge a b) : js_scope.

(** ** js/config.js *)

Module Config.

Definition CANVAS_MAX_WIDTH : number := Fin 1000.
Definition CANVAS_MAX_HEIGHT : number := Fin 700.
Definition ROTATION_INCREMENT : number := Fin 10.
Definition CUSTOM_OBJECT_DEFAULTS_color : string := "#888888".

End Config.

(** ** js/utils.js *)

Module Utils.

Definition clamp (value min max : number) : number :=
  Js.max min (Js.min value max).

Definition distance (x1 y1 x2 y2 : number) : number :=
  let dx := (x2 - x1)%js in
  let dy := (y2 - y1)%js in
  Js.sqrt (dx * dx + dy * dy)%js.

Definition degreesToRadians (degrees : number) : number :=
  (degrees * (Js.PI / Fin 180))%js.

Definition isPointInRotatedRectangle
    (px py rx ry rWidth rHeight rAngleDegrees : number) : bool :=
  let angleRad := (- degreesToRadians rAngleDegrees)%js in
  let centerX := (rx + rWidth / Fin 2)%js in
  let centerY := (ry + rHeight / Fin 2)%js in
  let translatedX := (px - centerX)%js in
  let translatedY := (py - centerY)%js in
  let rotatedX :=
    (translatedX * Js.cos angleRad - translatedY * Js.sin angleRad)%js in
  let rotatedY :=
    (translatedX * Js.sin angleRad + translatedY * Js.cos angleRad)%js in
  let finalX := (rotatedX + centerX)%js in
  let finalY := (rotatedY + centerY)%js in
  (finalX >=? rx)%js && (finalX <=? rx + rWidth)%js &&
  (finalY >=? ry)%js && (finalY <=? ry + rHeight)%js.

End Utils.

(** ** js/models/Room.js *)

Module Room.

Record t : Type := mk {
  width : number;
  length : number;
  scale : number;
  canvasWidth : number;
  canvasHeight : number
}.

Definition calculateScale (width length : number) : number :=
  let scaleX := (Config.CANVAS_MAX_WIDTH / width)%js in
  let scaleY := (Config.CANVAS_MAX_HEIGHT / length)%js in
  Js.min scaleX scaleY.

(** The constructor; [inl msg] is the thrown [Error]. *)
Definition new (width length : number) : string + t :=
  if (width <=? Fin 0)%js || (length <=? Fin 0)%js
  then inl "Room dimensions must be positive."
  else
    let scale := calculateScale width length in
    inr {| width := width;
           length := length;
           scale := scale;
           canvasWidth := (width * scale)%js;
           canvasHeight := (length * scale)%js |}.

Definition toPixels (room : t) (dimensionInUnits : number) : number :=
  (dimensionInUnits * scale room)%js.

(** [this.scale === 0] holds only for a finite zero. *)
Definition toUnits (room : t) (pixels : number) : number :=
  match scale room with
  | Fin s => if Js.Reqb s 0 then Fin 0 else (pixels / Fin s)%js
  | s => (pixels / s)%js
  end.

Definition getPixelDimensions (room : t) : number * number :=
  (canvasWidth room, canvasHeight room).

End Room.

(** ** js/models/PlacedObject.js *)

(** The definition object handed to the constructor and to [addObject]. *)
Module ObjectDefinition.

Record t : Type := mk {
  id : strval;
  name : strval;
  width : numval;
  length : numval;
  color : strval;
  label : strval
}.

End ObjectDefinition.

Module PlacedObject.

Record t : Type := mk {
  uniqueId : nat;
  typeId : string;
  name : string;
  widthUnits : numval;
  lengthUnits : numval;
  color : string;
  label : string;
  x : numval;
  y : numval;
  rotation : number;
  isSelected : bool;
  scale : number;
  widthPixels : number;
  lengthPixels : number
}.

(** The text of [uniqueId]: [`obj-${n}`] for the counter value [n]. *)
Definition uniqueId_text (n : nat) : string := "obj-" +:+ pretty n.

Definition updateScale (newScale : number) (o : t) : t :=
  {| uniqueId := uniqueId o; typeId := typeId o; name := name o;
     widthUnits := widthUnits o; lengthUnits := lengthUnits o;
     color := color o; label := label o;
     x := x o; y := y o; rotation := rotation o; isSelected := isSelected o;
     scale := newScale;
     widthPixels := (toNumber (widthUnits o) * newScale)%js;
     lengthPixels := (toNumber (lengthUnits o) * newScale)%js |}.

(** The constructor; [counter] is the value of the module-level
    [objectCounter] read (and then incremented) by the caller. *)
Definition new (objectDefinition : ObjectDefinition.t) (x y : numval)
    (scale : number) (counter : nat) : t :=
  updateScale scale
    {| uniqueId := counter;
       typeId := str_or (ObjectDefinition.id objectDefinition) "custom";
       name := str_or (ObjectDefinition.name objectDefinition)
                 ("Object " +:+ uniqueId_text counter);
       widthUnits := ObjectDefinition.width objectDefinition;
       lengthUnits := ObjectDefinition.length objectDefinition;
       color := str_or (ObjectDefinition.color objectDefinition) "#cccccc";
       label := str_or (ObjectDefinition.label objectDefinition) EmptyString;
       x := x; y := y;
       rotation := Fin 0;
       isSelected := false;
       scale := NaN; widthPixels := NaN; lengthPixels := NaN |}.

Definition set_rotation (r : number) (o : t) : t :=
  {| uniqueId := uniqueId o; typeId := typeId o; name := name o;
     widthUnits := widthUnits o; lengthUnits := lengthUnits o;
     color := color o; label := label o;
     x := x o; y := y o; rotation := r; isSelected := isSelected o;
     scale := scale o; widthPixels := widthPixels o;
     lengthPixels := lengthPixels o |}.

Definition set_isSelected (b : bool) (o : t) : t :=
  {| uniqueId := uniqueId o; typeId := typeId o; name := name o;
     widthUnits := widthUnits o; lengthUnits := lengthUnits o;
     color := color o; label := label o;
     x := x o; y := y o; rotation := rotation o; isSelected := b;
     scale := scale o; widthPixels := widthPixels o;
     lengthPixels := lengthPixels o |}.

Definition rotate (o : t) : t :=
  set_rotation ((rotation o + Config.ROTATION_INCREMENT) mod Fin 360)%js o.

Definition setPosition (x y : number) (o : t) : t :=
  {| uniqueId := uniqueId o; typeId := typeId o; name := name o;
     widthUnits := widthUnits o; lengthUnits := lengthUnits o;
     color := color o; label := label o;
     x := Num x; y := Num y; rotation := rotation o;
     isSelected := isSelected o;
     scale := scale o; widthPixels := widthPixels o;
     lengthPixels := lengthPixels o |}.

Definition getDrawingCoords (o : t) : number * number :=
  ((toNumber (x o) - widthPixels o / Fin 2)%js,
   (toNumber (y o) - lengthPixels o / Fin 2)%js).

Definition getPixelDimensions (o : t) : number * number :=
  (widthPixels o, lengthPixels o).

End PlacedObject.

(** ** js/services/ObjectManager.js *)

Module ObjectManager.

(** The state the manager works on.  [heap] holds every entity created so
    far and [objectCounter] is the module-level counter of PlacedObject.js;
    the reference of an entity is the counter value it was created with.
    The remaining fields are those of the manager instance;
    [onChangeCallback] tells whether a callback is registered and
    [notifications] counts its invocations. *)
Record State : Type := mk {
  heap : gmap nat PlacedObject.t;
  objectCounter : nat;
  room : Room.t;
  placedObjects : list nat;
  selectedObject : option nat;
  onChangeCallback : bool;
  notifications : nat
}.

Definition set_heap (h : gmap nat PlacedObject.t) (s : State) : State :=
  {| heap := h; objectCounter := objectCounter s; room := room s;
     placedObjects := placedObjects s; selectedObject := selectedObject s;
     onChangeCallback := onChangeCallback s;
     notifications := notifications s |}.

Definition set_objectCounter (n : nat) (s : State) : State :=
  {| heap := heap s; objectCounter := n; room := room s;
     placedObjects := placedObjects s; selectedObject := selectedObject s;
     onChangeCallback := onChangeCallback s;
     notifications := notifications s |}.

Definition set_placedObjects (l : list nat) (s : State) : State :=
  {| heap := heap s; objectCounter := objectCounter s; room := room s;
     placedObjects := l; selectedObject := selectedObject s;
     onChangeCallback := onChangeCallback s;
     notifications := notifications s |}.

Definition set_selectedObject (o : option nat) (s : State) : State :=
  {| heap := heap s; objectCounter := objectCounter s; room := room s;
     placedObjects := placedObjects s; selectedObject := o;
     onChangeCallback := onChangeCallback s;
     notifications := notifications s |}.

Definition set_onChangeCallback (b : bool) (s : State) : State :=
  {| heap := heap s; objectCounter := objectCounter s; room := room s;
     placedObjects := placedObjects s; selectedObject := selectedObject s;
     onChangeCallback := b;
     notifications := notifications s |}.

Definition set_notifications (n : nat) (s : State) : State :=
  {| heap := heap s; objectCounter := objectCounter s; room := room s;
     placedObjects := placedObjects s; selectedObject := selectedObject s;
     onChangeCallback := onChangeCallback s;
     notifications := n |}.

(** [new ObjectManager(room)], for a room that is given, in a program that
    has created the entities of [h] so far. *)
Definition new (room : Room.t) (h : gmap nat PlacedObject.t) (counter : nat)
    : State :=
  {| heap := h; objectCounter := counter; room := room;
     placedObjects := []; selectedObject := None;
     onChangeCallback := false; notifications := 0 |}.

(** A manager in a fresh program: no entity exists yet. *)
Definition init (room : Room.t) : State := new room ∅ 0.

Definition setOnChangeCallback (s : State) : State :=
  set_onChangeCallback true s.

Definition _notifyChange (s : State) : State :=
  if onChangeCallback s
  then set_notifications (S (notifications s)) s
  else s.

Definition updateObjectScales (newScale : number) (s : State) : State :=
  let h :=
    foldl (fun h obj => alter (PlacedObject.updateScale newScale) obj h)
      (heap s) (placedObjects s) in
  _notifyChange (set_heap h s).

Definition selectObject (objectToSelect : option nat) (s : State) : State :=
  let s1 :=
    match selectedObject s with
    | Some old => set_heap (alter (PlacedObject.set_isSelected false) old (heap s)) s
    | None => s
    end in
  let s2 := set_selectedObject objectToSelect s1 in
  let s3 :=
    match selectedObject s2 with
    | Some sel => set_heap (alter (PlacedObject.set_isSelected true) sel (heap s2)) s2
    | None => s2
    end in
  _notifyChange s3.

(** The validation at the head of [addObject]. *)
Definition invalidDefinition (objectDefinition : option ObjectDefinition.t)
    : bool :=
  match objectDefinition with
  | None => true
  | Some d =>
      negb (str_truthy (ObjectDefinition.id d))
      || negb (str_truthy (ObjectDefinition.name d))
      || negb (toNumber (ObjectDefinition.width d) >? Fin 0)%js
      || negb (toNumber (ObjectDefinition.length d) >? Fin 0)%js
  end.

Definition addObject (objectDefinition : option ObjectDefinition.t)
    (initialX initialY : number) (s : State) : option nat * State :=
  match objectDefinition with
  | Some d =>
      if invalidDefinition objectDefinition then (None, s)
      else
        let ref := objectCounter s in
        let newObject :=
          PlacedObject.new d (Num initialX) (Num initialY)
            (Room.scale (room s)) ref in
        let s1 := set_objectCounter (S ref) (set_heap (<[ref := newObject]> (heap s)) s) in
        let s2 := set_placedObjects (placedObjects s1 ++ [ref]) s1 in
        let s3 := selectObject (Some ref) s2 in
        let s4 := _notifyChange s3 in
        (Some ref, s4)
  | None => (None, s)
  end.

(** The test made on one entity by the loop of [selectObjectAt]. *)
Definition hitTest (canvasX canvasY : number) (obj : PlacedObject.t) : bool :=
  let '(width, height) := PlacedObject.getPixelDimensions obj in
  let halfWidth := (width / Fin 2)%js in
  let halfHeight := (height / Fin 2)%js in
  Utils.isPointInRotatedRectangle canvasX canvasY
    (toNumber (PlacedObject.x obj) - halfWidth)%js
    (toNumber (PlacedObject.y obj) - halfHeight)%js
    width height (PlacedObject.rotation obj).

(** The loop of [selectObjectAt]: indices [n-1], [n-2], ..., [0] are
    examined in turn and the first hit ends the loop. *)
Fixpoint findObjectAt (s : State) (canvasX canvasY : number) (n : nat)
    : option nat :=
  match n with
  | 0 => None
  | S i =>
      match placedObjects s !! i with
      | Some obj =>
          match heap s !! obj with
          | Some o =>
              if hitTest canvasX canvasY o then Some obj
              else findObjectAt s canvasX canvasY i
          | None => findObjectAt s canvasX canvasY i
          end
      | None => findObjectAt s canvasX canvasY i
      end
  end.

Definition selectObjectAt (canvasX canvasY : number) (s : State)
    : option nat * State :=
  let foundObject :=
    findObjectAt s canvasX canvasY (length (placedObjects s)) in
  (foundObject, selectObject foundObject s).

Definition moveSelectedObject (newX newY : number) (s : State) : State :=
  match selectedObject s with
  | None => s
  | Some sel =>
      match heap s !! sel with
      | None => s
      | Some obj =>
          let '(roomPixelWidth, roomPixelHeight) :=
            Room.getPixelDimensions (room s) in
          let '(w, h) := PlacedObject.getPixelDimensions obj in
          let angleRad := Utils.degreesToRadians (PlacedObject.rotation obj) in
          let cosA := Js.cos angleRad in
          let sinA := Js.sin angleRad in
          let projectedWidth := (Js.abs (w * cosA) + Js.abs (h * sinA))%js in
          let projectedHeight := (Js.abs (w * sinA) + Js.abs (h * cosA))%js in
          let halfProjectedWidth := (projectedWidth / Fin 2)%js in
          let halfProjectedHeight := (projectedHeight / Fin 2)%js in
          let clampedX :=
            Js.max halfProjectedWidth
              (Js.min newX (roomPixelWidth - halfProjectedWidth)%js) in
          let clampedY :=
            Js.max halfProjectedHeight
              (Js.min newY (roomPixelHeight - halfProjectedHeight)%js) in
          _notifyChange
            (set_heap
               (<[sel := PlacedObject.setPosition clampedX clampedY obj]> (heap s))
               s)
      end
  end.

Definition rotateSelectedObject (s : State) : State :=
  match selectedObject s with
  | None => s
  | Some sel =>
      _notifyChange (set_heap (alter PlacedObject.rotate sel (heap s)) s)
  end.

(** [Array.prototype.findIndex]; [None] stands for [-1]. *)
Fixpoint findIndex (p : nat -> bool) (l : list nat) : option nat :=
  match l with
  | [] => None
  | obj :: rest => if p obj then Some 0 else S <$> findIndex p rest
  end.

(** [obj.uniqueId === this.selectedObject.uniqueId] *)
Definition sameUniqueId (s : State) (selected : PlacedObject.t) (obj : nat)
    : bool :=
  match heap s !! obj with
  | Some o => Nat.eqb (PlacedObject.uniqueId o) (PlacedObject.uniqueId selected)
  | None => false
  end.

Definition deleteSelectedObject (s : State) : State :=
  match selectedObject s with
  | None => s
  | Some sel =>
      match heap s !! sel with
      | None => s
      | Some selected =>
          match findIndex (sameUniqueId s selected) (placedObjects s) with
          | Some index =>
              _notifyChange
                (set_selectedObject None
                   (set_placedObjects (delete index (placedObjects s)) s))
          | None => s
          end
      end
  end.

Definition getSelectedObject (s : State) : option nat := selectedObject s.

Definition getAllObjects (s : State) : list nat := placedObjects s.

(** The heap left by [selectObject]: the old selection is unflagged, then
    the new one is flagged. *)
Definition selectHeap (objectToSelect : option nat) (s : State)
    : gmap nat PlacedObject.t :=
  let h :=
    match selectedObject s with
    | Some old => alter (PlacedObject.set_isSelected false) old (heap s)
    | None => heap s
    end in
  match objectToSelect with
  | Some sel => alter (PlacedObject.set_isSelected true) sel h
  | None => h
  end.

(** *** Selection invariant *)

(** The [isSelected] flag of the entity behind a reference. *)
Definition flag (s : State) (obj : nat) : bool :=
  match heap s !! obj with
  | Some o => PlacedObject.isSelected o
  | None => false
  end.

(** The selected entity, if any, is in the collection and is flagged, and
    no other entity of the collection is flagged. *)
Definition selection_invariant (s : State) : Prop :=
  (forall sel, selectedObject s = Some sel ->
     sel ∈ placedObjects s /\ flag s sel = true)
  /\ (forall obj, obj ∈ placedObjects s -> flag s obj = true ->
       selectedObject s = Some obj).

(** What holds of every reachable state, whatever is selected. *)
Record wf (s : State) : Prop := mk_wf {
  wf_uniqueId : forall obj o,
    heap s !! obj = Some o -> PlacedObject.uniqueId o = obj;
  wf_counter : forall obj, is_Some (heap s !! obj) -> obj < objectCounter s;
  wf_placed : forall obj, obj ∈ placedObjects s -> is_Some (heap s !! obj);
  wf_NoDup : NoDup (placedObjects s);
  wf_selected : forall sel, selectedObject s = Some sel -> flag s sel = true;
  wf_flag : forall obj, obj ∈ placedObjects s -> flag s obj = true ->
    selectedObject s = Some obj
}.

(** *** Notions of the specification *)

(** The rotated-rectangle test of the specification for the entity behind
    [obj]: the point against the bounds derived from the entity's center,
    its pixel size and its rotation. *)
Definition hits (s : State) (px py : number) (obj : nat) : bool :=
  match heap s !! obj with
  | Some o =>
      Utils.isPointInRotatedRectangle px py
        (toNumber (PlacedObject.x o) - PlacedObject.widthPixels o / Fin 2)%js
        (toNumber (PlacedObject.y o) - PlacedObject.lengthPixels o / Fin 2)%js
        (PlacedObject.widthPixels o) (PlacedObject.lengthPixels o)
        (PlacedObject.rotation o)
  | None => false
  end.

(** projectedWidth = |w cos t| + |h sin t| *)
Definition projectedWidth (o : PlacedObject.t) : number :=
  let t := Utils.degreesToRadians (PlacedObject.rotation o) in
  (Js.abs (PlacedObject.widthPixels o * Js.cos t)
   + Js.abs (PlacedObject.lengthPixels o * Js.sin t))%js.

(** projectedHeight = |w sin t| + |h cos t| *)
Definition projectedHeight (o : PlacedObject.t) : number :=
  let t := Utils.degreesToRadians (PlacedObject.rotation o) in
  (Js.abs (PlacedObject.widthPixels o * Js.sin t)
   + Js.abs (PlacedObject.lengthPixels o * Js.cos t))%js.

(** The projected bounding box of [o], centered on its position, lies
    within [0, roomPixelWidth] x [0, roomPixelHeight]. *)
Definition boxWithinRoom (room : Room.t) (o : PlacedObject.t) : Prop :=
  let cx := toNumber (PlacedObject.x o) in
  let cy := toNumber (PlacedObject.y o) in
  (Fin 0 <=? cx - projectedWidth o / Fin 2)%js = true
  /\ (cx + projectedWidth o / Fin 2 <=? Room.canvasWidth room)%js = true
  /\ (Fin 0 <=? cy - projectedHeight o / Fin 2)%js = true
  /\ (cy + projectedHeight o / Fin 2 <=? Room.canvasHeight room)%js = true.

(** A sequence of [moveSelectedObject] calls. *)
Definition moves (targets : list (number * number)) (s : State) : State :=
  foldl (fun s t => moveSelectedObject (fst t) (snd t) s) s targets.

(** A property that holds a positive number. *)
Definition positiveNumber (v : numval) : Prop :=
  exists n, v = Num n /\ (n >? Fin 0)%js = true.

(** An identifying field that is missing. *)
Definition missing (v : strval) : Prop :=
  v = StrUndefined \/ v = StrNull.

(** A definition that [addObject] must refuse. *)
Definition refused (objectDefinition : option ObjectDefinition.t) : Prop :=
  match objectDefinition with
  | None => True
  | Some d =>
      ~ positiveNumber (ObjectDefinition.width d)
      \/ ~ positiveNumber (ObjectDefinition.length d)
      \/ missing (ObjectDefinition.id d)
      \/ missing (ObjectDefinition.name d)
  end.

End ObjectManager.

(** ** js/services/PersistenceService.js *)

Module Persistence.

(** One object of a saved layout, as [JSON.parse] returns it. *)
Record SavedObject : Type := mkSavedObject {
  typeId : strval;
  name : strval;
  label : strval;
  widthUnits : numval;
  lengthUnits : numval;
  color : strval;
  x : numval;
  y : numval;
  rotation : numval
}.

(** A saved layout, as [JSON.parse] returns it.  An entry of [objects] that
    is [null] is [None]. *)
Record LayoutData : Type := mkLayoutData {
  room_width : numval;
  room_length : numval;
  objects : list (option SavedObject)
}.

(** The content of the storage slot [STORAGE_KEY]: a text that does not
    parse to a layout-shaped value, or a layout. *)
Inductive item : Type :=
| Corrupt
| Layout (layoutData : LayoutData).

(** [window.localStorage]: [None] when the browser has none, otherwise the
    content of the slot, if any. *)
Definition Storage : Type := option (option item).

(** What a number becomes through [JSON.stringify] and [JSON.parse]: NaN
    and the infinities are written as [null]. *)
Definition jsonNumber (n : number) : numval :=
  match n with
  | Fin r => Num (Fin r)
  | _ => NumNull
  end.

(** The same for a property that may be missing: a missing property is not
    written and is missing again after parsing. *)
Definition jsonNumval (v : numval) : numval :=
  match v with
  | Num n => jsonNumber n
  | NumNull => NumNull
  | NumUndefined => NumUndefined
  end.

(** The object literal built for one entity by [saveLayout]. *)
Definition saveObject (obj : PlacedObject.t) : SavedObject :=
  {| typeId := Str (PlacedObject.typeId obj);
     name := Str (PlacedObject.name obj);
     label := Str (PlacedObject.label obj);
     widthUnits := jsonNumval (PlacedObject.widthUnits obj);
     lengthUnits := jsonNumval (PlacedObject.lengthUnits obj);
     color := Str (PlacedObject.color obj);
     x := jsonNumval (PlacedObject.x obj);
     y := jsonNumval (PlacedObject.y obj);
     rotation := jsonNumber (PlacedObject.rotation obj) |}.

(** [saveLayout(room, objectManager)], both arguments present and
    [setItem] succeeding.  The result is the returned boolean and the
    storage afterwards. *)
Definition saveLayout (room : Room.t) (objectManager : ObjectManager.State)
    (localStorage : Storage) : bool * Storage :=
  match localStorage with
  | None => (false, None)
  | Some _ =>
      let objectsToSave :=
        omap (fun obj => saveObject <$> ObjectManager.heap objectManager !! obj)
          (ObjectManager.getAllObjects objectManager) in
      let layoutData :=
        {| room_width := jsonNumber (Room.width room);
           room_length := jsonNumber (Room.length room);
           objects := Some <$> objectsToSave |} in
      (true, Some (Some (Layout layoutData)))
  end.

(** [loadLayout()]: the layout read, if any, and the storage afterwards
    (a slot holding invalid data is cleared). *)
Definition loadLayout (localStorage : Storage) : option LayoutData * Storage :=
  match localStorage with
  | None => (None, None)
  | Some None => (None, Some None)
  | Some (Some Corrupt) => (None, Some None)
  | Some (Some (Layout layoutData)) =>
      if negb (typeof_number (room_width layoutData))
         || negb (typeof_number (room_length layoutData))
      then (None, Some None)
      else (Some layoutData, localStorage)
  end.

Definition clearSavedLayout (localStorage : Storage) : bool * Storage :=
  match localStorage with
  | None => (false, None)
  | Some _ => (true, Some None)
  end.

End Persistence.

(** ** js/main.js *)

Module Main.

Import Persistence.

(** The test that makes [loadObjectsIntoManager] skip a record. *)
Definition skipped (objData : SavedObject) : bool :=
  (toNumber (widthUnits objData) <=? Fin 0)%js
  || (toNumber (lengthUnits objData) <=? Fin 0)%js
  || Js.isNaN (toNumber (x objData))
  || Js.isNaN (toNumber (y objData)).

(** The rest of the loop body, for a record that is not skipped; [now] is
    the reading of [Date.now()]. *)
Definition loadObject (now index : nat) (objData : SavedObject)
    (s : ObjectManager.State) : ObjectManager.State :=
  let definitionPart :=
    {| ObjectDefinition.id :=
         Str (str_or (typeId objData)
                ("custom-" +:+ pretty now +:+ "-" +:+ pretty index));
       ObjectDefinition.name := Str (str_or (name objData) "Loaded Object");
       ObjectDefinition.label := Str (str_or (label objData) EmptyString);
       ObjectDefinition.width := widthUnits objData;
       ObjectDefinition.length := lengthUnits objData;
       ObjectDefinition.color :=
         Str (str_or (color objData) Config.CUSTOM_OBJECT_DEFAULTS_color) |} in
  let ref := ObjectManager.objectCounter s in
  let loadedObj :=
    PlacedObject.new definitionPart (x objData) (y objData)
      (Room.scale (ObjectManager.room s)) ref in
  let number := toNumber (rotation objData) in
  let loadedObj :=
    PlacedObject.set_rotation (if Js.truthy number then number else Fin 0)
      loadedObj in
  ObjectManager.set_placedObjects (ObjectManager.placedObjects s ++ [ref])
    (ObjectManager.set_objectCounter (S ref)
       (ObjectManager.set_heap (<[ref := loadedObj]> (ObjectManager.heap s)) s)).

(** The [forEach] of [loadObjectsIntoManager], inside its [try]: reading a
    property of a [null] entry throws, and the [catch] ends the load with
    the entities restored so far. *)
Fixpoint forEachObject (now : nat -> nat)
    (objectsData : list (option SavedObject)) (index : nat)
    (s : ObjectManager.State) : ObjectManager.State :=
  match objectsData with
  | [] => s
  | None :: _ => s
  | Some objData :: rest =>
      if skipped objData
      then forEachObject now rest (S index) s
      else forEachObject now rest (S index)
             (loadObject (now index) index objData s)
  end.

Definition loadObjectsIntoManager (now : nat -> nat)
    (objectsData : list (option SavedObject)) (s : ObjectManager.State)
    : ObjectManager.State :=
  forEachObject now objectsData 0 s.

(** [handleSetRoomSize(width, length, objectsToLoad)] in a program that has
    created the entities of [h] so far.  The result is the new manager,
    unless the dimensions are refused, and the storage afterwards. *)
Definition handleSetRoomSize (now : nat -> nat) (width length : number)
    (objectsToLoad : option (list (option SavedObject)))
    (h : gmap nat PlacedObject.t) (counter : nat) (localStorage : Storage)
    : option ObjectManager.State * Storage :=
  if Js.isNaN width || Js.isNaN length
     || (width <=? Fin 0)%js || (length <=? Fin 0)%js
  then (None, localStorage)
  else
    match Room.new width length with
    | inl _ => (None, localStorage)
    | inr currentRoom =>
        let objectManager := ObjectManager.new currentRoom h counter in
        let objectManager := ObjectManager.setOnChangeCallback objectManager in
        let objectManager :=
          match objectsToLoad with
          | Some objectsData =>
              loadObjectsIntoManager now objectsData objectManager
          | None => objectManager
          end in
        let objectManager := ObjectManager._notifyChange objectManager in
        (Some objectManager,
         snd (saveLayout currentRoom objectManager localStorage))
    end.

(** [initializeApplication()] in a fresh program, the page elements being
    present. *)
Definition initializeApplication (now : nat -> nat) (localStorage : Storage)
    : option ObjectManager.State * Storage :=
  let '(savedData, localStorage) := loadLayout localStorage in
  match savedData with
  | Some layoutData =>
      handleSetRoomSize now
        (toNumber (room_width layoutData)) (toNumber (room_length layoutData))
        (Some (objects layoutData)) ∅ 0 localStorage
  | None => handleSetRoomSize now (Fin 5) (Fin 4) None ∅ 0 localStorage
  end.

(** *** Notions of the specification *)

(** A property that holds a finite number. *)
Definition finiteNumber (v : numval) : Prop := exists r, v = Num (Fin r).

(** The validation the specification describes: positive widthUnits and
    lengthUnits, numeric and finite x and y. *)
Definition validRecord (objData : SavedObject) : Prop :=
  ObjectManager.positiveNumber (widthUnits objData)
  /\ ObjectManager.positiveNumber (lengthUnits objData)
  /\ finiteNumber (x objData)
  /\ finiteNumber (y objData).

(** The validation without the finiteness of the coordinates: positive
    widthUnits and lengthUnits, x and y that are not NaN as numbers. *)
Definition accepted (objData : SavedObject) : Prop :=
  (toNumber (widthUnits objData) >? Fin 0)%js = true
  /\ (toNumber (lengthUnits objData) >? Fin 0)%js = true
  /\ Js.isNaN (toNumber (x objData)) = false
  /\ Js.isNaN (toNumber (y objData)) = false.

#[global] Instance accepted_dec objData : Decision (accepted objData).
Proof. unfold accepted. apply _. Defined.

(** The sizes of a record are numbers. *)
Definition numericSize (objData : SavedObject) : Prop :=
  exists w l,
    widthUnits objData = Num w /\ lengthUnits objData = Num l
    /\ Js.isNaN w = false /\ Js.isNaN l = false.

(** The entity [o] restores the record [objData] at the scale [scale]. *)
Definition restores (scale : number) (objData : SavedObject)
    (o : PlacedObject.t) : Prop :=
  (forall t, typeId objData = Str t -> t <> EmptyString ->
     PlacedObject.typeId o = t)
  /\ PlacedObject.name o = str_or (name objData) "Loaded Object"
  /\ PlacedObject.label o = str_or (label objData) EmptyString
  /\ PlacedObject.color o
     = str_or (color objData) Config.CUSTOM_OBJECT_DEFAULTS_color
  /\ PlacedObject.widthUnits o = widthUnits objData
  /\ PlacedObject.lengthUnits o = lengthUnits objData
  /\ PlacedObject.x o = x objData
  /\ PlacedObject.y o = y objData
  /\ PlacedObject.rotation o
     = (if Js.truthy (toNumber (rotation objData))
        then toNumber (rotation objData) else Fin 0)
  /\ PlacedObject.isSelected o = false
  /\ PlacedObject.scale o = scale.

(** The restored entity [o'] carries the persisted properties of [o]. *)
Definition sameLayoutObject (o o' : PlacedObject.t) : Prop :=
  PlacedObject.typeId o' = PlacedObject.typeId o
  /\ PlacedObject.label o' = PlacedObject.label o
  /\ PlacedObject.widthUnits o' = PlacedObject.widthUnits o
  /\ PlacedObject.lengthUnits o' = PlacedObject.lengthUnits o
  /\ PlacedObject.rotation o' = PlacedObject.rotation o
  /\ PlacedObject.x o' = PlacedObject.x o
  /\ PlacedObject.y o' = PlacedObject.y o.

(** What holds of every entity created by [addObject]. *)
Definition managed (o : PlacedObject.t) : Prop :=
  PlacedObject.typeId o <> EmptyString
  /\ (exists r, PlacedObject.rotation o = Fin r)
  /\ (toNumber (PlacedObject.widthUnits o) >? Fin 0)%js = true
  /\ (toNumber (PlacedObject.lengthUnits o) >? Fin 0)%js = true.

(** The persisted numbers of an entity are finite. *)
Definition finiteObject (o : PlacedObject.t) : Prop :=
  finiteNumber (PlacedObject.widthUnits o)
  /\ finiteNumber (PlacedObject.lengthUnits o)
  /\ finiteNumber (PlacedObject.x o)
  /\ finiteNumber (PlacedObject.y o).

End Main.

(** ** The manager within the application *)

Module Session.

Import ObjectManager.

(** What the application does to a manager: the calls of its methods and,
    from main.js, the loading of saved records into it. *)
Inductive Op : Type :=
| AddObject (objectDefinition : option ObjectDefinition.t) (x y : number)
| SelectObject (objectToSelect : option nat)
| SelectObjectAt (x y : number)
| MoveSelectedObject (x y : number)
| RotateSelectedObject
| DeleteSelectedObject
| UpdateObjectScales (newScale : number)
| SetOnChangeCallback
| LoadObjects (now : nat -> nat)
    (objectsData : list (option Persistence.SavedObject)).

Definition step (s : State) (op : Op) : State :=
  match op with
  | AddObject d x y => snd (addObject d x y s)
  | SelectObject o => selectObject o s
  | SelectObjectAt x y => snd (selectObjectAt x y s)
  | MoveSelectedObject x y => moveSelectedObject x y s
  | RotateSelectedObject => rotateSelectedObject s
  | DeleteSelectedObject => deleteSelectedObject s
  | UpdateObjectScales k => updateObjectScales k s
  | SetOnChangeCallback => setOnChangeCallback s
  | LoadObjects now objectsData =>
      Main.loadObjectsIntoManager now objectsData s
  end.

Definition run (ops : list Op) (s : State) : State := foldl step s ops.

(** A caller can only hand over an entity that exists. *)
Definition callable (s : State) (op : Op) : Prop :=
  match op with
  | SelectObject (Some obj) => is_Some (heap s !! obj)
  | _ => True
  end.

(** A caller that only ever selects entities of the collection. *)
Definition selectsMember (s : State) (op : Op) : Prop :=
  match op with
  | SelectObject (Some obj) => obj ∈ placedObjects s
  | _ => True
  end.

(** A call of a method of the manager. *)
Definition managerCall (s : State) (op : Op) : Prop :=
  match op with
  | LoadObjects _ _ => False
  | _ => callable s op
  end.

(** The states a manager created for [room] in a fresh program can be in,
    when every step satisfies [allowed] in the state it is made in. *)
Inductive reachable_by (allowed : State -> Op -> Prop) (room : Room.t)
    : State -> Prop :=
| reachable_init : reachable_by allowed room (init room)
| reachable_step s op :
    reachable_by allowed room s -> allowed s op ->
    reachable_by allowed room (step s op).

Definition reachable : Room.t -> State -> Prop := reachable_by callable.

End Session.

(** ** js/main.js: the handlers of the page *)

Module Handlers.

Import ObjectManager.

(** The module-level variables of main.js that the handlers read and
    write.  [currentRoom] is set together with [objectManager] and is the
    room the manager holds, so it is read from the manager. *)
Record App : Type := mk {
  objectManager : option State;
  isDragging : bool;
  dragStartX : number;
  dragStartY : number;
  selectedObjectOffsetX : number;
  selectedObjectOffsetY : number;
  customObjectCounter : nat
}.

Definition set_objectManager (m : option State) (app : App) : App :=
  {| objectManager := m; isDragging := isDragging app;
     dragStartX := dragStartX app; dragStartY := dragStartY app;
     selectedObjectOffsetX := selectedObjectOffsetX app;
     selectedObjectOffsetY := selectedObjectOffsetY app;
     customObjectCounter := customObjectCounter app |}.

Definition set_isDragging (b : bool) (app : App) : App :=
  {| objectManager := objectManager app; isDragging := b;
     dragStartX := dragStartX app; dragStartY := dragStartY app;
     selectedObjectOffsetX := selectedObjectOffsetX app;
     selectedObjectOffsetY := selectedObjectOffsetY app;
     customObjectCounter := customObjectCounter app |}.

Definition set_customObjectCounter (n : nat) (app : App) : App :=
  {| objectManager := objectManager app; isDragging := isDragging app;
     dragStartX := dragStartX app; dragStartY := dragStartY app;
     selectedObjectOffsetX := selectedObjectOffsetX app;
     selectedObjectOffsetY := selectedObjectOffsetY app;
     customObjectCounter := n |}.

(** The details handed over by the form. *)
Record Details : Type := mkDetails {
  width : number;
  length : number;
  label : strval
}.

(** A mouse event, with the bounding rectangle of the canvas at the time of
    the event. *)
Record MouseEvent : Type := mkMouseEvent {
  clientX : number;
  clientY : number;
  rectLeft : number;
  rectTop : number
}.

(** [handleAddObject(details)]; [trim] is [String.prototype.trim]. *)
Definition handleAddObject (trim : string -> string) (details : Details)
    (app : App) : App :=
  match objectManager app with
  | None => app
  | Some s =>
      if Js.isNaN (width details) || Js.isNaN (length details)
         || (width details <=? Fin 0)%js || (length details <=? Fin 0)%js
      then app
      else
        let internalName := "Custom-" +:+ pretty (customObjectCounter app) in
        let displayName :=
          match label details with
          | Str l => if str_truthy (Str (trim l)) then trim l else internalName
          | _ => internalName
          end in
        let customObjectDefinition :=
          {| ObjectDefinition.id := Str internalName;
             ObjectDefinition.name := Str displayName;
             ObjectDefinition.label := label details;
             ObjectDefinition.width := Num (width details);
             ObjectDefinition.length := Num (length details);
             ObjectDefinition.color := Str Config.CUSTOM_OBJECT_DEFAULTS_color |} in
        let '(canvasWidth, canvasHeight) := Room.getPixelDimensions (room s) in
        let centerX := (canvasWidth / Fin 2)%js in
        let centerY := (canvasHeight / Fin 2)%js in
        set_objectManager
          (Some (snd (addObject (Some customObjectDefinition) centerX centerY s)))
          (set_customObjectCounter (S (customObjectCounter app)) app)
  end.

Definition handleRotateObject (app : App) : App :=
  match objectManager app with
  | None => app
  | Some s => set_objectManager (Some (rotateSelectedObject s)) app
  end.

(** [handleDeleteObject()]; [confirmed] is the answer to the [confirm]
    dialog, which is asked only when an entity is selected. *)
Definition handleDeleteObject (confirmed : bool) (app : App) : App :=
  match objectManager app with
  | None => app
  | Some s =>
      match getSelectedObject s with
      | Some _ =>
          if confirmed
          then set_objectManager (Some (deleteSelectedObject s)) app
          else app
      | None => app
      end
  end.

(** [handleClearLayout()]: the storage afterwards, and whether the page is
    reloaded. *)
Definition handleClearLayout (confirmed : bool)
    (localStorage : Persistence.Storage) : bool * Persistence.Storage :=
  if confirmed then Persistence.clearSavedLayout localStorage
  else (false, localStorage).

Definition handleMouseDown (event : MouseEvent) (app : App) : App :=
  match objectManager app with
  | None => app
  | Some s =>
      let mouseX := (clientX event - rectLeft event)%js in
      let mouseY := (clientY event - rectTop event)%js in
      let '(selected, s) := selectObjectAt mouseX mouseY s in
      match selected ≫= (fun obj => heap s !! obj) with
      | Some selected =>
          {| objectManager := Some s;
             isDragging := true;
             dragStartX := mouseX;
             dragStartY := mouseY;
             selectedObjectOffsetX :=
               (mouseX - toNumber (PlacedObject.x selected))%js;
             selectedObjectOffsetY :=
               (mouseY - toNumber (PlacedObject.y selected))%js;
             customObjectCounter := customObjectCounter app |}
      | None => set_isDragging false (set_objectManager (Some s) app)
      end
  end.

Definition handleMouseMove (event : MouseEvent) (app : App) : App :=
  if negb (isDragging app) then app
  else
    match objectManager app with
    | None => app
    | Some s =>
        match getSelectedObject s with
        | None => set_isDragging false app
        | Some _ =>
            let mouseX := (clientX event - rectLeft event)%js in
            let mouseY := (clientY event - rectTop event)%js in
            let newCenterX := (mouseX - selectedObjectOffsetX app)%js in
            let newCenterY := (mouseY - selectedObjectOffsetY app)%js in
            set_objectManager
              (Some (moveSelectedObject newCenterX newCenterY s)) app
        end
    end.

Definition handleMouseUp (app : App) : App :=
  if isDragging app then set_isDragging false app else app.

End Handlers.

(** ** Sample data *)

(** The room of 5 by 4 units: scale 175, canvas 875 by 700. *)
Definition room_5x4 : Room.t :=
  {| Room.width := Fin 5; Room.length := Fin 4; Room.scale := Fin 175;
     Room.canvasWidth := Fin 875; Room.canvasHeight := Fin 700 |}.

(** A saved record of the given size and position. *)
Definition savedBlock (width length x y : numval) : Persistence.SavedObject :=
  {| Persistence.typeId := Str "Custom-0";
     Persistence.name := Str "Item";
     Persistence.label := Str "Item";
     Persistence.widthUnits := width;
     Persistence.lengthUnits := length;
     Persistence.color := Str "#888888";
     Persistence.x := x;
     Persistence.y := y;
     Persistence.rotation := Num (Fin 0) |}.

(** A definition of the given size. *)
Definition block (width length : number) : ObjectDefinition.t :=
  {| ObjectDefinition.id := Str "Custom-0";
     ObjectDefinition.name := Str "Item";
     ObjectDefinition.width := Num width;
     ObjectDefinition.length := Num length;
     ObjectDefinition.color := Str "#888888";
     ObjectDefinition.label := Str "Item" |}.

(** The manager of the 5 by 4 room after a 2 by 1 block has been added at
    the center of the canvas, and a page that holds it. *)
Definition placed_block : ObjectManager.State :=
  Session.step (ObjectManager.init room_5x4)
    (Session.AddObject (Some (block (Fin 2) (Fin 1))) (Fin 437.5) (Fin 350)).

Definition page_with_block : Handlers.App :=
  {| Handlers.objectManager := Some placed_block;
     Handlers.isDragging := false;
     Handlers.dragStartX := Fin 0;
     Handlers.dragStartY := Fin 0;
     Handlers.selectedObjectOffsetX := Fin 0;
     Handlers.selectedObjectOffsetY := Fin 0;
     Handlers.customObjectCounter := 1 |}.

(** * Properties *)

(** ** Numbers *)

Section NumberFacts.

Local Open Scope R_scope.

Lemma Rltb_true a b : a < b -> Js.Rltb a b = true.
Proof. intros H. unfold Js.Rltb. destruct (Rlt_dec a b); [reflexivity | contradiction]. Qed.

Lemma Rltb_false a b : ~ a < b -> Js.Rltb a b = false.
Proof. intros H. unfold Js.Rltb. destruct (Rlt_dec a b); [contradiction | reflexivity]. Qed.

Lemma Reqb_true a b : a = b -> Js.Reqb a b = true.
Proof. intros H. unfold Js.Reqb. destruct (Req_dec_T a b); [reflexivity | contradiction]. Qed.

Lemma Reqb_false a b : a <> b -> Js.Reqb a b = false.
Proof. intros H. unfold Js.Reqb. destruct (Req_dec_T a b); [contradiction | reflexivity]. Qed.

Lemma Rltb_spec a b : Js.Rltb a b = true <-> a < b.
Proof.
  unfold Js.Rltb. destruct (Rlt_dec a b); split; intros; try done.
Qed.

Lemma Rtrunc_0 x : 0 <= x < 1 -> Js.Rtrunc x = 0%Z.
Proof.
  intros [H0 H1]. unfold Js.Rtrunc.
  destruct (Rle_dec 0 x); [| contradiction].
  symmetry. apply Int_part_spec. simpl. lra.
Qed.

Lemma Rtrunc_1 x : 1 <= x < 2 -> Js.Rtrunc x = 1%Z.
Proof.
  intros [H0 H1]. unfold Js.Rtrunc.
  destruct (Rle_dec 0 x); [| lra].
  symmetry. apply Int_part_spec. simpl. lra.
Qed.

End NumberFacts.

(** Decide the comparisons of concrete reals met while evaluating. *)
Ltac rdecide :=
  repeat match goal with
  | |- context [Js.Rltb ?a ?b] =>
      first [ rewrite (Rltb_true a b) by lra
            | rewrite (Rltb_false a b) by lra ]
  | |- context [Js.Reqb ?a ?b] =>
      first [ rewrite (Reqb_true a b) by lra
            | rewrite (Reqb_false a b) by lra ]
  end.

(** Equality of two finite numbers up to real arithmetic. *)
Ltac fin_eq := f_equal; lra.

(** ** Room *)

Section RoomFacts.

Lemma le_zero_not_gt (n : number) :
  (n >? Fin 0)%js = true -> (n <=? Fin 0)%js = false.
Proof.
  destruct n; simpl; try discriminate; try reflexivity.
  unfold Js.gt. simpl. intros ->. reflexivity.
Qed.

(** C7. A room with two positive dimensions is built, with
    scale = min(CANVAS_MAX_WIDTH / width, CANVAS_MAX_HEIGHT / length) and
    pixel size width * scale by length * scale; the constructor raises an
    error as soon as one dimension is <= 0; and the 5 by 4 room has scale 175
    and pixel size 875 by 700. *)
Theorem Room_new_spec (width length : number) :
  ((width >? Fin 0)%js = true -> (length >? Fin 0)%js = true ->
   exists room,
     Room.new width length = inr room
     /\ Room.width room = width /\ Room.length room = length
     /\ Room.scale room =
          Js.min (Config.CANVAS_MAX_WIDTH / width)%js
                 (Config.CANVAS_MAX_HEIGHT / length)%js
     /\ Room.getPixelDimensions room =
          ((width * Room.scale room)%js, (length * Room.scale room)%js))
  /\ ((width <=? Fin 0)%js = true \/ (length <=? Fin 0)%js = true ->
      exists msg, Room.new width length = inl msg)
  /\ (exists room,
        Room.new (Fin 5) (Fin 4) = inr room
        /\ Room.scale room = Fin 175
        /\ Room.getPixelDimensions room = (Fin 875, Fin 700)).
Proof.
  split; [| split].
  - intros Hw Hl. unfold Room.new.
    rewrite (le_zero_not_gt _ Hw), (le_zero_not_gt _ Hl). simpl.
    eexists. split; [reflexivity |]. simpl. auto.
  - intros H. unfold Room.new.
    destruct H as [-> | ->]; [| rewrite orb_true_r]; simpl; eauto.
  - unfold Room.new, Room.calculateScale, Room.getPixelDimensions,
      Config.CANVAS_MAX_WIDTH, Config.CANVAS_MAX_HEIGHT.
    simpl. rdecide. simpl. eexists. split; [reflexivity |]. simpl.
    rdecide. split; [fin_eq | f_equal; fin_eq].
Qed.

Lemma Room_new_spec_witness :
  (exists room,
     Room.new (Fin 10) (Fin 7) = inr room
     /\ Room.width room = Fin 10 /\ Room.length room = Fin 7
     /\ Room.scale room =
          Js.min (Config.CANVAS_MAX_WIDTH / Fin 10)%js
                 (Config.CANVAS_MAX_HEIGHT / Fin 7)%js
     /\ Room.getPixelDimensions room =
          ((Fin 10 * Room.scale room)%js, (Fin 7 * Room.scale room)%js))
  /\ (exists msg, Room.new (Fin 0) (Fin 7) = inl msg).
Proof.
  split.
  - apply (proj1 (Room_new_spec (Fin 10) (Fin 7)));
      unfold Js.gt; simpl; apply Rltb_true; lra.
  - apply (proj1 (proj2 (Room_new_spec (Fin 0) (Fin 7)))).
    left. simpl. rewrite Rltb_false by lra. reflexivity.
Defined.

End RoomFacts.

(** ** Rotation steps *)

Section RotationFacts.

Local Open Scope R_scope.

Lemma rem_360_below x : 0 <= x < 360 -> (Fin x mod Fin 360)%js = Fin x.
Proof.
  intros H. simpl. rewrite Reqb_false by lra.
  rewrite Rtrunc_0 by lra. fin_eq.
Qed.

Lemma rem_360_wrap x : 360 <= x < 720 -> (Fin x mod Fin 360)%js = Fin (x - 360).
Proof.
  intros H. simpl. rewrite Reqb_false by lra.
  rewrite Rtrunc_1 by lra. fin_eq.
Qed.

Lemma rotate_rotation (o : PlacedObject.t) (r : R) :
  PlacedObject.rotation o = Fin r -> 0 <= r < 360 ->
  PlacedObject.rotation (PlacedObject.rotate o)
  = Fin (if Rlt_dec (r + 10) 360 then r + 10 else r + 10 - 360).
Proof.
  intros Hr Hb. unfold PlacedObject.rotate. simpl. rewrite Hr.
  unfold Config.ROTATION_INCREMENT.
  change (Fin r + Fin 10)%js with (Fin (r + 10)).
  destruct (Rlt_dec (r + 10) 360).
  - apply rem_360_below. lra.
  - apply rem_360_wrap. lra.
Qed.

Lemma iter_rotate_rotation (o : PlacedObject.t) (r : R) (n : nat) :
  PlacedObject.rotation o = Fin r -> 0 <= r < 360 -> (n <= 36)%nat ->
  PlacedObject.rotation (Nat.iter n PlacedObject.rotate o)
  = Fin (if Rlt_dec (r + 10 * INR n) 360
         then r + 10 * INR n else r + 10 * INR n - 360).
Proof.
  intros Hr Hb. induction n as [| n IH]; intros Hn.
  - simpl. rewrite Hr. destruct (Rlt_dec (r + 10 * 0) 360); fin_eq.
  - assert (Hle : INR n <= 35).
    { replace 35 with (INR 35) by (simpl; lra). apply le_INR. lia. }
    assert (Hpos : 0 <= INR n) by apply pos_INR.
    rewrite Nat.iter_succ, S_INR.
    erewrite rotate_rotation; [| apply IH; lia |].
    + destruct (Rlt_dec (r + 10 * INR n) 360);
        destruct (Rlt_dec (r + 10 * (INR n + 1)) 360);
        match goal with
        | |- context [Rlt_dec ?a ?b] => destruct (Rlt_dec a b)
        end; try fin_eq; exfalso; lra.
    + destruct (Rlt_dec (r + 10 * INR n) 360); lra.
Qed.



End RotationFacts.

(** ** The object manager *)

Import ObjectManager Persistence Main Session.

Section ManagerBasics.

Implicit Types (s : State) (obj sel : nat).

(** *** What a notification leaves alone *)

Lemma notify_heap s : heap (_notifyChange s) = heap s.
Proof. unfold _notifyChange. by destruct (onChangeCallback s). Qed.

Lemma notify_objectCounter s : objectCounter (_notifyChange s) = objectCounter s.
Proof. unfold _notifyChange. by destruct (onChangeCallback s). Qed.

Lemma notify_room s : room (_notifyChange s) = room s.
Proof. unfold _notifyChange. by destruct (onChangeCallback s). Qed.

Lemma notify_placedObjects s : placedObjects (_notifyChange s) = placedObjects s.
Proof. unfold _notifyChange. by destruct (onChangeCallback s). Qed.

Lemma notify_selectedObject s : selectedObject (_notifyChange s) = selectedObject s.
Proof. unfold _notifyChange. by destruct (onChangeCallback s). Qed.

Lemma notify_onChangeCallback s :
  onChangeCallback (_notifyChange s) = onChangeCallback s.
Proof. unfold _notifyChange. by destruct (onChangeCallback s) eqn:E. Qed.

Lemma notify_notifications s :
  onChangeCallback s = true ->
  notifications (_notifyChange s) = S (notifications s).
Proof. unfold _notifyChange. by intros ->. Qed.

Lemma notify_flag s obj : flag (_notifyChange s) obj = flag s obj.
Proof. unfold flag. by rewrite notify_heap. Qed.

(** *** selectObject *)

Lemma selectObject_heap o s : heap (selectObject o s) = selectHeap o s.
Proof.
  unfold selectObject, selectHeap. rewrite notify_heap.
  destruct (selectedObject s), o; reflexivity.
Qed.

Lemma selectObject_placedObjects o s :
  placedObjects (selectObject o s) = placedObjects s.
Proof.
  unfold selectObject. rewrite notify_placedObjects.
  destruct (selectedObject s), o; reflexivity.
Qed.

Lemma selectObject_selectedObject o s : selectedObject (selectObject o s) = o.
Proof.
  unfold selectObject. rewrite notify_selectedObject.
  destruct (selectedObject s), o; reflexivity.
Qed.

Lemma selectObject_objectCounter o s :
  objectCounter (selectObject o s) = objectCounter s.
Proof.
  unfold selectObject. rewrite notify_objectCounter.
  destruct (selectedObject s), o; reflexivity.
Qed.

Lemma selectObject_room o s : room (selectObject o s) = room s.
Proof.
  unfold selectObject. rewrite notify_room.
  destruct (selectedObject s), o; reflexivity.
Qed.

Lemma selectObject_onChangeCallback o s :
  onChangeCallback (selectObject o s) = onChangeCallback s.
Proof.
  unfold selectObject. rewrite notify_onChangeCallback.
  destruct (selectedObject s), o; reflexivity.
Qed.

Lemma selectObject_notifications o s :
  onChangeCallback s = true ->
  notifications (selectObject o s) = S (notifications s).
Proof.
  intros Hcb. unfold selectObject. rewrite notify_notifications.
  - destruct (selectedObject s), o; reflexivity.
  - destruct (selectedObject s), o; exact Hcb.
Qed.

(** Looking an entity up after [selectObject]: only its flag may differ. *)
Lemma selectHeap_lookup o s obj :
  selectHeap o s !! obj
  = (fun e =>
       if decide (o = Some obj) then PlacedObject.set_isSelected true e
       else if decide (selectedObject s = Some obj)
            then PlacedObject.set_isSelected false e
            else e) <$> heap s !! obj.
Proof.
  unfold selectHeap.
  destruct o as [sel |], (selectedObject s) as [old |];
    rewrite ?lookup_alter; repeat case_decide; simplify_eq;
    destruct (heap s !! obj) as [e |]; simpl; try reflexivity;
    destruct e; reflexivity.
Qed.

Lemma selectObject_is_Some o s obj :
  is_Some (heap (selectObject o s) !! obj) <-> is_Some (heap s !! obj).
Proof.
  rewrite selectObject_heap, selectHeap_lookup. apply fmap_is_Some.
Qed.

Lemma selectObject_flag o s obj :
  flag (selectObject o s) obj
  = if decide (o = Some obj) then bool_decide (is_Some (heap s !! obj))
    else if decide (selectedObject s = Some obj) then false
         else flag s obj.
Proof.
  unfold flag. rewrite selectObject_heap, selectHeap_lookup.
  destruct (heap s !! obj) as [e |]; simpl;
    repeat case_decide; reflexivity.
Qed.

End ManagerBasics.

(** ** Well-formedness of reachable states *)

Section WellFormed.

Implicit Types (s : State) (obj sel : nat).

Lemma wf_init room : wf (init room).
Proof.
  split; unfold init, new, flag; simpl.
  - intros obj o H. by rewrite lookup_empty in H.
  - intros obj [o H]. by rewrite lookup_empty in H.
  - intros obj H. by apply elem_of_nil in H.
  - constructor.
  - discriminate.
  - intros obj H. by apply elem_of_nil in H.
Qed.

Lemma wf_notify s : wf s -> wf (_notifyChange s).
Proof.
  intros [H1 H2 H3 H4 H5 H6].
  split; intros *;
    rewrite ?notify_flag, ?notify_heap, ?notify_objectCounter,
      ?notify_placedObjects, ?notify_selectedObject; eauto.
Qed.

(** Replacing the heap by one whose entities keep identity and flag. *)
Lemma wf_set_heap s h :
  wf s ->
  (forall obj,
     option_Forall2
       (fun e e' => PlacedObject.uniqueId e' = PlacedObject.uniqueId e
                    /\ PlacedObject.isSelected e' = PlacedObject.isSelected e)
       (heap s !! obj) (h !! obj)) ->
  wf (set_heap h s).
Proof.
  intros [H1 H2 H3 H4 H5 H6] Hh.
  assert (Hsome : forall obj, is_Some (h !! obj) <-> is_Some (heap s !! obj)).
  { intros obj. specialize (Hh obj).
    inversion Hh; split; intros [? ?]; simplify_eq; eauto. }
  assert (Hflag : forall obj, flag (set_heap h s) obj = flag s obj).
  { intros obj. unfold flag. simpl. specialize (Hh obj).
    inversion Hh as [e e' [_ He] |]; [exact He | reflexivity]. }
  split; simpl; intros *; rewrite ?Hflag, ?Hsome; eauto.
  intros Ho. specialize (Hh obj). rewrite Ho in Hh.
  inversion Hh as [e e' [He _] Hs |]; simplify_eq.
  rewrite He. eauto.
Qed.

Lemma wf_selectObject o s :
  wf s -> callable s (SelectObject o) -> wf (selectObject o s).
Proof.
  intros [H1 H2 H3 H4 H5 H6] Ho.
  split; intros *;
    rewrite ?selectObject_flag, ?selectObject_is_Some,
      ?selectObject_objectCounter, ?selectObject_placedObjects,
      ?selectObject_selectedObject; eauto.
  - rewrite selectObject_heap, selectHeap_lookup.
    destruct (heap s !! obj) as [e |] eqn:He; simpl; [| discriminate].
    intros [= <-]. specialize (H1 _ _ He).
    repeat case_decide; by destruct e.
  - intros ->. rewrite decide_True by reflexivity.
    apply bool_decide_eq_true. exact Ho.
  - intros Hin. repeat case_decide; try done.
    intros Hf. exfalso. eauto.
Qed.

Lemma updateScale_uniqueId k e :
  PlacedObject.uniqueId (PlacedObject.updateScale k e) = PlacedObject.uniqueId e.
Proof. reflexivity. Qed.

Lemma wf_fresh s : wf s -> heap s !! objectCounter s = None.
Proof.
  intros Hwf. destruct (heap s !! objectCounter s) eqn:E; [| reflexivity].
  pose proof (wf_counter s Hwf (objectCounter s) (mk_is_Some _ _ E)). lia.
Qed.

(** A new entity, created with the current counter value and not flagged,
    is stored and pushed onto the collection. *)
Lemma wf_pushed s e :
  wf s ->
  PlacedObject.uniqueId e = objectCounter s ->
  PlacedObject.isSelected e = false ->
  wf (set_placedObjects (placedObjects s ++ [objectCounter s])
        (set_objectCounter (S (objectCounter s))
           (set_heap (<[objectCounter s := e]> (heap s)) s))).
Proof.
  intros Hwf Hid Hsel. pose proof (wf_fresh s Hwf) as Hfresh.
  destruct Hwf as [H1 H2 H3 H4 H5 H6].
  assert (Hflag : forall obj,
    flag (set_heap (<[objectCounter s := e]> (heap s)) s) obj = flag s obj).
  { intros obj. unfold flag. simpl. rewrite lookup_insert.
    case_decide; [subst; by rewrite Hfresh | reflexivity]. }
  split; simpl; intros *.
  - rewrite lookup_insert. case_decide; [| by eauto].
    intros [= <-]. by subst.
  - rewrite lookup_insert. case_decide; [lia |].
    intros Hs. apply H2 in Hs. lia.
  - rewrite elem_of_app, list_elem_of_singleton, lookup_insert.
    intros [Hin | ->]; case_decide; eauto; done.
  - apply NoDup_app. split; [exact H4 |]. split; [| apply NoDup_singleton].
    intros obj Hin ->%list_elem_of_singleton.
    apply H3 in Hin. rewrite Hfresh in Hin. by destruct Hin.
  - change (flag _ sel) with
      (flag (set_heap (<[objectCounter s := e]> (heap s)) s) sel).
    rewrite Hflag. eauto.
  - change (flag _ obj) with
      (flag (set_heap (<[objectCounter s := e]> (heap s)) s) obj).
    rewrite Hflag, elem_of_app, list_elem_of_singleton.
    intros [Hin | ->]; [by eauto |].
    unfold flag. by rewrite Hfresh.
Qed.

(** The loop of [loadObjectsIntoManager] keeps whatever each restored
    record keeps. *)
Lemma forEachObject_preserves (P : State -> Prop) now objectsData index s :
  (forall t i objData s', P s' -> P (loadObject t i objData s')) ->
  P s -> P (forEachObject now objectsData index s).
Proof.
  intros Hload. revert index s.
  induction objectsData as [| [objData |] rest IH]; intros index s Hs;
    cbn [forEachObject]; try exact Hs.
  destruct (skipped objData); apply IH; [exact Hs | by apply Hload].
Qed.

Lemma wf_loadObjectsIntoManager now objectsData s :
  wf s -> wf (loadObjectsIntoManager now objectsData s).
Proof.
  apply forEachObject_preserves. intros t i objData s' Hwf.
  unfold loadObject. by apply wf_pushed.
Qed.

End WellFormed.

Section Operations.

Implicit Types (s : State) (obj sel : nat).

(** *** addObject *)

(** The state of [addObject] once the new entity is created and pushed. *)
Local Abbreviation pushed d x y s :=
  (set_placedObjects (placedObjects s ++ [objectCounter s])
     (set_objectCounter (S (objectCounter s))
        (set_heap
           (<[objectCounter s :=
                PlacedObject.new d (Num x) (Num y) (Room.scale (room s))
                  (objectCounter s)]> (heap s))
           s))).

Lemma addObject_valid d x y s :
  invalidDefinition (Some d) = false ->
  addObject (Some d) x y s
  = (Some (objectCounter s),
     _notifyChange (selectObject (Some (objectCounter s)) (pushed d x y s))).
Proof. intros H. unfold addObject. rewrite H. reflexivity. Qed.

Lemma addObject_invalid d x y s :
  invalidDefinition d = true -> addObject d x y s = (None, s).
Proof.
  intros H. unfold addObject. destruct d; [| reflexivity]. by rewrite H.
Qed.

Lemma wf_addObject d x y s : wf s -> wf (snd (addObject d x y s)).
Proof.
  intros Hwf. destruct (invalidDefinition d) eqn:Hd.
  - by rewrite addObject_invalid.
  - destruct d as [d |]; [| discriminate].
    rewrite addObject_valid by exact Hd. simpl.
    apply wf_notify, wf_selectObject; [by apply wf_pushed |].
    simpl. rewrite lookup_insert_eq. eauto.
Qed.

(** *** selectObjectAt *)

Lemma hitTest_hits s px py obj o :
  heap s !! obj = Some o -> hitTest px py o = hits s px py obj.
Proof. intros H. unfold hits. rewrite H. reflexivity. Qed.

Lemma findObjectAt_Some s px py n obj :
  findObjectAt s px py n = Some obj ->
  exists i,
    i < n /\ placedObjects s !! i = Some obj /\ hits s px py obj = true
    /\ forall j obj', i < j < n -> placedObjects s !! j = Some obj' ->
         hits s px py obj' = false.
Proof.
  induction n as [| n IH]; simpl; [discriminate |].
  destruct (placedObjects s !! n) as [top |] eqn:Htop.
  - destruct (heap s !! top) as [o |] eqn:Ho.
    + destruct (hitTest px py o) eqn:Hhit.
      * intros [= <-]. exists n. split; [lia |]. split; [exact Htop |].
        split; [by rewrite <- (hitTest_hits s _ _ _ _ Ho) |].
        intros j obj' Hj. lia.
      * intros (i & Hi & Hl & Hh & Hrest)%IH. exists i.
        split; [lia |]. split; [exact Hl |]. split; [exact Hh |].
        intros j obj' Hj Hl'. destruct (decide (j = n)) as [-> |].
        -- rewrite Htop in Hl'. injection Hl' as <-.
           by rewrite <- (hitTest_hits s _ _ _ _ Ho).
        -- apply (Hrest j); [lia | exact Hl'].
    + intros (i & Hi & Hl & Hh & Hrest)%IH. exists i.
      split; [lia |]. split; [exact Hl |]. split; [exact Hh |].
      intros j obj' Hj Hl'. destruct (decide (j = n)) as [-> |].
      * rewrite Htop in Hl'. injection Hl' as <-. unfold hits. by rewrite Ho.
      * apply (Hrest j); [lia | exact Hl'].
  - intros (i & Hi & Hl & Hh & Hrest)%IH. exists i.
    split; [lia |]. split; [exact Hl |]. split; [exact Hh |].
    intros j obj' Hj Hl'. destruct (decide (j = n)) as [-> |].
    + rewrite Htop in Hl'. discriminate.
    + apply (Hrest j); [lia | exact Hl'].
Qed.

Lemma findObjectAt_None s px py n :
  findObjectAt s px py n = None ->
  forall j obj', j < n -> placedObjects s !! j = Some obj' ->
    hits s px py obj' = false.
Proof.
  induction n as [| n IH]; simpl; [intros _ j obj' Hj; lia |].
  intros Hfind j obj' Hj Hl.
  destruct (decide (j = n)) as [-> |].
  - rewrite Hl in Hfind. destruct (heap s !! obj') as [o |] eqn:Ho.
    + rewrite <- (hitTest_hits s _ _ _ _ Ho). by destruct (hitTest px py o).
    + unfold hits. by rewrite Ho.
  - destruct (placedObjects s !! n) as [top |];
      [destruct (heap s !! top) as [o |];
       [destruct (hitTest px py o); [discriminate |] |] |];
      apply (IH Hfind j); (lia || exact Hl).
Qed.

Lemma hits_is_Some s px py obj :
  hits s px py obj = true -> is_Some (heap s !! obj).
Proof. unfold hits. destruct (heap s !! obj); [eauto | discriminate]. Qed.

Lemma findObjectAt_callable s px py n :
  callable s (SelectObject (findObjectAt s px py n)).
Proof.
  destruct (findObjectAt s px py n) as [obj |] eqn:H; simpl; [| done].
  apply findObjectAt_Some in H as (i & _ & _ & Hh & _).
  by apply hits_is_Some in Hh.
Qed.

Lemma findObjectAt_member s px py n obj :
  findObjectAt s px py n = Some obj -> obj ∈ placedObjects s.
Proof.
  intros (i & _ & Hl & _)%findObjectAt_Some.
  apply list_elem_of_lookup. eauto.
Qed.

Lemma wf_selectObjectAt px py s : wf s -> wf (snd (selectObjectAt px py s)).
Proof.
  intros Hwf. unfold selectObjectAt. simpl.
  apply wf_selectObject; [exact Hwf | apply findObjectAt_callable].
Qed.

End Operations.

Section MoreOperations.

Implicit Types (s : State) (obj sel : nat).

(** *** moveSelectedObject *)

(** The clamped center computed by [moveSelectedObject]. *)
Lemma moveSelectedObject_eq newX newY s sel o :
  selectedObject s = Some sel -> heap s !! sel = Some o ->
  moveSelectedObject newX newY s
  = _notifyChange
      (set_heap
         (<[sel :=
              PlacedObject.setPosition
                (Js.max (projectedWidth o / Fin 2)%js
                   (Js.min newX
                      (Room.canvasWidth (room s) - projectedWidth o / Fin 2)%js))
                (Js.max (projectedHeight o / Fin 2)%js
                   (Js.min newY
                      (Room.canvasHeight (room s) - projectedHeight o / Fin 2)%js))
                o]> (heap s))
         s).
Proof. intros Hsel Ho. unfold moveSelectedObject. rewrite Hsel, Ho. reflexivity. Qed.

Lemma moveSelectedObject_none newX newY s :
  selectedObject s = None -> moveSelectedObject newX newY s = s.
Proof. intros H. unfold moveSelectedObject. by rewrite H. Qed.

Lemma wf_moveSelectedObject newX newY s :
  wf s -> wf (moveSelectedObject newX newY s).
Proof.
  intros Hwf. unfold moveSelectedObject.
  destruct (selectedObject s) as [sel |]; [| exact Hwf].
  destruct (heap s !! sel) as [o |] eqn:Ho; [| exact Hwf].
  simpl. apply wf_notify, wf_set_heap; [exact Hwf |].
  intros obj. rewrite lookup_insert. case_decide as Heq.
  - subst obj. rewrite Ho. by constructor.
  - destruct (heap s !! obj); by constructor.
Qed.

(** *** rotateSelectedObject *)

Lemma wf_alter s f sel :
  wf s ->
  (forall e, PlacedObject.uniqueId (f e) = PlacedObject.uniqueId e
             /\ PlacedObject.isSelected (f e) = PlacedObject.isSelected e) ->
  wf (set_heap (alter f sel (heap s)) s).
Proof.
  intros Hwf Hf. apply wf_set_heap; [exact Hwf |].
  intros obj. rewrite lookup_alter. case_decide as Heq.
  - subst obj. destruct (heap s !! sel); constructor. apply Hf.
  - destruct (heap s !! obj); by constructor.
Qed.

Lemma wf_rotateSelectedObject s : wf s -> wf (rotateSelectedObject s).
Proof.
  intros Hwf. unfold rotateSelectedObject.
  destruct (selectedObject s) as [sel |]; [| exact Hwf].
  apply wf_notify, wf_alter; [exact Hwf | done].
Qed.

(** *** updateObjectScales *)

Lemma foldl_alter_lookup (f : PlacedObject.t -> PlacedObject.t)
    (l : list nat) (h : gmap nat PlacedObject.t) obj :
  (forall e, f (f e) = f e) ->
  foldl (fun h obj => alter f obj h) h l !! obj
  = (if bool_decide (obj ∈ l) then f else fun e => e) <$> h !! obj.
Proof.
  intros Hf. revert h. induction l as [| r l IH]; intros h; simpl.
  - by destruct (h !! obj).
  - rewrite IH, lookup_alter. destruct (decide (r = obj)) as [-> | Hne].
    + rewrite (bool_decide_eq_true_2 (obj ∈ obj :: l)) by left.
      destruct (h !! obj) as [e |]; simpl; [| reflexivity].
      case_bool_decide; simpl; by rewrite ?Hf.
    + destruct (decide (obj ∈ l)) as [Hin | Hin].
      * rewrite !bool_decide_eq_true_2; [done | by right | done].
      * rewrite !bool_decide_eq_false_2; [done | | done].
        intros [-> | ?]%elem_of_cons; done.
Qed.

Lemma updateObjectScales_lookup k s obj :
  heap (updateObjectScales k s) !! obj
  = (if bool_decide (obj ∈ placedObjects s)
     then PlacedObject.updateScale k else fun e => e) <$> heap s !! obj.
Proof.
  unfold updateObjectScales. rewrite notify_heap. simpl.
  apply foldl_alter_lookup. intros e. reflexivity.
Qed.

Lemma wf_updateObjectScales k s : wf s -> wf (updateObjectScales k s).
Proof.
  intros Hwf. unfold updateObjectScales.
  apply wf_notify, wf_set_heap; [exact Hwf |].
  intros obj. rewrite foldl_alter_lookup by reflexivity.
  destruct (heap s !! obj); simpl; constructor.
  by case_bool_decide.
Qed.

(** *** deleteSelectedObject *)

Lemma findIndex_Some p (l : list nat) i :
  findIndex p l = Some i -> exists obj, l !! i = Some obj /\ p obj = true.
Proof.
  revert i. induction l as [| r l IH]; intros i; simpl; [discriminate |].
  destruct (p r) eqn:Hp.
  - intros [= <-]. eauto.
  - destruct (findIndex p l) as [j |]; simpl; [| discriminate].
    intros [= <-]. simpl. eauto.
Qed.

Lemma findIndex_None p (l : list nat) obj :
  findIndex p l = None -> obj ∈ l -> p obj = false.
Proof.
  induction l as [| r l IH]; simpl; [by intros _ ?%elem_of_nil |].
  destruct (p r) eqn:Hp; [discriminate |].
  destruct (findIndex p l); simpl; [discriminate |].
  intros _ [-> | Hin]%elem_of_cons; eauto.
Qed.

Lemma sameUniqueId_spec s sel selected obj :
  wf s -> heap s !! sel = Some selected ->
  sameUniqueId s selected obj = true <-> obj = sel.
Proof.
  intros Hwf Hsel. unfold sameUniqueId. split.
  - destruct (heap s !! obj) as [o |] eqn:Ho; [| discriminate].
    intros Heq%Nat.eqb_eq.
    rewrite <- (wf_uniqueId s Hwf _ _ Ho), Heq.
    exact (wf_uniqueId s Hwf _ _ Hsel).
  - intros ->. rewrite Hsel. apply Nat.eqb_refl.
Qed.

(** With a selection that is in the collection, the entity is found. *)
Lemma deleteSelectedObject_member s sel :
  wf s -> selectedObject s = Some sel -> sel ∈ placedObjects s ->
  exists index,
    placedObjects s !! index = Some sel
    /\ deleteSelectedObject s
       = _notifyChange
           (set_selectedObject None
              (set_placedObjects (delete index (placedObjects s)) s)).
Proof.
  intros Hwf Hsel Hin. unfold deleteSelectedObject. rewrite Hsel.
  destruct (wf_placed s Hwf sel Hin) as [selected Hsome]. rewrite Hsome.
  destruct (findIndex (sameUniqueId s selected) (placedObjects s))
    as [index |] eqn:Hfind.
  - apply findIndex_Some in Hfind as (obj & Hl & Hp).
    apply (sameUniqueId_spec s sel) in Hp as ->; eauto.
  - apply (findIndex_None _ _ sel) in Hfind; [| exact Hin].
    assert (sameUniqueId s selected sel = true) as Ht
      by (by apply (sameUniqueId_spec s sel)).
    congruence.
Qed.

(** With a selection that is not in the collection, nothing happens. *)
Lemma deleteSelectedObject_foreign s sel :
  wf s -> selectedObject s = Some sel -> sel ∉ placedObjects s ->
  deleteSelectedObject s = s.
Proof.
  intros Hwf Hsel Hin. unfold deleteSelectedObject. rewrite Hsel.
  destruct (heap s !! sel) as [selected |] eqn:Hsome; [| reflexivity].
  destruct (findIndex (sameUniqueId s selected) (placedObjects s))
    as [index |] eqn:Hfind; [| reflexivity].
  apply findIndex_Some in Hfind as (obj & Hl & Hp).
  apply (sameUniqueId_spec s sel) in Hp as ->; [| done | done].
  exfalso. apply Hin, list_elem_of_lookup. eauto.
Qed.

Lemma deleteSelectedObject_none s :
  selectedObject s = None -> deleteSelectedObject s = s.
Proof. intros H. unfold deleteSelectedObject. by rewrite H. Qed.

Lemma NoDup_delete_notin (l : list nat) i obj :
  NoDup l -> l !! i = Some obj -> obj ∉ delete i l.
Proof.
  intros Hnd Hl. rewrite delete_take_drop.
  rewrite <- (take_drop_middle l i obj Hl) in Hnd.
  apply NoDup_app in Hnd as (_ & Hdisj & Hnd).
  apply NoDup_cons in Hnd as [Hnotin _].
  intros [Hin | Hin]%elem_of_app; [| done].
  apply (Hdisj obj Hin). left.
Qed.

Lemma wf_deleteSelectedObject s : wf s -> wf (deleteSelectedObject s).
Proof.
  intros Hwf. destruct (selectedObject s) as [sel |] eqn:Hsel.
  - destruct (decide (sel ∈ placedObjects s)) as [Hin | Hin].
    + destruct (deleteSelectedObject_member s sel Hwf Hsel Hin)
        as (index & Hl & ->).
      apply wf_notify. destruct Hwf as [H1 H2 H3 H4 H5 H6].
      split; simpl; eauto.
      * intros obj Hd. apply H3. by apply list_elem_of_delete_inv in Hd.
      * eapply sublist_NoDup; [exact H4 | apply sublist_delete].
      * discriminate.
      * intros obj Hd Hf. exfalso.
        assert (obj = sel) as ->.
        { apply list_elem_of_delete_inv in Hd.
          specialize (H6 obj Hd Hf). congruence. }
        by apply (NoDup_delete_notin (placedObjects s) index sel).
    + by rewrite (deleteSelectedObject_foreign s sel).
  - by rewrite deleteSelectedObject_none.
Qed.

(** *** Every reachable state is well formed *)

Lemma wf_setOnChangeCallback s : wf s -> wf (setOnChangeCallback s).
Proof. intros [H1 H2 H3 H4 H5 H6]. split; simpl; eauto. Qed.

Lemma wf_step s op : wf s -> callable s op -> wf (step s op).
Proof.
  intros Hwf Hop. destruct op; simpl.
  - by apply wf_addObject.
  - by apply wf_selectObject.
  - by apply wf_selectObjectAt.
  - by apply wf_moveSelectedObject.
  - by apply wf_rotateSelectedObject.
  - by apply wf_deleteSelectedObject.
  - by apply wf_updateObjectScales.
  - by apply wf_setOnChangeCallback.
  - by apply wf_loadObjectsIntoManager.
Qed.

Lemma reachable_wf room s : reachable room s -> wf s.
Proof.
  induction 1 as [| s op _ IH Hop]; [apply wf_init | by apply wf_step].
Qed.

End MoreOperations.

(** ** Notifications *)

Section Notifications.

Implicit Types (s : State) (obj sel : nat).

Lemma addObject_notifications d x y s :
  onChangeCallback s = true -> invalidDefinition (Some d) = false ->
  notifications (snd (addObject (Some d) x y s)) = 2 + notifications s.
Proof.
  intros Hcb Hd. rewrite addObject_valid by exact Hd. simpl.
  rewrite notify_notifications, selectObject_notifications; try done.
  by rewrite selectObject_onChangeCallback.
Qed.

Lemma selectObjectAt_notifications px py s :
  onChangeCallback s = true ->
  notifications (snd (selectObjectAt px py s)) = 1 + notifications s.
Proof. intros Hcb. simpl. by apply selectObject_notifications. Qed.

Lemma moveSelectedObject_notifications newX newY s sel :
  wf s -> onChangeCallback s = true -> selectedObject s = Some sel ->
  notifications (moveSelectedObject newX newY s) = 1 + notifications s.
Proof.
  intros Hwf Hcb Hsel.
  destruct (heap s !! sel) as [o |] eqn:Ho.
  - rewrite (moveSelectedObject_eq _ _ s sel o Hsel Ho).
    by rewrite notify_notifications.
  - pose proof (wf_selected s Hwf sel Hsel) as Hf.
    unfold flag in Hf. by rewrite Ho in Hf.
Qed.

Lemma rotateSelectedObject_notifications s sel :
  onChangeCallback s = true -> selectedObject s = Some sel ->
  notifications (rotateSelectedObject s) = 1 + notifications s.
Proof.
  intros Hcb Hsel. unfold rotateSelectedObject. rewrite Hsel.
  by rewrite notify_notifications.
Qed.

Lemma deleteSelectedObject_notifications s sel :
  wf s -> onChangeCallback s = true -> selectedObject s = Some sel ->
  sel ∈ placedObjects s ->
  notifications (deleteSelectedObject s) = 1 + notifications s.
Proof.
  intros Hwf Hcb Hsel Hin.
  destruct (deleteSelectedObject_member s sel Hwf Hsel Hin) as (i & _ & ->).
  by rewrite notify_notifications.
Qed.

Lemma updateObjectScales_notifications k s :
  onChangeCallback s = true ->
  notifications (updateObjectScales k s) = 1 + notifications s.
Proof. intros Hcb. unfold updateObjectScales. by rewrite notify_notifications. Qed.

Lemma block_valid (w l : R) :
  (0 < w)%R -> (0 < l)%R -> invalidDefinition (Some (block (Fin w) (Fin l))) = false.
Proof.
  intros Hw Hl. unfold invalidDefinition, block, Js.gt. simpl.
  by rewrite !Rltb_true.
Qed.

(** C1, as stated, fails: with a callback registered, one [addObject] call
    with a valid definition invokes the callback twice, once from
    [selectObject] and once from [addObject] itself. *)
Lemma addObject_notifies_twice :
  let s0 := setOnChangeCallback (init room_5x4) in
  let d := block (Fin 2) (Fin 1) in
  reachable room_5x4 s0
  /\ onChangeCallback s0 = true
  /\ invalidDefinition (Some d) = false
  /\ notifications s0 = 0
  /\ notifications (snd (addObject (Some d) (Fin 437.5) (Fin 350) s0)) = 2.
Proof.
  cbv zeta. split; [| split; [| split; [| split]]].
  - apply (reachable_step _ _ _ SetOnChangeCallback); [constructor | exact I].
  - reflexivity.
  - apply block_valid; lra.
  - reflexivity.
  - rewrite addObject_notifications; [reflexivity | reflexivity |].
    apply block_valid; lra.
Qed.

(** C1, amended.  In a reachable state with a callback registered, a single
    call invokes the callback: twice for [addObject] with a valid definition;
    once for [selectObjectAt], [selectObject] and [updateObjectScales]; once
    for [moveSelectedObject] and [rotateSelectedObject] when something is
    selected; and for [deleteSelectedObject] once when the selected entity is
    in the collection and not at all when it is not. *)
Theorem notification_counts room s :
  reachable room s -> onChangeCallback s = true ->
  (forall d x y, invalidDefinition (Some d) = false ->
     notifications (snd (addObject (Some d) x y s)) = 2 + notifications s)
  /\ (forall px py,
        notifications (snd (selectObjectAt px py s)) = 1 + notifications s)
  /\ (forall o, notifications (selectObject o s) = 1 + notifications s)
  /\ (forall k, notifications (updateObjectScales k s) = 1 + notifications s)
  /\ (forall sel, selectedObject s = Some sel ->
        (forall newX newY,
           notifications (moveSelectedObject newX newY s) = 1 + notifications s)
        /\ notifications (rotateSelectedObject s) = 1 + notifications s
        /\ (sel ∈ placedObjects s ->
            notifications (deleteSelectedObject s) = 1 + notifications s)
        /\ (sel ∉ placedObjects s ->
            notifications (deleteSelectedObject s) = notifications s)).
Proof.
  intros Hwf%reachable_wf Hcb. repeat split.
  - intros. by apply addObject_notifications.
  - intros. by apply selectObjectAt_notifications.
  - intros. by apply selectObject_notifications.
  - intros. by apply updateObjectScales_notifications.
  - intros. by eapply moveSelectedObject_notifications.
  - by eapply rotateSelectedObject_notifications.
  - intros. by eapply deleteSelectedObject_notifications.
  - intros Hin. by rewrite (deleteSelectedObject_foreign s sel).
Qed.

Lemma notification_counts_witness :
  notifications (selectObject None (setOnChangeCallback (init room_5x4)))
  = 1 + notifications (setOnChangeCallback (init room_5x4)).
Proof.
  refine (proj1 (proj2 (proj2
    (notification_counts room_5x4 (setOnChangeCallback (init room_5x4)) _ _)))
    None).
  - apply (reachable_step _ _ _ SetOnChangeCallback); [constructor | exact I].
  - reflexivity.
Defined.

End Notifications.

(** ** Refused definitions *)

Section Refusal.

Lemma not_positive_gt (v : numval) :
  ~ positiveNumber v -> (toNumber v >? Fin 0)%js = false.
Proof.
  intros Hv. destruct (toNumber v >? Fin 0)%js eqn:Hgt; [| reflexivity].
  exfalso. apply Hv. destruct v as [| | n]; simpl in Hgt.
  - discriminate.
  - unfold Js.gt in Hgt. simpl in Hgt. by rewrite Rltb_false in Hgt by lra.
  - exists n. by split.
Qed.

Lemma missing_falsy (v : strval) : missing v -> str_truthy v = false.
Proof. by intros [-> | ->]. Qed.

Lemma refused_invalid d : refused d -> invalidDefinition d = true.
Proof.
  destruct d as [d |]; [| reflexivity]. unfold refused, invalidDefinition.
  intros [H | [H | [H | H]]].
  - rewrite (not_positive_gt _ H). by rewrite !orb_true_r.
  - rewrite (not_positive_gt _ H). by rewrite !orb_true_r.
  - by rewrite (missing_falsy _ H).
  - rewrite (missing_falsy _ H). by rewrite !orb_true_r.
Qed.

(** C5. When the definition is absent, or its width or length is not a
    positive number, or its id or name is missing, [addObject] returns no
    entity and leaves the whole state as it was: same collection, same
    selection, same entities, same count of notifications. *)
Theorem addObject_refused d initialX initialY s :
  refused d -> addObject d initialX initialY s = (None, s).
Proof. intros H. by apply addObject_invalid, refused_invalid. Qed.

Lemma addObject_refused_witness :
  addObject (Some (block (Fin 0) (Fin 1))) (Fin 437.5) (Fin 350)
    (setOnChangeCallback (init room_5x4))
  = (None, setOnChangeCallback (init room_5x4)).
Proof.
  apply addObject_refused. left. intros (n & Hn & Hgt).
  injection Hn as <-. unfold Js.gt in Hgt. simpl in Hgt.
  rewrite Rltb_false in Hgt by lra. discriminate.
Defined.

End Refusal.

(** ** Selection *)

Section Selection.

Implicit Types (s : State) (obj sel : nat).

Lemma addObject_placedObjects d x y s :
  invalidDefinition (Some d) = false ->
  placedObjects (snd (addObject (Some d) x y s))
  = placedObjects s ++ [objectCounter s].
Proof.
  intros Hd. rewrite addObject_valid by exact Hd. simpl.
  by rewrite notify_placedObjects, selectObject_placedObjects.
Qed.

Lemma addObject_selectedObject d x y s :
  invalidDefinition (Some d) = false ->
  selectedObject (snd (addObject (Some d) x y s)) = Some (objectCounter s).
Proof.
  intros Hd. rewrite addObject_valid by exact Hd. simpl.
  by rewrite notify_selectedObject, selectObject_selectedObject.
Qed.

Lemma addObject_result d x y s :
  invalidDefinition (Some d) = false ->
  fst (addObject (Some d) x y s) = Some (objectCounter s).
Proof. intros Hd. by rewrite addObject_valid. Qed.

End Selection.

Section SelectionInvariant.

Implicit Types (s : State) (obj sel : nat).

Lemma moveSelectedObject_frame newX newY s :
  placedObjects (moveSelectedObject newX newY s) = placedObjects s
  /\ selectedObject (moveSelectedObject newX newY s) = selectedObject s
  /\ room (moveSelectedObject newX newY s) = room s
  /\ onChangeCallback (moveSelectedObject newX newY s) = onChangeCallback s.
Proof.
  unfold moveSelectedObject.
  destruct (selectedObject s) as [sel |] eqn:Hsel; [| by rewrite Hsel].
  destruct (heap s !! sel); [| by rewrite Hsel]. simpl.
  by rewrite notify_placedObjects, notify_selectedObject, notify_room,
    notify_onChangeCallback.
Qed.

Lemma rotateSelectedObject_frame s :
  placedObjects (rotateSelectedObject s) = placedObjects s
  /\ selectedObject (rotateSelectedObject s) = selectedObject s
  /\ room (rotateSelectedObject s) = room s
  /\ onChangeCallback (rotateSelectedObject s) = onChangeCallback s.
Proof.
  unfold rotateSelectedObject.
  destruct (selectedObject s) as [sel |] eqn:Hsel; [| by rewrite Hsel].
  by rewrite notify_placedObjects, notify_selectedObject, notify_room,
    notify_onChangeCallback.
Qed.

Lemma updateObjectScales_frame k s :
  placedObjects (updateObjectScales k s) = placedObjects s
  /\ selectedObject (updateObjectScales k s) = selectedObject s
  /\ room (updateObjectScales k s) = room s
  /\ onChangeCallback (updateObjectScales k s) = onChangeCallback s.
Proof.
  unfold updateObjectScales.
  by rewrite notify_placedObjects, notify_selectedObject, notify_room,
    notify_onChangeCallback.
Qed.

(** Loading changes neither the selection nor the entities already in the
    collection, whatever the records are. *)
Lemma loadObjectsIntoManager_frame now objectsData s :
  selectedObject (loadObjectsIntoManager now objectsData s) = selectedObject s
  /\ exists restored,
       placedObjects (loadObjectsIntoManager now objectsData s)
       = placedObjects s ++ restored.
Proof.
  apply (forEachObject_preserves
    (fun s' => selectedObject s' = selectedObject s
               /\ exists restored, placedObjects s' = placedObjects s ++ restored)).
  - intros t i objData s' (Hsel & restored & Hp). split; [exact Hsel |].
    exists (restored ++ [objectCounter s']). unfold loadObject.
    cbn [placedObjects set_placedObjects]. by rewrite Hp, app_assoc.
  - split; [reflexivity |]. exists []. by rewrite app_nil_r.
Qed.

Lemma selectsMember_callable s op : wf s -> selectsMember s op -> callable s op.
Proof.
  intros Hwf. destruct op as [| [obj |] | | | | | | |]; simpl; try done.
  apply (wf_placed s Hwf).
Qed.

(** One call keeps the selection inside the collection. *)
Lemma step_selected_member s op :
  wf s ->
  (forall sel, selectedObject s = Some sel -> sel ∈ placedObjects s) ->
  selectsMember s op ->
  forall sel, selectedObject (step s op) = Some sel ->
    sel ∈ placedObjects (step s op).
Proof.
  intros Hwf Hmem Hop sel.
  destruct op as [d x y | o | x y | x y | | | k | | now objectsData]; simpl.
  - destruct (invalidDefinition d) eqn:Hd.
    + rewrite addObject_invalid by exact Hd. apply Hmem.
    + destruct d as [d |]; [| discriminate].
      rewrite addObject_selectedObject, addObject_placedObjects by exact Hd.
      intros [= <-]. apply elem_of_app. right. left.
  - rewrite selectObject_selectedObject, selectObject_placedObjects.
    intros ->. exact Hop.
  - rewrite selectObject_selectedObject, selectObject_placedObjects.
    apply findObjectAt_member.
  - destruct (moveSelectedObject_frame x y s) as (-> & -> & _). apply Hmem.
  - destruct (rotateSelectedObject_frame s) as (-> & -> & _). apply Hmem.
  - destruct (selectedObject s) as [old |] eqn:Hsel.
    + destruct (deleteSelectedObject_member s old Hwf Hsel (Hmem _ eq_refl))
        as (i & _ & ->).
      by rewrite notify_selectedObject.
    + rewrite deleteSelectedObject_none by exact Hsel. by rewrite Hsel.
  - destruct (updateObjectScales_frame k s) as (-> & -> & _). apply Hmem.
  - apply Hmem.
  - destruct (loadObjectsIntoManager_frame now objectsData s)
      as (-> & restored & ->).
    intros Hsel. apply elem_of_app. left. by apply Hmem.
Qed.

Lemma reachable_members room s :
  reachable_by selectsMember room s ->
  reachable room s
  /\ forall sel, selectedObject s = Some sel -> sel ∈ placedObjects s.
Proof.
  induction 1 as [| s op _ [IHr IHm] Hop].
  - split; [constructor | discriminate].
  - pose proof (reachable_wf _ _ IHr) as Hwf. split.
    + apply reachable_step; [exact IHr | by apply selectsMember_callable].
    + by apply step_selected_member.
Qed.

Lemma wf_member_invariant s :
  wf s ->
  (forall sel, selectedObject s = Some sel -> sel ∈ placedObjects s) ->
  selection_invariant s.
Proof.
  intros Hwf Hmem. split.
  - intros sel Hsel. split; [by apply Hmem | by apply (wf_selected s Hwf)].
  - apply (wf_flag s Hwf).
Qed.

(** The state after one object was added to the empty 5 by 4 room. *)
Lemma one_object_state :
  let s1 := step (init room_5x4)
              (AddObject (Some (block (Fin 2) (Fin 1))) (Fin 437.5) (Fin 350)) in
  reachable_by selectsMember room_5x4 s1
  /\ placedObjects s1 = [0]
  /\ selectedObject s1 = Some 0.
Proof.
  cbv zeta. split; [| split].
  - apply reachable_step; [constructor | exact I].
  - cbn [step]. rewrite addObject_placedObjects by (apply block_valid; lra).
    reflexivity.
  - cbn [step]. rewrite addObject_selectedObject by (apply block_valid; lra).
    reflexivity.
Qed.

(** C4, as stated, fails: add an object, delete it, then hand the deleted
    entity to [selectObject].  The selection is then an entity that is not
    in the (empty) collection. *)
Lemma selection_invariant_broken :
  let s :=
    run [AddObject (Some (block (Fin 2) (Fin 1))) (Fin 437.5) (Fin 350);
         DeleteSelectedObject;
         SelectObject (Some 0)]
      (init room_5x4) in
  reachable room_5x4 s
  /\ selectedObject s = Some 0
  /\ placedObjects s = []
  /\ ~ selection_invariant s.
Proof.
  cbv zeta.
  destruct one_object_state as (Hr1 & Hp1 & Hs1). cbv zeta in Hr1, Hp1, Hs1.
  change (run _ _) with
    (step (step (step (init room_5x4)
       (AddObject (Some (block (Fin 2) (Fin 1))) (Fin 437.5) (Fin 350)))
       DeleteSelectedObject) (SelectObject (Some 0))).
  set (s1 := step (init room_5x4) _) in *.
  apply reachable_members in Hr1 as [Hr1 _].
  pose proof (reachable_wf _ _ Hr1) as Hwf1.
  assert (Hin : 0 ∈ placedObjects s1) by (rewrite Hp1; left).
  destruct (deleteSelectedObject_member s1 0 Hwf1 Hs1 Hin) as (i & Hi & Hdel).
  assert (i = 0) as ->.
  { rewrite Hp1 in Hi. by destruct i. }
  assert (Hp2 : placedObjects (step s1 DeleteSelectedObject) = []).
  { cbn [step]. rewrite Hdel, notify_placedObjects.
    cbn [placedObjects set_selectedObject set_placedObjects].
    by rewrite Hp1. }
  assert (Hh2 : heap (step s1 DeleteSelectedObject) = heap s1).
  { cbn [step]. rewrite Hdel, notify_heap. reflexivity. }
  set (s2 := step s1 DeleteSelectedObject) in *.
  assert (Hp3 : placedObjects (step s2 (SelectObject (Some 0))) = []).
  { cbn [step]. rewrite selectObject_placedObjects. exact Hp2. }
  split; [| split; [| split]].
  - apply reachable_step.
    + apply reachable_step; [exact Hr1 | exact I].
    + cbn [callable]. rewrite Hh2. by apply (wf_placed s1 Hwf1).
  - cbn [step]. apply selectObject_selectedObject.
  - exact Hp3.
  - intros [Hsel _]. destruct (Hsel 0) as [Hmem _].
    + cbn [step]. apply selectObject_selectedObject.
    + rewrite Hp3 in Hmem. by apply elem_of_nil in Hmem.
Qed.

(** C4, amended.  After every sequence of manager calls (and of loads of
    saved records) starting from an empty manager, in which [selectObject]
    is only ever given no entity or an entity that is in the collection at
    the time of the call, the selection invariant holds: the selected entity, if any, is in the
    collection and has its flag set, and no other entity of the collection
    has its flag set. *)
Theorem selection_invariant_members room s :
  reachable_by selectsMember room s -> selection_invariant s.
Proof.
  intros [Hr Hmem]%reachable_members.
  apply wf_member_invariant; [by eapply reachable_wf | exact Hmem].
Qed.

Lemma selection_invariant_members_witness :
  selection_invariant
    (step (init room_5x4)
       (AddObject (Some (block (Fin 2) (Fin 1))) (Fin 437.5) (Fin 350))).
Proof.
  apply (selection_invariant_members room_5x4).
  apply reachable_step; [constructor | exact I].
Defined.

End SelectionInvariant.

Section Deletion.

Implicit Types (s : State) (obj sel : nat).

(** Entities are only ever created at the current counter value. *)
Lemma counter_step s op :
  (forall obj, is_Some (heap s !! obj) -> obj < objectCounter s) ->
  forall obj, is_Some (heap (step s op) !! obj) -> obj < objectCounter (step s op).
Proof.
  intros Hc.
  destruct op as [d x y | o | x y | x y | | | k | | now objectsData];
    cbn [step].
  - destruct (invalidDefinition d) eqn:Hd.
    + by rewrite addObject_invalid.
    + destruct d as [d |]; [| discriminate].
      rewrite addObject_valid by exact Hd. cbn [snd]. intros obj.
      rewrite notify_heap, notify_objectCounter, selectObject_is_Some,
        selectObject_objectCounter.
      cbn [heap objectCounter set_heap set_placedObjects set_objectCounter].
      rewrite lookup_insert. case_decide; [lia |].
      intros Hs. apply Hc in Hs. lia.
  - intros obj. rewrite selectObject_is_Some, selectObject_objectCounter. apply Hc.
  - intros obj. cbn [snd selectObjectAt].
    rewrite selectObject_is_Some, selectObject_objectCounter. apply Hc.
  - destruct (selectedObject s) as [sel |] eqn:Hsel;
      [| by rewrite moveSelectedObject_none].
    destruct (heap s !! sel) as [o |] eqn:Ho.
    + rewrite (moveSelectedObject_eq _ _ s sel o Hsel Ho). intros obj.
      rewrite notify_heap, notify_objectCounter. cbn [heap objectCounter set_heap].
      rewrite lookup_insert. case_decide; [| apply Hc].
      subst obj. intros _. apply Hc. by rewrite Ho.
    + unfold moveSelectedObject. rewrite Hsel, Ho. exact Hc.
  - unfold rotateSelectedObject.
    destruct (selectedObject s) as [sel |]; [| exact Hc].
    intros obj. rewrite notify_heap, notify_objectCounter.
    cbn [heap objectCounter set_heap]. rewrite lookup_alter.
    case_decide; [| apply Hc]. subst obj. rewrite fmap_is_Some. apply Hc.
  - unfold deleteSelectedObject.
    destruct (selectedObject s) as [sel |]; [| exact Hc].
    destruct (heap s !! sel) as [o |]; [| exact Hc].
    destruct (findIndex _ _); [| exact Hc].
    intros obj. rewrite notify_heap, notify_objectCounter. apply Hc.
  - intros obj. rewrite updateObjectScales_lookup, fmap_is_Some.
    unfold updateObjectScales. rewrite notify_objectCounter. apply Hc.
  - exact Hc.
  - apply (forEachObject_preserves
      (fun s' => forall obj, is_Some (heap s' !! obj) -> obj < objectCounter s'));
      [| exact Hc].
    intros t i objData s' Hc' obj. unfold loadObject.
    cbn [heap objectCounter set_heap set_placedObjects set_objectCounter].
    rewrite lookup_insert. case_decide; [lia |].
    intros Hs. apply Hc' in Hs. lia.
Qed.

(** An entity that is out of the collection, not selected and flagged stays
    so through every step that does not hand it to [selectObject]. *)
Lemma step_keeps_removed sel s op :
  (forall obj, is_Some (heap s !! obj) -> obj < objectCounter s) ->
  sel ∉ placedObjects s -> selectedObject s <> Some sel -> flag s sel = true ->
  op <> SelectObject (Some sel) ->
  (sel ∉ placedObjects (step s op))
  /\ selectedObject (step s op) <> Some sel
  /\ flag (step s op) sel = true.
Proof.
  intros Hc Hout Hnot Hflag Hop.
  assert (Hlt : sel < objectCounter s).
  { apply Hc. unfold flag in Hflag. destruct (heap s !! sel); [eauto | discriminate]. }
  destruct op as [d x y | o | x y | x y | | | k | | now objectsData];
    cbn [step].
  - destruct (invalidDefinition d) eqn:Hd.
    + by rewrite addObject_invalid.
    + destruct d as [d |]; [| discriminate].
      rewrite addObject_placedObjects, addObject_selectedObject by exact Hd.
      rewrite addObject_valid by exact Hd. cbn [snd].
      split_and!.
      * rewrite elem_of_app, list_elem_of_singleton. intros [? | ->]; [done | lia].
      * intros [= Heq]. lia.
      * rewrite notify_flag, selectObject_flag.
        rewrite decide_False by (intros [= Heq]; lia).
        rewrite decide_False by done.
        unfold flag in *.
        cbn [heap set_heap set_placedObjects set_objectCounter].
        rewrite lookup_insert_ne by lia. exact Hflag.
  - rewrite selectObject_placedObjects, selectObject_selectedObject,
      selectObject_flag.
    split_and!; [done | congruence |].
    rewrite decide_False by congruence. by rewrite decide_False by done.
  - cbn [snd selectObjectAt].
    rewrite selectObject_placedObjects, selectObject_selectedObject,
      selectObject_flag.
    assert (Hfound : findObjectAt s x y (length (placedObjects s)) <> Some sel).
    { intros Hf. by apply findObjectAt_member in Hf. }
    split_and!; [done | done |].
    rewrite decide_False by done. by rewrite decide_False by done.
  - destruct (moveSelectedObject_frame x y s) as (-> & -> & _).
    split_and!; [done | done |].
    destruct (selectedObject s) as [cur |] eqn:Hsel;
      [| by rewrite moveSelectedObject_none].
    destruct (heap s !! cur) as [o |] eqn:Ho.
    + rewrite (moveSelectedObject_eq _ _ s cur o Hsel Ho), notify_flag.
      unfold flag in *. cbn [heap set_heap].
      rewrite lookup_insert_ne by congruence. exact Hflag.
    + unfold moveSelectedObject. by rewrite Hsel, Ho.
  - destruct (rotateSelectedObject_frame s) as (-> & -> & _).
    split_and!; [done | done |].
    unfold rotateSelectedObject.
    destruct (selectedObject s) as [cur |] eqn:Hsel; [| done].
    rewrite notify_flag. unfold flag in *. cbn [heap set_heap].
    rewrite lookup_alter_ne by congruence. exact Hflag.
  - unfold deleteSelectedObject.
    destruct (selectedObject s) as [cur |] eqn:Hsel; [| by rewrite Hsel].
    destruct (heap s !! cur) as [o |]; [| by rewrite Hsel].
    destruct (findIndex _ _) as [index |]; [| by rewrite Hsel].
    rewrite notify_placedObjects, notify_selectedObject, notify_flag.
    cbn [placedObjects selectedObject set_selectedObject set_placedObjects].
    split_and!; [| done | exact Hflag].
    intros Hin. by apply list_elem_of_delete_inv in Hin.
  - destruct (updateObjectScales_frame k s) as (-> & -> & _).
    split_and!; [done | done |].
    unfold flag in *. rewrite updateObjectScales_lookup.
    destruct (heap s !! sel) as [o |]; [| discriminate]. simpl.
    by case_bool_decide.
  - done.
  - cut (sel < objectCounter (loadObjectsIntoManager now objectsData s)
         /\ (sel ∉ placedObjects (loadObjectsIntoManager now objectsData s))
         /\ selectedObject (loadObjectsIntoManager now objectsData s) <> Some sel
         /\ flag (loadObjectsIntoManager now objectsData s) sel = true);
      [tauto |].
    apply (forEachObject_preserves
      (fun s' => sel < objectCounter s'
                 /\ (sel ∉ placedObjects s')
                 /\ selectedObject s' <> Some sel
                 /\ flag s' sel = true)); [| done].
    intros t i objData s' (Hlt' & Hout' & Hnot' & Hflag'). unfold loadObject.
    cbn [placedObjects selectedObject objectCounter set_heap
         set_placedObjects set_objectCounter].
    split_and!; [lia | | done |].
    + rewrite elem_of_app, list_elem_of_singleton. intros [? | ->]; [done | lia].
    + unfold flag in *.
      cbn [heap set_heap set_placedObjects set_objectCounter].
      by rewrite lookup_insert_ne by lia.
Qed.

Lemma run_keeps_removed sel ops s :
  (forall obj, is_Some (heap s !! obj) -> obj < objectCounter s) ->
  sel ∉ placedObjects s -> selectedObject s <> Some sel -> flag s sel = true ->
  Forall (fun op => op <> SelectObject (Some sel)) ops ->
  (sel ∉ placedObjects (run ops s)) /\ flag (run ops s) sel = true.
Proof.
  revert s. induction ops as [| op ops IH]; intros s Hc Hout Hnot Hflag Hops.
  - done.
  - apply Forall_cons in Hops as [Hop Hops]. unfold run. cbn [foldl].
    destruct (step_keeps_removed sel s op) as (Hout' & Hnot' & Hflag');
      try done.
    apply IH; try done. by apply counter_step.
Qed.

(** C10. When [deleteSelectedObject] removes the selected entity, the
    manager's selection becomes empty and the entity leaves the collection,
    but no entity is touched: the removed entity is still there for who
    holds a reference to it, and its [isSelected] flag is still true.  The
    flag stays true, and the entity stays out of the collection, through
    every later sequence of steps that does not hand the entity to
    [selectObject] again. *)
Theorem deleted_entity_stays_flagged room s sel :
  reachable room s -> selectedObject s = Some sel -> sel ∈ placedObjects s ->
  selectedObject (deleteSelectedObject s) = None
  /\ (sel ∉ placedObjects (deleteSelectedObject s))
  /\ S (length (placedObjects (deleteSelectedObject s)))
     = length (placedObjects s)
  /\ heap (deleteSelectedObject s) = heap s
  /\ (exists o,
        heap (deleteSelectedObject s) !! sel = Some o
        /\ PlacedObject.isSelected o = true)
  /\ (forall ops,
        Forall (fun op => op <> SelectObject (Some sel)) ops ->
        (sel ∉ placedObjects (run ops (deleteSelectedObject s)))
        /\ flag (run ops (deleteSelectedObject s)) sel = true).
Proof.
  intros Hwf%reachable_wf Hsel Hin.
  pose proof (wf_selected s Hwf sel Hsel) as Hf.
  pose proof (wf_deleteSelectedObject s Hwf) as Hwf'.
  destruct (deleteSelectedObject_member s sel Hwf Hsel Hin) as (i & Hi & Hdel).
  assert (Hout : sel ∉ placedObjects (deleteSelectedObject s)).
  { rewrite Hdel, notify_placedObjects.
    apply NoDup_delete_notin; [apply (wf_NoDup s Hwf) | exact Hi]. }
  assert (Hnone : selectedObject (deleteSelectedObject s) = None).
  { by rewrite Hdel, notify_selectedObject. }
  assert (Hheap : heap (deleteSelectedObject s) = heap s).
  { by rewrite Hdel, notify_heap. }
  split_and!; try done.
  - rewrite Hdel, notify_placedObjects.
    cbn [placedObjects set_selectedObject set_placedObjects].
    rewrite length_delete by eauto. apply lookup_lt_Some in Hi. lia.
  - rewrite Hheap. unfold flag in Hf.
    destruct (heap s !! sel) as [o |]; [eauto | discriminate].
  - intros ops Hops. apply run_keeps_removed; try done.
    + apply (wf_counter _ Hwf').
    + by rewrite Hnone.
    + unfold flag. rewrite Hheap. exact Hf.
Qed.

Lemma deleted_entity_stays_flagged_witness :
  let s1 := step (init room_5x4)
              (AddObject (Some (block (Fin 2) (Fin 1))) (Fin 437.5) (Fin 350)) in
  selectedObject (deleteSelectedObject s1) = None
  /\ (0 ∉ placedObjects (deleteSelectedObject s1))
  /\ exists o,
       heap (deleteSelectedObject s1) !! 0 = Some o
       /\ PlacedObject.isSelected o = true.
Proof.
  cbv zeta.
  destruct one_object_state as (Hr1 & Hp1 & Hs1). cbv zeta in Hr1, Hp1, Hs1.
  apply reachable_members in Hr1 as [Hr1 _].
  assert (Hin : 0 ∈ placedObjects
                  (step (init room_5x4)
                     (AddObject (Some (block (Fin 2) (Fin 1)))
                        (Fin 437.5) (Fin 350))))
    by (rewrite Hp1; left).
  destruct (deleted_entity_stays_flagged room_5x4 _ 0 Hr1 Hs1 Hin)
    as (H1 & H2 & _ & _ & H5 & _).
  done.
Defined.

End Deletion.

Section HitTesting.

Implicit Types (s : State) (obj sel : nat).



End HitTesting.

(** ** Movement and the room boundary *)

Section Boundary.

Local Open Scope R_scope.

Implicit Types (s : State) (obj sel : nat).

Lemma half_fin p : (Fin p / Fin 2)%js = Fin (p / 2).
Proof. simpl. by rewrite Reqb_false by lra. Qed.

Lemma le_fin a b : (Fin a <=? Fin b)%js = true <-> a <= b.
Proof.
  simpl. unfold Js.Rltb. destruct (Rlt_dec b a); simpl; split; intros; try done; lra.
Qed.

(** A sum of two absolute values that is at most a finite bound is finite
    and not negative. *)
Lemma abs_sum_le (a b : number) (W : R) :
  (Js.abs a + Js.abs b <=? Fin W)%js = true ->
  exists p, (Js.abs a + Js.abs b)%js = Fin p /\ 0 <= p <= W.
Proof.
  destruct a as [x | | |], b as [y | | |]; simpl; try discriminate.
  intros Hle. exists (Rabs x + Rabs y). split; [reflexivity |].
  pose proof (Rabs_pos x). pose proof (Rabs_pos y).
  split; [lra |].
  unfold Js.Rltb in Hle. destruct (Rlt_dec W (Rabs x + Rabs y)); [discriminate | lra].
Qed.

(** The clamp of [moveSelectedObject] on one axis. *)
Lemma clamp_between (lo hi : R) (v : number) :
  lo <= hi -> Js.isNaN v = false ->
  exists c, Js.max (Fin lo) (Js.min v (Fin hi)) = Fin c /\ lo <= c <= hi.
Proof.
  intros Hle Hv. destruct v as [x | | |]; simpl in *; try discriminate.
  - unfold Js.Rltb. destruct (Rlt_dec hi x); simpl.
    + destruct (Rlt_dec lo hi); eexists; split; try reflexivity; lra.
    + destruct (Rlt_dec lo x); eexists; split; try reflexivity; lra.
  - unfold Js.Rltb. destruct (Rlt_dec lo hi); eexists; split; try reflexivity; lra.
  - exists lo. split; [reflexivity | lra].
Qed.

(** Inside the room on one axis, for a center between the two clamps. *)
Lemma axis_within (c p W : R) :
  p / 2 <= c <= W - p / 2 ->
  (Fin 0 <=? Fin c - Fin p / Fin 2)%js = true
  /\ (Fin c + Fin p / Fin 2 <=? Fin W)%js = true.
Proof.
  intros Hc. rewrite half_fin.
  change (Fin c - Fin (p / 2))%js with (Fin (c + - (p / 2))).
  change (Fin c + Fin (p / 2))%js with (Fin (c + p / 2)).
  split; apply le_fin; lra.
Qed.

(** One move of a selected entity whose projected box fits in the room. *)
Lemma moveSelectedObject_within newX newY s sel o W H :
  selectedObject s = Some sel -> heap s !! sel = Some o ->
  Room.canvasWidth (room s) = Fin W -> Room.canvasHeight (room s) = Fin H ->
  (projectedWidth o <=? Fin W)%js = true ->
  (projectedHeight o <=? Fin H)%js = true ->
  Js.isNaN newX = false -> Js.isNaN newY = false ->
  exists o',
    heap (moveSelectedObject newX newY s) !! sel = Some o'
    /\ boxWithinRoom (room s) o'.
Proof.
  intros Hsel Ho HW HH Hpw Hph Hx Hy.
  rewrite (moveSelectedObject_eq _ _ s sel o Hsel Ho), notify_heap.
  cbn [heap set_heap]. rewrite lookup_insert_eq. eexists. split; [reflexivity |].
  unfold boxWithinRoom.
  change (projectedWidth (PlacedObject.setPosition _ _ o)) with (projectedWidth o).
  change (projectedHeight (PlacedObject.setPosition _ _ o)) with (projectedHeight o).
  cbn [PlacedObject.x PlacedObject.y PlacedObject.setPosition toNumber].
  rewrite HW, HH.
  destruct (abs_sum_le _ _ _ Hpw) as (p & Hp & Hpb).
  destruct (abs_sum_le _ _ _ Hph) as (q & Hq & Hqb).
  fold (projectedWidth o) in Hp. fold (projectedHeight o) in Hq.
  rewrite Hp, Hq, !half_fin.
  change (Fin W - Fin (p / 2))%js with (Fin (W + - (p / 2))).
  change (Fin H - Fin (q / 2))%js with (Fin (H + - (q / 2))).
  destruct (clamp_between (p / 2) (W + - (p / 2)) newX) as (cx & -> & Hcx);
    [lra | exact Hx |].
  destruct (clamp_between (q / 2) (H + - (q / 2)) newY) as (cy & -> & Hcy);
    [lra | exact Hy |].
  rewrite <- !half_fin.
  destruct (axis_within cx p W) as [? ?]; [lra |].
  destruct (axis_within cy q H) as [? ?]; [lra |].
  done.
Qed.

(** A move changes neither what is selected, nor the room, nor the
    projected size of the selected entity. *)
Lemma moveSelectedObject_keeps newX newY s sel o :
  selectedObject s = Some sel -> heap s !! sel = Some o ->
  exists o',
    heap (moveSelectedObject newX newY s) !! sel = Some o'
    /\ projectedWidth o' = projectedWidth o
    /\ projectedHeight o' = projectedHeight o
    /\ selectedObject (moveSelectedObject newX newY s) = Some sel
    /\ room (moveSelectedObject newX newY s) = room s.
Proof.
  intros Hsel Ho.
  destruct (moveSelectedObject_frame newX newY s) as (_ & -> & -> & _).
  rewrite (moveSelectedObject_eq _ _ s sel o Hsel Ho), notify_heap.
  cbn [heap set_heap]. rewrite lookup_insert_eq. eexists.
  split; [reflexivity |]. done.
Qed.

Lemma moves_keeps targets s sel o :
  selectedObject s = Some sel -> heap s !! sel = Some o ->
  exists o',
    heap (moves targets s) !! sel = Some o'
    /\ projectedWidth o' = projectedWidth o
    /\ projectedHeight o' = projectedHeight o
    /\ selectedObject (moves targets s) = Some sel
    /\ room (moves targets s) = room s.
Proof.
  revert s o. induction targets as [| [x y] targets IH]; intros s o Hsel Ho.
  - exists o. done.
  - cbn [moves foldl fst snd].
    destruct (moveSelectedObject_keeps x y s sel o Hsel Ho)
      as (o1 & Ho1 & Hw1 & Hh1 & Hsel1 & Hroom1).
    destruct (IH _ o1 Hsel1 Ho1) as (o' & Ho' & Hw' & Hh' & Hsel' & Hroom').
    exists o'. unfold moves in *. split; [exact Ho' |]. split; [congruence |].
    split; [congruence |]. split; [exact Hsel' | congruence].
Qed.

Lemma moves_snoc targets t s :
  moves (targets ++ [t]) s = moveSelectedObject (fst t) (snd t) (moves targets s).
Proof. unfold moves. by rewrite foldl_snoc. Qed.

End Boundary.

Section BoundaryLaw.

Implicit Types (s : State) (obj sel : nat).

Lemma degreesToRadians_0 : Utils.degreesToRadians (Fin 0) = Fin 0.
Proof.
  unfold Utils.degreesToRadians, Js.PI. simpl. rewrite Reqb_false by lra.
  fin_eq.
Qed.

(** The projected size of an entity that is not rotated is its own size. *)
Lemma projected_unrotated (o : PlacedObject.t) (w h : R) :
  PlacedObject.rotation o = Fin 0 ->
  PlacedObject.widthPixels o = Fin w -> PlacedObject.lengthPixels o = Fin h ->
  (0 <= w)%R -> (0 <= h)%R ->
  projectedWidth o = Fin w /\ projectedHeight o = Fin h.
Proof.
  intros Hr Hw Hh Hw0 Hh0. unfold projectedWidth, projectedHeight.
  rewrite Hr, Hw, Hh, degreesToRadians_0. simpl. rewrite cos_0, sin_0.
  rewrite !Rmult_1_r, !Rmult_0_r, Rabs_R0, !Rabs_right by lra.
  split; fin_eq.
Qed.

Lemma addObject_lookup d x y s :
  invalidDefinition (Some d) = false ->
  heap (snd (addObject (Some d) x y s)) !! objectCounter s
  = Some (PlacedObject.set_isSelected true
            (PlacedObject.new d (Num x) (Num y) (Room.scale (room s))
               (objectCounter s))).
Proof.
  intros Hd. rewrite addObject_valid by exact Hd. cbn [snd].
  rewrite notify_heap, selectObject_heap, selectHeap_lookup.
  cbn [heap set_heap set_placedObjects set_objectCounter].
  rewrite lookup_insert_eq. cbn [fmap option_fmap option_map].
  by rewrite decide_True.
Qed.

Lemma addObject_room d x y s : room (snd (addObject d x y s)) = room s.
Proof.
  destruct (invalidDefinition d) eqn:Hd.
  - by rewrite addObject_invalid.
  - destruct d as [d |]; [| discriminate].
    rewrite addObject_valid by exact Hd. cbn [snd].
    by rewrite notify_room, selectObject_room.
Qed.

(** The state after a [w] by [l] block was added to the empty 5 by 4 room:
    the block is selected, unrotated, [w * 175] by [l * 175] pixels. *)
Lemma block_added (w l : R) :
  (0 < w)%R -> (0 < l)%R ->
  let s1 := step (init room_5x4)
              (AddObject (Some (block (Fin w) (Fin l))) (Fin 437.5) (Fin 350)) in
  reachable room_5x4 s1
  /\ selectedObject s1 = Some 0
  /\ room s1 = room_5x4
  /\ exists o,
       heap s1 !! 0 = Some o
       /\ projectedWidth o = Fin (w * 175)
       /\ projectedHeight o = Fin (l * 175).
Proof.
  intros Hw Hl. cbv zeta. cbn [step].
  pose proof (block_valid w l Hw Hl) as Hd.
  split; [| split; [| split]].
  - apply (reachable_step _ _ _ (AddObject _ _ _)); [constructor | exact I].
  - by rewrite addObject_selectedObject.
  - by rewrite addObject_room.
  - eexists. split; [by apply (addObject_lookup _ _ _ (init room_5x4)) |].
    apply projected_unrotated; try reflexivity; nra.
Qed.




End BoundaryLaw.

Section MoveScenario.

(** The scenario of the specification: a selected, unrotated 2 by 1 block
    (350 by 175 pixels) moved to (-500, 350) in the 875 by 700 room ends at
    (175, 350). *)
Example move_scenario :
  exists o,
    heap
      (moveSelectedObject (Fin (-500)) (Fin 350)
         (step (init room_5x4)
            (AddObject (Some (block (Fin 2) (Fin 1))) (Fin 437.5) (Fin 350))))
      !! 0 = Some o
    /\ PlacedObject.x o = Num (Fin 175)
    /\ PlacedObject.y o = Num (Fin 350).
Proof.
  destruct (block_added 2 1) as (_ & Hsel & Hroom & o & Ho & Hpw & Hph);
    [lra | lra |].
  rewrite (moveSelectedObject_eq _ _ _ 0 o Hsel Ho), notify_heap.
  cbn [heap set_heap]. rewrite lookup_insert_eq. eexists.
  split; [reflexivity |].
  cbn [PlacedObject.x PlacedObject.y PlacedObject.setPosition].
  rewrite Hroom, Hpw, Hph, !half_fin. simpl. rdecide.
  split; f_equal; fin_eq.
Qed.

End MoveScenario.

(** ** Loading saved records *)

Section Loading.

Implicit Types (s : State) (objData : SavedObject).

Lemma str_or_nonempty t dflt : t <> EmptyString -> str_or (Str t) dflt = t.
Proof.
  intros Ht. simpl. destruct (String.eqb_spec t EmptyString); [done | reflexivity].
Qed.

Lemma str_or_empty t : str_or (Str t) EmptyString = t.
Proof. simpl. by destruct (String.eqb_spec t EmptyString). Qed.

Lemma str_or_not_empty v dflt : dflt <> EmptyString -> str_or v dflt <> EmptyString.
Proof.
  intros Hd. destruct v as [| | t]; simpl; try done.
  by destruct (String.eqb_spec t EmptyString).
Qed.

(** A default applied twice is applied once. *)
Lemma str_or_again v dflt dflt' :
  dflt <> EmptyString -> str_or (Str (str_or v dflt)) dflt' = str_or v dflt.
Proof. intros Hd. by apply str_or_nonempty, str_or_not_empty. Qed.

Lemma str_or_empty_again v :
  str_or (Str (str_or v EmptyString)) EmptyString = str_or v EmptyString.
Proof. apply str_or_empty. Qed.

(** The entity created for a record that is not skipped. *)
Lemma loadObject_lookup now index objData s :
  exists o,
    heap (loadObject now index objData s) !! objectCounter s = Some o
    /\ restores (Room.scale (room s)) objData o.
Proof.
  unfold loadObject. cbn [heap set_heap set_placedObjects set_objectCounter].
  rewrite lookup_insert_eq. eexists. split; [reflexivity |].
  unfold restores.
  cbn [PlacedObject.typeId PlacedObject.name PlacedObject.label
       PlacedObject.color PlacedObject.widthUnits PlacedObject.lengthUnits
       PlacedObject.x PlacedObject.y PlacedObject.rotation
       PlacedObject.isSelected PlacedObject.scale
       PlacedObject.set_rotation PlacedObject.new PlacedObject.updateScale
       ObjectDefinition.id ObjectDefinition.name ObjectDefinition.label
       ObjectDefinition.color ObjectDefinition.width ObjectDefinition.length].
  split_and!; try reflexivity.
  - intros t Ht Hne. rewrite Ht, (str_or_nonempty t) by exact Hne.
    by apply str_or_nonempty.
  - by apply str_or_again.
  - apply str_or_empty_again.
  - by apply str_or_again.
Qed.

Lemma loadObject_frame now index objData s :
  placedObjects (loadObject now index objData s)
    = placedObjects s ++ [objectCounter s]
  /\ objectCounter (loadObject now index objData s) = S (objectCounter s)
  /\ room (loadObject now index objData s) = room s
  /\ (forall obj, obj <> objectCounter s ->
        heap (loadObject now index objData s) !! obj = heap s !! obj).
Proof.
  unfold loadObject. split_and!; try reflexivity.
  intros obj Hne. cbn [heap set_heap set_placedObjects set_objectCounter].
  by rewrite lookup_insert_ne.
Qed.

(** The loop over records none of which is null: the records that are not
    skipped are restored one by one, in order, as new entities appended to
    the collection; existing entities are untouched. *)
Lemma forEachObject_spec now (records : list SavedObject) index s :
  exists restored,
    placedObjects (forEachObject now (Some <$> records) index s)
      = placedObjects s ++ restored
    /\ Forall2
         (fun obj objData => exists o,
            heap (forEachObject now (Some <$> records) index s) !! obj = Some o
            /\ restores (Room.scale (room s)) objData o)
         restored (filter (fun objData => skipped objData = false) records)
    /\ (forall obj, obj < objectCounter s ->
          heap (forEachObject now (Some <$> records) index s) !! obj
          = heap s !! obj)
    /\ objectCounter s <= objectCounter (forEachObject now (Some <$> records) index s)
    /\ room (forEachObject now (Some <$> records) index s) = room s.
Proof.
  revert index s. induction records as [| objData records IH]; intros index s.
  - exists []. simpl. rewrite app_nil_r. split_and!; done.
  - rewrite fmap_cons. cbn [forEachObject].
    destruct (skipped objData) eqn:Hskip.
    + rewrite filter_cons_False by (by rewrite Hskip). apply IH.
    + rewrite filter_cons_True by exact Hskip.
      destruct (loadObject_frame (now index) index objData s)
        as (Hp1 & Hc1 & Hr1 & Hh1).
      destruct (loadObject_lookup (now index) index objData s)
        as (o & Ho & Hres).
      destruct (IH (S index) (loadObject (now index) index objData s))
        as (restored & Hp & Hall & Hframe & Hcount & Hroom).
      exists (objectCounter s :: restored).
      rewrite Hc1 in Hframe, Hcount. rewrite Hr1 in Hall, Hroom.
      split_and!.
      * rewrite Hp, Hp1, <- app_assoc. reflexivity.
      * constructor; [| exact Hall].
        exists o. split; [| exact Hres]. rewrite Hframe by lia. exact Ho.
      * intros obj Hlt. rewrite Hframe by lia. apply Hh1. lia.
      * lia.
      * exact Hroom.
Qed.

Lemma filter_iff_Forall {A} (P Q : A -> Prop)
    `{!forall x, Decision (P x), !forall x, Decision (Q x)} (l : list A) :
  Forall (fun x => P x <-> Q x) l -> filter P l = filter Q l.
Proof.
  induction 1 as [| x l Hx _ IH]; [reflexivity |].
  rewrite !filter_cons, IH. repeat case_decide; tauto.
Qed.

(** For a record whose sizes are numbers, the code skips exactly the
    records that are not accepted. *)
Lemma skipped_accepted objData :
  numericSize objData -> skipped objData = false <-> accepted objData.
Proof.
  intros (w & l & Hw & Hl & Hwn & Hln). unfold skipped, accepted, Js.gt.
  rewrite Hw, Hl. cbn [toNumber].
  rewrite !orb_false_iff.
  assert (Hle : forall n, Js.isNaN n = false ->
            (n <=? Fin 0)%js = false <-> (Fin 0 <? n)%js = true).
  { intros n Hn. destruct n as [r | | |]; try discriminate; simpl;
      [destruct (Js.Rltb 0 r); simpl | |]; split; congruence. }
  rewrite (Hle w Hwn), (Hle l Hln). tauto.
Qed.

End Loading.

Section RecordValidation.

Implicit Types (s : State) (objData : SavedObject).

Lemma load_one now objData s :
  skipped objData = false ->
  placedObjects (loadObjectsIntoManager now [Some objData] s)
  = placedObjects s ++ [objectCounter s].
Proof.
  intros Hskip. unfold loadObjectsIntoManager. cbn [forEachObject].
  rewrite Hskip. apply loadObject_frame.
Qed.




End RecordValidation.

(** ** Entities created through the manager *)

Section Managed.

Implicit Types (s : State) (obj sel : nat).

Lemma managed_new d x y scale counter :
  invalidDefinition (Some d) = false ->
  managed (PlacedObject.new d x y scale counter).
Proof.
  unfold invalidDefinition. rewrite !orb_false_iff, !negb_false_iff.
  intros [[[_ _] Hw] Hl]. unfold managed. simpl.
  split_and!; [by apply str_or_not_empty | eauto | exact Hw | exact Hl].
Qed.

Lemma managed_set_isSelected b o :
  managed o -> managed (PlacedObject.set_isSelected b o).
Proof. done. Qed.

Lemma managed_setPosition x y o :
  managed o -> managed (PlacedObject.setPosition x y o).
Proof. done. Qed.

Lemma managed_updateScale k o :
  managed o -> managed (PlacedObject.updateScale k o).
Proof. done. Qed.

Lemma managed_rotate o : managed o -> managed (PlacedObject.rotate o).
Proof.
  intros (Ht & (r & Hr) & Hw & Hl). unfold managed, PlacedObject.rotate.
  cbn [PlacedObject.typeId PlacedObject.rotation PlacedObject.widthUnits
       PlacedObject.lengthUnits PlacedObject.set_rotation].
  split_and!; try done.
  rewrite Hr. unfold Config.ROTATION_INCREMENT. simpl.
  rewrite Reqb_false by lra. eauto.
Qed.

Lemma managed_selectObject o s :
  (forall obj e, heap s !! obj = Some e -> managed e) ->
  forall obj e, heap (selectObject o s) !! obj = Some e -> managed e.
Proof.
  intros Hall obj e. rewrite selectObject_heap, selectHeap_lookup.
  destruct (heap s !! obj) as [e0 |] eqn:He0; simpl; [| discriminate].
  intros [= <-]. specialize (Hall _ _ He0).
  repeat case_decide; by try apply managed_set_isSelected.
Qed.

Lemma managed_step s op :
  managerCall s op ->
  (forall obj e, heap s !! obj = Some e -> managed e) ->
  forall obj e, heap (step s op) !! obj = Some e -> managed e.
Proof.
  intros Hop Hall.
  destruct op as [d x y | o | x y | x y | | | k | | now objectsData];
    cbn [step]; [| | | | | | | | destruct Hop].
  - destruct (invalidDefinition d) eqn:Hd.
    + by rewrite addObject_invalid.
    + destruct d as [d |]; [| discriminate].
      rewrite addObject_valid by exact Hd. cbn [snd].
      intros obj e. rewrite notify_heap. apply managed_selectObject.
      intros obj' e'. cbn [heap set_heap set_placedObjects set_objectCounter].
      rewrite lookup_insert. case_decide; [| by apply Hall].
      intros [= <-]. by apply managed_new.
  - by apply managed_selectObject.
  - by apply managed_selectObject.
  - destruct (selectedObject s) as [sel |] eqn:Hsel;
      [| by rewrite moveSelectedObject_none].
    destruct (heap s !! sel) as [o |] eqn:Ho.
    + rewrite (moveSelectedObject_eq _ _ s sel o Hsel Ho).
      intros obj e. rewrite notify_heap. cbn [heap set_heap].
      rewrite lookup_insert. case_decide; [| by apply Hall].
      intros [= <-]. apply managed_setPosition. by eapply Hall.
    + unfold moveSelectedObject. rewrite Hsel, Ho. exact Hall.
  - unfold rotateSelectedObject.
    destruct (selectedObject s) as [sel |]; [| exact Hall].
    intros obj e. rewrite notify_heap. cbn [heap set_heap].
    rewrite lookup_alter. case_decide; [| by apply Hall]. subst obj.
    destruct (heap s !! sel) as [o |] eqn:Ho; simpl; [| discriminate].
    intros [= <-]. apply managed_rotate. by eapply Hall.
  - unfold deleteSelectedObject.
    destruct (selectedObject s) as [sel |]; [| exact Hall].
    destruct (heap s !! sel) as [o |]; [| exact Hall].
    destruct (findIndex _ _); [| exact Hall].
    intros obj e. rewrite notify_heap. apply Hall.
  - intros obj e. rewrite updateObjectScales_lookup.
    destruct (heap s !! obj) as [o |] eqn:Ho; simpl; [| discriminate].
    intros [= <-]. case_bool_decide; [apply managed_updateScale |]; by eapply Hall.
  - exact Hall.
Qed.

Lemma reachable_managed currentRoom s :
  reachable_by managerCall currentRoom s ->
  forall obj e, heap s !! obj = Some e -> managed e.
Proof.
  induction 1 as [| s op _ IH Hop].
  - intros obj e. unfold init, new. simpl. by rewrite lookup_empty.
  - by apply managed_step.
Qed.

Lemma managerCall_callable s op : managerCall s op -> callable s op.
Proof. by destruct op. Qed.

Lemma reachable_by_managerCall currentRoom s :
  reachable_by managerCall currentRoom s -> reachable currentRoom s.
Proof.
  induction 1 as [| s op _ IH Hop]; [constructor |].
  apply reachable_step; [exact IH | by apply managerCall_callable].
Qed.

End Managed.

(** ** Saving and loading a layout *)

Section RoundTrip.

Implicit Types (s : State) (obj sel : nat).

Lemma Room_new_inr w l currentRoom :
  Room.new w l = inr currentRoom ->
  (w <=? Fin 0)%js = false /\ (l <=? Fin 0)%js = false
  /\ Room.width currentRoom = w /\ Room.length currentRoom = l.
Proof.
  unfold Room.new.
  destruct (w <=? Fin 0)%js, (l <=? Fin 0)%js; simpl; try discriminate.
  by intros [= <-].
Qed.

Lemma Room_new_5x4 : Room.new (Fin 5) (Fin 4) = inr room_5x4.
Proof.
  unfold Room.new, Room.calculateScale, Config.CANVAS_MAX_WIDTH,
    Config.CANVAS_MAX_HEIGHT, room_5x4.
  simpl. rdecide. simpl. rdecide. do 2 f_equal; fin_eq.
Qed.

(** The records written by [saveLayout], one per entity of the collection. *)
Lemma saved_records s :
  wf s ->
  Forall2 (fun obj objData => exists o,
             heap s !! obj = Some o /\ objData = saveObject o)
    (placedObjects s)
    (omap (fun obj => saveObject <$> heap s !! obj) (getAllObjects s)).
Proof.
  intros Hwf. unfold getAllObjects.
  pose proof (wf_placed s Hwf) as Hall.
  induction (placedObjects s) as [| obj l IH]; [constructor |].
  destruct (Hall obj) as [o Ho]; [left |].
  cbn [omap list_omap]. rewrite Ho. cbn [fmap option_fmap option_map].
  constructor; [eauto |]. apply IH. intros obj' Hin. apply Hall. by right.
Qed.

(** Saving, then starting the application afresh: the room is rebuilt from
    the saved dimensions and the saved records are loaded into a new
    manager. *)
Lemma initializeApplication_saved now currentRoom w l s storage :
  Room.new (Fin w) (Fin l) = inr currentRoom ->
  fst (initializeApplication now (snd (saveLayout currentRoom s (Some storage))))
  = Some (_notifyChange
            (loadObjectsIntoManager now
               (Some <$> omap (fun obj => saveObject <$> heap s !! obj)
                           (getAllObjects s))
               (setOnChangeCallback (ObjectManager.new currentRoom ∅ 0)))).
Proof.
  intros Hroom.
  destruct (Room_new_inr _ _ _ Hroom) as (Hw & Hl & Hrw & Hrl).
  unfold saveLayout. cbn [snd]. unfold initializeApplication, loadLayout.
  cbn [room_width room_length objects]. rewrite Hrw, Hrl.
  cbn [jsonNumber typeof_number negb orb toNumber].
  unfold handleSetRoomSize.
  cbn [room_width room_length objects toNumber Js.isNaN orb].
  rewrite Hw, Hl, Hroom.
  reflexivity.
Qed.

Lemma not_skipped_saved o :
  managed o -> finiteObject o -> skipped (saveObject o) = false.
Proof.
  intros (_ & _ & Hw & Hl) ((w & Hfw) & (l & Hfl) & (x & Hfx) & (y & Hfy)).
  unfold skipped, saveObject.
  cbn [widthUnits lengthUnits Persistence.x Persistence.y].
  rewrite Hfw, Hfl, Hfx, Hfy in *. unfold Js.gt in *. simpl in *.
  by rewrite Hw, Hl.
Qed.

Lemma restores_saved scale o o' :
  managed o -> finiteObject o -> restores scale (saveObject o) o' ->
  sameLayoutObject o o'.
Proof.
  intros (Ht & (r & Hr) & _ & _) ((w & Hfw) & (l & Hfl) & (x & Hfx) & (y & Hfy)).
  unfold restores, saveObject, sameLayoutObject.
  cbn [typeId name label color widthUnits lengthUnits Persistence.x
       Persistence.y rotation].
  intros (Htype & _ & Hlabel & _ & Hwidth & Hlength & Hx & Hy & Hrot & _).
  rewrite Hfw, Hfl, Hfx, Hfy, Hr in *. cbn [jsonNumval jsonNumber toNumber] in *.
  split_and!; try done.
  - by apply Htype.
  - by rewrite Hlabel, str_or_empty.
  - rewrite Hrot. simpl. unfold Js.Reqb.
    destruct (Req_dec_T r 0) as [-> |]; reflexivity.
Qed.

Lemma Forall2_through {A B C} (P : A -> C -> Prop) (Q : B -> C -> Prop)
    (R : A -> B -> Prop) (l : list A) (m : list B) (k : list C) :
  (forall a b c, P a c -> Q b c -> R a b) ->
  Forall2 P l k -> Forall2 Q m k -> Forall2 R l m.
Proof.
  intros HR Hl. revert m. induction Hl as [| a c l k Hac _ IH]; intros m Hm.
  - inversion Hm. constructor.
  - inversion Hm as [| b c' m' k' Hbc Hm']. subst.
    constructor; [by eapply HR | by apply IH].
Qed.

Lemma filter_all {A} (P : A -> Prop) `{!forall x, Decision (P x)} (l : list A) :
  Forall P l -> filter P l = l.
Proof.
  induction 1 as [| x l Hx _ IH]; [reflexivity |].
  by rewrite filter_cons_True, IH.
Qed.

End RoundTrip.

Section RoundTripLaw.

Implicit Types (s : State) (obj sel : nat).

Lemma saved_records_of s (l : list nat) (P : PlacedObject.t -> Prop) :
  (forall obj, obj ∈ l -> exists o, heap s !! obj = Some o /\ P o) ->
  Forall2 (fun obj objData => exists o,
             heap s !! obj = Some o /\ objData = saveObject o /\ P o)
    l (omap (fun obj => saveObject <$> heap s !! obj) l).
Proof.
  induction l as [| obj l IH]; intros Hall; [constructor |].
  destruct (Hall obj) as (o & Ho & HP); [left |].
  cbn [omap list_omap]. rewrite Ho. cbn [fmap option_fmap option_map].
  constructor; [eauto |]. apply IH. intros obj' Hin. apply Hall. by right.
Qed.

Lemma Forall2_Forall_right {A B} (R : A -> B -> Prop) (Q : B -> Prop)
    (l : list A) (k : list B) :
  (forall a b, R a b -> Q b) -> Forall2 R l k -> Forall Q k.
Proof. intros HQ. induction 1; constructor; eauto. Qed.

(** C8, amended.  For every layout of N objects produced by calls of the
    manager's methods in a room built from finite dimensions, in which the widthUnits,
    lengthUnits, x and y of every object are finite numbers, saving it and
    then starting the application afresh from the storage rebuilds the same
    room and restores a collection of N objects whose typeId, label,
    widthUnits, lengthUnits, rotation and center x, y equal, position by
    position, those of the saved objects. *)
Theorem save_load_round_trip now currentRoom w l s storage :
  reachable_by managerCall currentRoom s ->
  Room.new (Fin w) (Fin l) = inr currentRoom ->
  (forall obj o, obj ∈ placedObjects s -> heap s !! obj = Some o ->
     finiteObject o) ->
  exists s',
    fst (initializeApplication now
           (snd (saveLayout currentRoom s (Some storage)))) = Some s'
    /\ room s' = currentRoom
    /\ Forall2
         (fun obj obj' => exists o o',
            heap s !! obj = Some o /\ heap s' !! obj' = Some o'
            /\ sameLayoutObject o o')
         (placedObjects s) (placedObjects s').
Proof.
  intros Hreach Hroom Hfin.
  pose proof (reachable_wf _ _ (reachable_by_managerCall _ _ Hreach)) as Hwf.
  pose proof (reachable_managed _ _ Hreach) as Hman.
  rewrite (initializeApplication_saved now currentRoom w l s storage Hroom).
  eexists. split; [reflexivity |].
  rewrite notify_room, notify_placedObjects. unfold loadObjectsIntoManager.
  unfold getAllObjects.
  assert (Hsaved :
    Forall2 (fun obj objData => exists o,
               heap s !! obj = Some o /\ objData = saveObject o
               /\ (managed o /\ finiteObject o))
      (placedObjects s)
      (omap (fun obj => saveObject <$> heap s !! obj) (placedObjects s))).
  { apply saved_records_of. intros obj Hin.
    destruct (wf_placed s Hwf obj Hin) as [o Ho]. eauto 10. }
  set (records := omap _ (placedObjects s)) in *.
  destruct (forEachObject_spec now records 0
              (setOnChangeCallback (ObjectManager.new currentRoom ∅ 0)))
    as (restored & Hp & Hall & _ & _ & Hroom').
  split; [exact Hroom' |].
  rewrite Hp. cbn [placedObjects setOnChangeCallback set_onChangeCallback
                   ObjectManager.new app].
  rewrite filter_all in Hall.
  - eapply Forall2_through; [| exact Hsaved | exact Hall].
    intros obj obj' objData (o & Ho & -> & Hm & Hf) (o' & Ho' & Hres).
    exists o, o'. rewrite notify_heap.
    split; [exact Ho |]. split; [exact Ho' |]. by eapply restores_saved.
  - eapply Forall2_Forall_right; [| exact Hsaved].
    intros obj objData (o & _ & -> & Hm & Hf). by apply not_skipped_saved.
Qed.

End RoundTripLaw.

Section RoundTripExamples.

Implicit Types (s : State) (obj sel : nat).

(** The state after one valid definition was added to the empty 5 by 4
    room, and the entity it holds. *)
Lemma one_added d x y :
  invalidDefinition (Some d) = false ->
  let s1 := step (init room_5x4) (AddObject (Some d) x y) in
  reachable room_5x4 s1
  /\ placedObjects s1 = [0]
  /\ heap s1 !! 0
     = Some (PlacedObject.set_isSelected true
               (PlacedObject.new d (Num x) (Num y) (Fin 175) 0)).
Proof.
  intros Hd. cbv zeta. cbn [step]. split_and!.
  - apply (reachable_step _ _ _ (AddObject _ _ _)); [constructor | exact I].
  - by rewrite addObject_placedObjects.
  - by apply (addObject_lookup d x y (init room_5x4)).
Qed.

(** The records saved for a collection of one entity. *)
Lemma saved_one s o :
  placedObjects s = [0] -> heap s !! 0 = Some o ->
  omap (fun obj => saveObject <$> heap s !! obj) (getAllObjects s)
  = [saveObject o].
Proof.
  intros Hp Ho. unfold getAllObjects. rewrite Hp.
  cbn [omap list_omap]. by rewrite Ho.
Qed.

Lemma load_one_skipped now objData s :
  skipped objData = true ->
  loadObjectsIntoManager now [Some objData] s = s.
Proof.
  intros Hskip. unfold loadObjectsIntoManager. cbn [forEachObject].
  by rewrite Hskip.
Qed.

(** C8, as stated, fails in two ways.  An object of infinite width is
    accepted by [addObject], its width is saved as null, and the record is
    skipped when loading: one object saved, none restored.  An object
    placed at an infinite x is restored with a null x. *)
Lemma infinite_numbers_not_restored :
  let now := fun _ : nat => 0 in
  let s1 := step (init room_5x4)
              (AddObject (Some (block PInf (Fin 1))) (Fin 437.5) (Fin 350)) in
  let s2 := step (init room_5x4)
              (AddObject (Some (block (Fin 2) (Fin 1))) PInf (Fin 350)) in
  (reachable room_5x4 s1
   /\ placedObjects s1 = [0]
   /\ exists s',
        fst (initializeApplication now
               (snd (saveLayout room_5x4 s1 (Some None)))) = Some s'
        /\ placedObjects s' = [])
  /\ (reachable room_5x4 s2
      /\ placedObjects s2 = [0]
      /\ exists o s' o',
           heap s2 !! 0 = Some o
           /\ PlacedObject.x o = Num PInf
           /\ fst (initializeApplication now
                     (snd (saveLayout room_5x4 s2 (Some None)))) = Some s'
           /\ placedObjects s' = [0]
           /\ heap s' !! 0 = Some o'
           /\ PlacedObject.x o' = NumNull).
Proof.
  cbv zeta. split.
  - assert (Hd : invalidDefinition (Some (block PInf (Fin 1))) = false).
    { unfold invalidDefinition, block, Js.gt. simpl. by rdecide. }
    destruct (one_added _ (Fin 437.5) (Fin 350) Hd) as (Hr & Hp & Ho).
    cbv zeta in Hr, Hp, Ho.
    split; [exact Hr |]. split; [exact Hp |].
    rewrite (initializeApplication_saved _ room_5x4 5 4 _ None Room_new_5x4).
    eexists. split; [reflexivity |].
    rewrite (saved_one _ _ Hp Ho), notify_placedObjects.
    cbn [fmap list_fmap].
    rewrite load_one_skipped; [reflexivity |].
    unfold skipped, saveObject, block. simpl. by rdecide.
  - assert (Hd : invalidDefinition (Some (block (Fin 2) (Fin 1))) = false)
      by (apply block_valid; lra).
    destruct (one_added _ PInf (Fin 350) Hd) as (Hr & Hp & Ho).
    cbv zeta in Hr, Hp, Ho.
    split; [exact Hr |]. split; [exact Hp |].
    rewrite (initializeApplication_saved _ room_5x4 5 4 _ None Room_new_5x4).
    rewrite (saved_one _ _ Hp Ho).
    eexists. eexists. eexists.
    split; [exact Ho |]. split; [reflexivity |]. split; [reflexivity |].
    rewrite notify_placedObjects, notify_heap. cbn [fmap list_fmap].
    assert (Hskip :
      skipped
        (saveObject
           (PlacedObject.set_isSelected true
              (PlacedObject.new (block (Fin 2) (Fin 1)) (Num PInf)
                 (Num (Fin 350)) (Fin 175) 0))) = false).
    { unfold skipped, saveObject, block. simpl. by rdecide. }
    split; [by rewrite load_one |].
    unfold loadObjectsIntoManager. cbn [fmap list_fmap forEachObject].
    rewrite Hskip. unfold loadObject.
    cbn [heap set_heap set_placedObjects set_objectCounter objectCounter
         setOnChangeCallback set_onChangeCallback ObjectManager.new].
    rewrite lookup_insert_eq. split; reflexivity.
Qed.

Lemma save_load_round_trip_witness :
  exists s',
    fst (initializeApplication (fun _ => 0)
           (snd (saveLayout room_5x4
                   (step (init room_5x4)
                      (AddObject (Some (block (Fin 2) (Fin 1)))
                         (Fin 437.5) (Fin 350)))
                   (Some None)))) = Some s'
    /\ room s' = room_5x4
    /\ Forall2
         (fun obj obj' => exists o o',
            heap
              (step (init room_5x4)
                 (AddObject (Some (block (Fin 2) (Fin 1)))
                    (Fin 437.5) (Fin 350))) !! obj = Some o
            /\ heap s' !! obj' = Some o'
            /\ sameLayoutObject o o')
         (placedObjects
            (step (init room_5x4)
               (AddObject (Some (block (Fin 2) (Fin 1)))
                  (Fin 437.5) (Fin 350))))
         (placedObjects s').
Proof.
  assert (Hd : invalidDefinition (Some (block (Fin 2) (Fin 1))) = false)
    by (apply block_valid; lra).
  destruct (one_added _ (Fin 437.5) (Fin 350) Hd) as (Hr & Hp & Ho).
  cbv zeta in Hr, Hp, Ho.
  apply (save_load_round_trip _ room_5x4 5 4 _ None); [| apply Room_new_5x4 |].
  { apply (reachable_step _ _ _ (AddObject _ _ _)); [constructor | exact I]. }
  intros obj o. rewrite Hp. intros ->%list_elem_of_singleton.
  rewrite Ho. intros [= <-].
  unfold finiteObject, finiteNumber, block. simpl. eauto 10.
Defined.

End RoundTripExamples.

(** ** The rotated-rectangle test on concrete points *)

Section HitTestExamples.

Lemma quarter_turn : Utils.degreesToRadians (Fin 90) = Fin (PI / 2).
Proof.
  unfold Utils.degreesToRadians, Js.PI. simpl. rewrite Reqb_false by lra.
  fin_eq.
Qed.

(** A 350 by 175 rectangle centered at (437.5, 350): the point (437.5, 500)
    is outside it when it is not rotated and inside it when it is rotated
    by 90 degrees. *)
Example point_in_rotated_rectangle :
  Utils.isPointInRotatedRectangle (Fin 437.5) (Fin 500)
    (Fin 262.5) (Fin 262.5) (Fin 350) (Fin 175) (Fin 0) = false
  /\ Utils.isPointInRotatedRectangle (Fin 437.5) (Fin 500)
       (Fin 262.5) (Fin 262.5) (Fin 350) (Fin 175) (Fin 90) = true.
Proof.
  unfold Utils.isPointInRotatedRectangle. split.
  - rewrite degreesToRadians_0.
    repeat (progress (simpl; rewrite ?Reqb_false by lra)).
    replace (- 0)%R with 0%R by lra. rewrite cos_0, sin_0.
    unfold Js.Rltb.
    repeat match goal with
           | |- context [Rlt_dec ?a ?b] => destruct (Rlt_dec a b)
           end; simpl; try reflexivity; exfalso; lra.
  - rewrite quarter_turn.
    repeat (progress (simpl; rewrite ?Reqb_false by lra)).
    rewrite cos_neg, sin_neg, cos_PI2, sin_PI2.
    unfold Js.Rltb.
    repeat match goal with
           | |- context [Rlt_dec ?a ?b] => destruct (Rlt_dec a b)
           end; simpl; try reflexivity; exfalso; lra.
Qed.

(** A click on the center of the only object of the room selects it. *)
Example select_center :
  fst (selectObjectAt (Fin 437.5) (Fin 350)
         (step (init room_5x4)
            (AddObject (Some (block (Fin 2) (Fin 1))) (Fin 437.5) (Fin 350))))
  = Some 0.
Proof.
  assert (Hd : invalidDefinition (Some (block (Fin 2) (Fin 1))) = false)
    by (apply block_valid; lra).
  destruct (one_added _ (Fin 437.5) (Fin 350) Hd) as (_ & Hp & Ho).
  cbv zeta in Hp, Ho.
  unfold selectObjectAt. cbn [fst]. rewrite Hp. cbn [length findObjectAt].
  rewrite Hp. cbn [lookup list_lookup]. rewrite Ho.
  replace (hitTest (Fin 437.5) (Fin 350) _) with true; [reflexivity |].
  unfold hitTest, Utils.isPointInRotatedRectangle, block.
  cbn [PlacedObject.getPixelDimensions PlacedObject.widthPixels
       PlacedObject.lengthPixels PlacedObject.x PlacedObject.y
       PlacedObject.rotation PlacedObject.set_isSelected PlacedObject.new
       PlacedObject.updateScale ObjectDefinition.width
       ObjectDefinition.length toNumber].
  rewrite degreesToRadians_0.
    repeat (progress (simpl; rewrite ?Reqb_false by lra)).
  replace (- 0)%R with 0%R by lra. rewrite cos_0, sin_0.
  unfold Js.Rltb.
  repeat match goal with
         | |- context [Rlt_dec ?a ?b] => destruct (Rlt_dec a b)
         end; simpl; try reflexivity; exfalso; lra.
Qed.

End HitTestExamples.

(** * Further properties of the code *)

(** ** utils.js: clamp and distance *)

Section GeometryHelpers.

Local Open Scope R_scope.

(** X1. [clamp] with finite bounds [min <= max] and a value that is not
    NaN (infinite ones included) returns a finite number between the bounds,
    and the value itself when it already lies between them.  With
    [max < min] it returns [min] whatever the value, and a NaN value gives
    NaN. *)
Theorem clamp_spec (value : number) (lo hi : R) :
  (lo <= hi -> Js.isNaN value = false ->
   exists c,
     Utils.clamp value (Fin lo) (Fin hi) = Fin c /\ lo <= c <= hi
     /\ (forall v, value = Fin v -> lo <= v <= hi -> c = v))
  /\ (hi < lo -> Js.isNaN value = false ->
      Utils.clamp value (Fin lo) (Fin hi) = Fin lo)
  /\ Utils.clamp NaN (Fin lo) (Fin hi) = NaN.
Proof.
  unfold Utils.clamp. split_and!.
  - intros Hle Hv.
    destruct (clamp_between lo hi value Hle Hv) as (c & Hc & Hb).
    exists c. split_and!; [exact Hc | lra | lra |].
    intros v -> Hvb. simpl in Hc. unfold Js.Rltb in Hc.
    destruct (Rlt_dec hi v); [lra |]. simpl in Hc.
    destruct (Rlt_dec lo v); injection Hc as <-; lra.
  - intros Hlt Hv. destruct value as [x | | |]; simpl in *; try discriminate.
    + unfold Js.Rltb. destruct (Rlt_dec hi x); simpl.
      * destruct (Rlt_dec lo hi); [lra | reflexivity].
      * destruct (Rlt_dec lo x); [lra | reflexivity].
    + unfold Js.Rltb. destruct (Rlt_dec lo hi); [lra | reflexivity].
    + reflexivity.
  - reflexivity.
Qed.

Lemma clamp_spec_witness :
  exists c,
    Utils.clamp PInf (Fin 0) (Fin 100) = Fin c /\ 0 <= c <= 100
    /\ (forall v, PInf = Fin v -> 0 <= v <= 100 -> c = v).
Proof.
  apply (proj1 (clamp_spec PInf 0 100)); [lra | reflexivity].
Defined.

Lemma distance_fin x1 y1 x2 y2 :
  Utils.distance (Fin x1) (Fin y1) (Fin x2) (Fin y2)
  = Fin (sqrt ((x2 - x1) * (x2 - x1) + (y2 - y1) * (y2 - y1))).
Proof.
  unfold Utils.distance. simpl.
  pose proof (Rle_0_sqr (x2 + - x1)) as Hx.
  pose proof (Rle_0_sqr (y2 + - y1)) as Hy. unfold Rsqr in Hx, Hy.
  rewrite Rltb_false by lra. reflexivity.
Qed.


End GeometryHelpers.

(** ** utils.js: the rotated-rectangle test *)

Section RotatedRectangle.

Local Open Scope R_scope.

(** The test on finite numbers, in real arithmetic: the point is turned by
    the opposite angle about the center and compared with the bounds. *)
Lemma hit_fin (px py rx ry w h a : R) :
  let t := - (a * (PI / 180)) in
  let cx := rx + w / 2 in
  let cy := ry + h / 2 in
  let X := (px - cx) * cos t - (py - cy) * sin t + cx in
  let Y := (px - cx) * sin t + (py - cy) * cos t + cy in
  Utils.isPointInRotatedRectangle (Fin px) (Fin py) (Fin rx) (Fin ry)
    (Fin w) (Fin h) (Fin a) = true
  <-> rx <= X <= rx + w /\ ry <= Y <= ry + h.
Proof.
  cbv zeta. unfold Utils.isPointInRotatedRectangle, Utils.degreesToRadians,
    Js.PI, Js.ge.
  repeat (progress (simpl; rewrite ?Reqb_false by lra)).
  rewrite !andb_true_iff, !negb_true_iff.
  unfold Js.Rltb.
  repeat match goal with
         | |- context [Rlt_dec ?u ?v] => destruct (Rlt_dec u v)
         end; split; intros; try lra; try done; try (exfalso; lra);
    repeat split; try reflexivity; lra.
Qed.

(** X3. The center of a rectangle of finite position and of finite,
    non-negative width and height passes the test whatever the (finite)
    rotation angle is. *)
Theorem center_is_inside (rx ry w h a : R) :
  0 <= w -> 0 <= h ->
  Utils.isPointInRotatedRectangle (Fin (rx + w / 2)) (Fin (ry + h / 2))
    (Fin rx) (Fin ry) (Fin w) (Fin h) (Fin a) = true.
Proof.
  intros Hw Hh. apply hit_fin. cbv zeta.
  replace (rx + w / 2 - (rx + w / 2)) with 0 by lra.
  replace (ry + h / 2 - (ry + h / 2)) with 0 by lra.
  rewrite !Rmult_0_l. lra.
Qed.

Lemma center_is_inside_witness :
  Utils.isPointInRotatedRectangle (Fin (262.5 + 350 / 2)) (Fin (262.5 + 175 / 2))
    (Fin 262.5) (Fin 262.5) (Fin 350) (Fin 175) (Fin 40) = true.
Proof. apply center_is_inside; lra. Defined.




End RotatedRectangle.

(** ** Room.js: the pixel scale *)

Section RoomScale.

Local Open Scope R_scope.

(** The room built from two finite, positive dimensions. *)
Lemma Room_new_fin (w l : R) :
  0 < w -> 0 < l ->
  Room.new (Fin w) (Fin l)
  = inr (Room.mk (Fin w) (Fin l) (Fin (Rmin (1000 / w) (700 / l)))
           (Fin (w * Rmin (1000 / w) (700 / l)))
           (Fin (l * Rmin (1000 / w) (700 / l)))).
Proof.
  intros Hw Hl.
  unfold Room.new, Room.calculateScale, Config.CANVAS_MAX_WIDTH,
    Config.CANVAS_MAX_HEIGHT.
  simpl. rewrite (Rltb_true 0 w), (Rltb_true 0 l) by assumption. simpl.
  rewrite (Reqb_false w 0), (Reqb_false l 0) by lra. simpl.
  unfold Rmin, Js.Rltb.
  destruct (Rlt_dec (700 / l) (1000 / w)), (Rle_dec (1000 / w) (700 / l));
    try lra; reflexivity.
Qed.

Lemma scale_positive (w l : R) :
  0 < w -> 0 < l -> 0 < Rmin (1000 / w) (700 / l).
Proof.
  intros Hw Hl. apply Rmin_glb_lt; apply Rdiv_lt_0_compat; lra.
Qed.





End RoomScale.

(** ** ObjectManager.js: what each call does to the collection *)

Section ManagerContracts.

Implicit Types (s : State) (obj sel : nat).

(** X8. A call of [addObject] with a definition that passes the
    validation, in a well-formed state: the entity is new (its reference
    was not in use), it is returned, appended at the end of the collection
    and selected; it is flagged, unrotated, at the given position, with the
    sizes of the definition and the pixel sizes of the room's scale; and
    every other entity is as before, except that the entity selected before
    loses its flag. *)
Theorem addObject_success d x y s :
  wf s -> invalidDefinition (Some d) = false ->
  let ref := objectCounter s in
  let s' := snd (addObject (Some d) x y s) in
  fst (addObject (Some d) x y s) = Some ref
  /\ heap s !! ref = None
  /\ (ref ∉ placedObjects s)
  /\ placedObjects s' = placedObjects s ++ [ref]
  /\ selectedObject s' = Some ref
  /\ objectCounter s' = S ref
  /\ room s' = room s
  /\ (exists o,
        heap s' !! ref = Some o
        /\ PlacedObject.uniqueId o = ref
        /\ PlacedObject.isSelected o = true
        /\ PlacedObject.rotation o = Fin 0
        /\ PlacedObject.x o = Num x /\ PlacedObject.y o = Num y
        /\ PlacedObject.widthUnits o = ObjectDefinition.width d
        /\ PlacedObject.lengthUnits o = ObjectDefinition.length d
        /\ PlacedObject.scale o = Room.scale (room s)
        /\ PlacedObject.widthPixels o
           = (toNumber (ObjectDefinition.width d) * Room.scale (room s))%js
        /\ PlacedObject.lengthPixels o
           = (toNumber (ObjectDefinition.length d) * Room.scale (room s))%js)
  /\ (forall obj, obj <> ref ->
        heap s' !! obj
        = (fun e => if decide (selectedObject s = Some obj)
                    then PlacedObject.set_isSelected false e else e)
            <$> heap s !! obj).
Proof.
  intros Hwf Hd. cbv zeta.
  pose proof (wf_fresh s Hwf) as Hfresh.
  pose proof (addObject_lookup d x y s Hd) as Hnew.
  split_and!.
  - by apply addObject_result.
  - exact Hfresh.
  - intros Hin. apply (wf_placed s Hwf) in Hin. rewrite Hfresh in Hin.
    by destruct Hin.
  - by apply addObject_placedObjects.
  - by apply addObject_selectedObject.
  - rewrite addObject_valid by exact Hd. cbn [snd].
    by rewrite notify_objectCounter, selectObject_objectCounter.
  - apply addObject_room.
  - eexists. split; [exact Hnew |]. simpl. split_and!; reflexivity.
  - intros obj Hne. rewrite addObject_valid by exact Hd. cbn [snd].
    rewrite notify_heap, selectObject_heap, selectHeap_lookup.
    cbn [heap selectedObject set_heap set_placedObjects set_objectCounter].
    rewrite lookup_insert_ne by done.
    destruct (heap s !! obj) as [e |]; [| reflexivity]. simpl.
    rewrite decide_False by congruence. reflexivity.
Qed.

Lemma addObject_success_witness :
  fst (addObject (Some (block (Fin 2) (Fin 1))) (Fin 437.5) (Fin 350)
         (init room_5x4)) = Some 0
  /\ placedObjects
       (snd (addObject (Some (block (Fin 2) (Fin 1))) (Fin 437.5) (Fin 350)
               (init room_5x4))) = [0]
  /\ selectedObject
       (snd (addObject (Some (block (Fin 2) (Fin 1))) (Fin 437.5) (Fin 350)
               (init room_5x4))) = Some 0.
Proof.
  pose proof (addObject_success (block (Fin 2) (Fin 1)) (Fin 437.5) (Fin 350)
                (init room_5x4) (wf_init room_5x4)
                (block_valid 2 1 ltac:(lra) ltac:(lra))) as H.
  cbv zeta in H.
  destruct H as (H1 & _ & _ & H2 & H3 & _).
  split_and!; [exact H1 | exact H2 | exact H3].
Defined.

Lemma uniqueId_text_inj n m :
  PlacedObject.uniqueId_text n = PlacedObject.uniqueId_text m -> n = m.
Proof.
  unfold PlacedObject.uniqueId_text. intros H.
  apply (inj (String.app "obj-")) in H. by apply (inj pretty) in H.
Qed.

Lemma ids_of_collection s (l : list nat) :
  wf s -> (forall obj, obj ∈ l -> is_Some (heap s !! obj)) ->
  omap (fun obj =>
          (fun o => PlacedObject.uniqueId_text (PlacedObject.uniqueId o))
            <$> heap s !! obj) l
  = PlacedObject.uniqueId_text <$> l.
Proof.
  intros Hwf. induction l as [| obj l IH]; intros Hall; [reflexivity |].
  cbn [omap list_omap fmap list_fmap].
  destruct (Hall obj) as [o Ho]; [by left |].
  rewrite Ho. cbn [fmap option_fmap option_map].
  rewrite (wf_uniqueId s Hwf _ _ Ho). f_equal.
  apply IH. intros obj' Hin. apply Hall. by right.
Qed.

(** X9. In every reachable state the entities of the collection carry
    pairwise distinct identifiers: the list of the [uniqueId] texts of the
    collection has one text per entity and no text twice. *)
Theorem unique_ids currentRoom s :
  reachable currentRoom s ->
  let ids :=
    omap (fun obj =>
            (fun o => PlacedObject.uniqueId_text (PlacedObject.uniqueId o))
              <$> heap s !! obj) (placedObjects s) in
  length ids = length (placedObjects s) /\ NoDup ids.
Proof.
  intros Hreach. cbv zeta.
  pose proof (reachable_wf _ _ Hreach) as Hwf.
  rewrite (ids_of_collection s _ Hwf (wf_placed s Hwf)).
  split; [by rewrite length_fmap |].
  apply NoDup_fmap_2; [| apply (wf_NoDup s Hwf)].
  intros n m. apply uniqueId_text_inj.
Qed.

Lemma unique_ids_witness :
  length
    (omap (fun obj =>
             (fun o => PlacedObject.uniqueId_text (PlacedObject.uniqueId o))
               <$> heap (run [AddObject (Some (block (Fin 2) (Fin 1)))
                                (Fin 437.5) (Fin 350);
                              AddObject (Some (block (Fin 1) (Fin 1)))
                                (Fin 100) (Fin 100)]
                           (init room_5x4)) !! obj)
       (placedObjects
          (run [AddObject (Some (block (Fin 2) (Fin 1))) (Fin 437.5) (Fin 350);
                AddObject (Some (block (Fin 1) (Fin 1))) (Fin 100) (Fin 100)]
             (init room_5x4))))
  = length
      (placedObjects
         (run [AddObject (Some (block (Fin 2) (Fin 1))) (Fin 437.5) (Fin 350);
               AddObject (Some (block (Fin 1) (Fin 1))) (Fin 100) (Fin 100)]
            (init room_5x4)))
  /\ NoDup
       (omap (fun obj =>
                (fun o => PlacedObject.uniqueId_text (PlacedObject.uniqueId o))
                  <$> heap (run [AddObject (Some (block (Fin 2) (Fin 1)))
                                   (Fin 437.5) (Fin 350);
                                 AddObject (Some (block (Fin 1) (Fin 1)))
                                   (Fin 100) (Fin 100)]
                              (init room_5x4)) !! obj)
          (placedObjects
             (run [AddObject (Some (block (Fin 2) (Fin 1))) (Fin 437.5) (Fin 350);
                   AddObject (Some (block (Fin 1) (Fin 1))) (Fin 100) (Fin 100)]
                (init room_5x4)))).
Proof.
  apply (unique_ids room_5x4).
  unfold run. cbn [foldl].
  apply reachable_step; [| exact I].
  apply reachable_step; [| exact I].
  apply reachable_init.
Defined.

(** X10. A move of the selected entity to a target that lies within the
    admissible range (half the projected box away from each wall) puts the
    entity exactly at the target; nothing else of the entity changes, no
    other entity changes, and the collection and the selection stay. *)
Theorem moveSelectedObject_spec (newX newY W H pw ph : R) s sel o :
  selectedObject s = Some sel -> heap s !! sel = Some o ->
  Room.canvasWidth (room s) = Fin W -> Room.canvasHeight (room s) = Fin H ->
  projectedWidth o = Fin pw -> projectedHeight o = Fin ph ->
  (pw / 2 <= newX <= W - pw / 2)%R -> (ph / 2 <= newY <= H - ph / 2)%R ->
  let s' := moveSelectedObject (Fin newX) (Fin newY) s in
  (exists o',
     heap s' !! sel = Some o'
     /\ PlacedObject.x o' = Num (Fin newX)
     /\ PlacedObject.y o' = Num (Fin newY)
     /\ PlacedObject.rotation o' = PlacedObject.rotation o
     /\ PlacedObject.isSelected o' = PlacedObject.isSelected o
     /\ PlacedObject.getPixelDimensions o' = PlacedObject.getPixelDimensions o
     /\ PlacedObject.uniqueId o' = PlacedObject.uniqueId o)
  /\ (forall obj, obj <> sel -> heap s' !! obj = heap s !! obj)
  /\ placedObjects s' = placedObjects s
  /\ selectedObject s' = selectedObject s.
Proof.
  intros Hsel Ho HW HH Hpw Hph Hx Hy. cbv zeta.
  split_and!; [| | apply moveSelectedObject_frame
               | apply moveSelectedObject_frame];
    rewrite (moveSelectedObject_eq _ _ s sel o Hsel Ho);
    rewrite notify_heap; cbn [heap set_heap];
    rewrite HW, HH, Hpw, Hph, !half_fin.
  - rewrite lookup_insert, decide_True by done.
    eexists. split; [reflexivity |].
    cbn [PlacedObject.x PlacedObject.y PlacedObject.rotation
         PlacedObject.isSelected PlacedObject.uniqueId
         PlacedObject.setPosition].
    split_and!; try reflexivity.
    + simpl. unfold Js.Rltb.
      repeat match goal with
             | |- context [Rlt_dec ?u ?v] => destruct (Rlt_dec u v)
             end; try (exfalso; lra); do 2 f_equal; lra.
    + simpl. unfold Js.Rltb.
      repeat match goal with
             | |- context [Rlt_dec ?u ?v] => destruct (Rlt_dec u v)
             end; try (exfalso; lra); do 2 f_equal; lra.
  - intros obj Hne. by rewrite lookup_insert_ne.
Qed.

Lemma moveSelectedObject_spec_witness :
  (exists o',
     heap (moveSelectedObject (Fin 200) (Fin 300)
             (step (init room_5x4)
                (AddObject (Some (block (Fin 2) (Fin 1))) (Fin 437.5) (Fin 350))))
       !! 0 = Some o'
     /\ PlacedObject.x o' = Num (Fin 200)
     /\ PlacedObject.y o' = Num (Fin 300))
  /\ placedObjects
       (moveSelectedObject (Fin 200) (Fin 300)
          (step (init room_5x4)
             (AddObject (Some (block (Fin 2) (Fin 1))) (Fin 437.5) (Fin 350))))
     = [0].
Proof.
  pose proof (block_added 2 1 ltac:(lra) ltac:(lra)) as Hb.
  cbv zeta in Hb. destruct Hb as (_ & Hsel & Hroom & o & Ho & Hpw & Hph).
  destruct (moveSelectedObject_spec 200 300 875 700 (2 * 175) (1 * 175)
              _ 0 o Hsel Ho)
    as ((o' & Ho' & Hx & Hy & _) & _ & Hsame & _);
    try (rewrite Hroom; reflexivity); try assumption; try lra.
  split; [by exists o' |]. rewrite Hsame. cbn [step].
  by rewrite addObject_placedObjects by (apply block_valid; lra).
Defined.

End ManagerContracts.

Section ScalesAndDeletion.

Implicit Types (s : State) (obj sel : nat).

(** X11. [updateObjectScales] gives every entity of the collection the new
    scale and the pixel sizes that follow from it, and leaves its sizes in
    units, its position in pixels, its rotation and its flag as they are;
    an entity that is no longer in the collection is not touched; the
    collection, the selection and the room stay. *)
Theorem updateObjectScales_spec k s obj o :
  heap s !! obj = Some o ->
  let s' := updateObjectScales k s in
  (obj ∈ placedObjects s ->
   exists o',
     heap s' !! obj = Some o'
     /\ PlacedObject.scale o' = k
     /\ PlacedObject.widthPixels o'
        = (toNumber (PlacedObject.widthUnits o) * k)%js
     /\ PlacedObject.lengthPixels o'
        = (toNumber (PlacedObject.lengthUnits o) * k)%js
     /\ PlacedObject.widthUnits o' = PlacedObject.widthUnits o
     /\ PlacedObject.lengthUnits o' = PlacedObject.lengthUnits o
     /\ PlacedObject.x o' = PlacedObject.x o
     /\ PlacedObject.y o' = PlacedObject.y o
     /\ PlacedObject.rotation o' = PlacedObject.rotation o
     /\ PlacedObject.isSelected o' = PlacedObject.isSelected o)
  /\ ((obj ∉ placedObjects s) -> heap s' !! obj = Some o)
  /\ placedObjects s' = placedObjects s
  /\ selectedObject s' = selectedObject s
  /\ room s' = room s.
Proof.
  intros Ho. cbv zeta.
  pose proof (updateObjectScales_frame k s) as (Hp & Hsel & Hroom & _).
  split_and!; [| | exact Hp | exact Hsel | exact Hroom].
  - intros Hin. rewrite updateObjectScales_lookup, Ho.
    rewrite bool_decide_eq_true_2 by exact Hin.
    eexists. split; [reflexivity |]. simpl. split_and!; reflexivity.
  - intros Hnotin. rewrite updateObjectScales_lookup, Ho.
    by rewrite bool_decide_eq_false_2 by exact Hnotin.
Qed.

Lemma updateObjectScales_spec_witness :
  exists o o',
    heap (step (init room_5x4)
            (AddObject (Some (block (Fin 2) (Fin 1))) (Fin 437.5) (Fin 350)))
      !! 0 = Some o
    /\ heap (updateObjectScales (Fin 100)
               (step (init room_5x4)
                  (AddObject (Some (block (Fin 2) (Fin 1))) (Fin 437.5)
                     (Fin 350)))) !! 0 = Some o'
    /\ PlacedObject.scale o' = Fin 100
    /\ PlacedObject.widthPixels o'
       = (toNumber (PlacedObject.widthUnits o) * Fin 100)%js
    /\ PlacedObject.x o' = PlacedObject.x o.
Proof.
  pose proof (block_valid 2 1 ltac:(lra) ltac:(lra)) as Hd.
  pose proof (addObject_lookup (block (Fin 2) (Fin 1)) (Fin 437.5) (Fin 350)
                (init room_5x4) Hd) as Ho.
  destruct (updateObjectScales_spec (Fin 100) _ 0 _ Ho) as (Hin & _).
  destruct Hin as (o' & Ho' & Hs & Hw & _ & _ & _ & Hx & _).
  { cbn [step]. rewrite addObject_placedObjects by exact Hd. by left. }
  eexists _, o'. split; [exact Ho |]. by split_and!.
Defined.

Lemma delete_filter (l : list nat) i obj :
  NoDup l -> l !! i = Some obj ->
  delete i l = filter (fun obj' => obj' <> obj) l.
Proof.
  intros Hnd. revert i.
  induction Hnd as [| a l Ha Hnd IH]; intros i Hi; [done |].
  destruct i as [| i]; simpl in Hi.
  - injection Hi as ->. cbn [delete list_delete].
    rewrite filter_cons_False by (intros H; by apply H).
    symmetry. apply filter_all. apply Forall_forall.
    intros obj' Hin ->. contradiction.
  - rewrite filter_cons_True.
    + cbn [delete list_delete]. f_equal. by apply IH.
    + intros ->. apply Ha. by eapply list_elem_of_lookup_2.
Qed.

(** X12. Deleting the selected entity of the collection removes that
    entity and nothing else: the collection afterwards is the collection
    before without it, the other entities in the order they had; and what
    is stored about the entities stays. *)
Theorem deleteSelectedObject_keeps_order currentRoom s sel :
  reachable currentRoom s ->
  selectedObject s = Some sel -> sel ∈ placedObjects s ->
  placedObjects (deleteSelectedObject s)
  = filter (fun obj => obj <> sel) (placedObjects s)
  /\ (forall obj, obj ∈ placedObjects s -> obj <> sel ->
        obj ∈ placedObjects (deleteSelectedObject s)
        /\ heap (deleteSelectedObject s) !! obj = heap s !! obj).
Proof.
  intros Hreach Hsel Hin.
  pose proof (reachable_wf _ _ Hreach) as Hwf.
  destruct (deleteSelectedObject_member s sel Hwf Hsel Hin)
    as (index & Hindex & ->).
  rewrite notify_placedObjects, notify_heap.
  cbn [placedObjects heap set_selectedObject set_placedObjects].
  rewrite (delete_filter _ _ _ (wf_NoDup s Hwf) Hindex).
  split; [reflexivity |].
  intros obj Hobj Hne. split; [| reflexivity].
  apply list_elem_of_filter. by split.
Qed.

Lemma deleteSelectedObject_keeps_order_witness :
  placedObjects
    (deleteSelectedObject
       (run [AddObject (Some (block (Fin 2) (Fin 1))) (Fin 437.5) (Fin 350);
             AddObject (Some (block (Fin 1) (Fin 1))) (Fin 100) (Fin 100);
             SelectObject (Some 0)]
          (init room_5x4)))
  = filter (fun obj => obj <> 0)
      (placedObjects
         (run [AddObject (Some (block (Fin 2) (Fin 1))) (Fin 437.5) (Fin 350);
               AddObject (Some (block (Fin 1) (Fin 1))) (Fin 100) (Fin 100);
               SelectObject (Some 0)]
            (init room_5x4))).
Proof.
  pose proof (block_valid 2 1 ltac:(lra) ltac:(lra)) as Hd2.
  pose proof (block_valid 1 1 ltac:(lra) ltac:(lra)) as Hd1.
  refine (proj1 (deleteSelectedObject_keeps_order room_5x4 _ 0 _ _ _)).
  - unfold run. cbn [foldl].
    apply reachable_step.
    + apply reachable_step; [| exact I].
      apply reachable_step; [| exact I]. apply reachable_init.
    + cbn [callable step].
      apply (wf_placed _ (wf_addObject _ _ _ _ (wf_addObject _ _ _ _
                                                  (wf_init room_5x4)))).
      rewrite addObject_placedObjects by exact Hd1.
      rewrite addObject_placedObjects by exact Hd2.
      cbn [placedObjects init new app]. by left.
  - unfold run. cbn [foldl step]. by rewrite selectObject_selectedObject.
  - unfold run. cbn [foldl step]. rewrite selectObject_placedObjects.
    rewrite addObject_placedObjects by exact Hd1.
    rewrite addObject_placedObjects by exact Hd2.
    cbn [placedObjects init new app]. by left.
Defined.

End ScalesAndDeletion.

(** ** ObjectManager.js: hit testing and selection *)

Section Clicks.

Implicit Types (s : State) (obj sel : nat).

Local Open Scope R_scope.

Lemma hitTest_set_isSelected px py b e :
  hitTest px py (PlacedObject.set_isSelected b e) = hitTest px py e.
Proof. reflexivity. Qed.

(** The loop of [selectObjectAt] does not look at the flags. *)
Lemma findObjectAt_selectObject o s px py n :
  findObjectAt (selectObject o s) px py n = findObjectAt s px py n.
Proof.
  induction n as [| i IH]; [reflexivity |].
  cbn [findObjectAt]. rewrite selectObject_placedObjects, IH.
  destruct (placedObjects s !! i) as [obj |]; [| reflexivity].
  rewrite selectObject_heap, selectHeap_lookup.
  destruct (heap s !! obj) as [e |]; [| reflexivity]. simpl.
  repeat case_decide; by rewrite ?hitTest_set_isSelected.
Qed.

Lemma set_isSelected_again e :
  PlacedObject.isSelected e = true ->
  PlacedObject.set_isSelected true (PlacedObject.set_isSelected false e) = e.
Proof. destruct e. simpl. by intros ->. Qed.

(** Selecting what is selected already changes nothing but the count of
    notifications. *)
Lemma selectObject_again o s :
  selectObject o (selectObject o s) = _notifyChange (selectObject o s).
Proof.
  pose proof (selectObject_selectedObject o s) as Hsel.
  assert (Hflag : forall obj e,
            o = Some obj -> heap (selectObject o s) !! obj = Some e ->
            PlacedObject.isSelected e = true).
  { intros obj e -> He.
    pose proof (selectObject_flag (Some obj) s obj) as Hf.
    unfold flag in Hf. rewrite He, decide_True in Hf by done.
    rewrite Hf. apply bool_decide_eq_true_2.
    apply selectObject_is_Some with (o := Some obj). by rewrite He. }
  generalize dependent (selectObject o s). intros s1 Hsel Hflag.
  unfold selectObject. rewrite Hsel.
  destruct o as [obj |]; cbn [selectedObject set_selectedObject set_heap heap].
  - f_equal. destruct s1 as [h c r p so cb n]. cbn in *.
    unfold set_heap, set_selectedObject. cbn. f_equal; [| done].
    apply map_eq. intros obj'. rewrite !lookup_alter.
    repeat case_decide; try done. subst obj'.
    destruct (h !! obj) as [e |] eqn:He; [| reflexivity]. simpl.
    f_equal. apply set_isSelected_again. by eapply Hflag.
  - f_equal. destruct s1. cbn in Hsel. subst. reflexivity.
Qed.

(** X13. A second click at the same point finds the same entity as the
    first and changes nothing but notifying once more: the flags play no
    part in hit testing, and selecting the selected entity again leaves
    every entity as it is. *)
Theorem selectObjectAt_twice px py s :
  selectObjectAt px py (snd (selectObjectAt px py s))
  = (fst (selectObjectAt px py s), _notifyChange (snd (selectObjectAt px py s))).
Proof.
  unfold selectObjectAt. cbn [fst snd].
  rewrite selectObject_placedObjects, findObjectAt_selectObject.
  by rewrite selectObject_again.
Qed.

Lemma center_hits (x y w h a : R) :
  0 <= w -> 0 <= h ->
  Utils.isPointInRotatedRectangle (Fin x) (Fin y)
    (Fin x - Fin w / Fin 2)%js (Fin y - Fin h / Fin 2)%js
    (Fin w) (Fin h) (Fin a) = true.
Proof.
  intros Hw Hh. rewrite !half_fin.
  change (Fin x - Fin (w / 2))%js with (Fin (x + - (w / 2))).
  change (Fin y - Fin (h / 2))%js with (Fin (y + - (h / 2))).
  apply hit_fin. cbv zeta.
  replace (x - (x + - (w / 2) + w / 2)) with 0 by lra.
  replace (y - (y + - (h / 2) + h / 2)) with 0 by lra.
  rewrite !Rmult_0_l. lra.
Qed.



End Clicks.

(** ** Invariants of the entities *)

Section EntityInvariant.

Implicit Types (s : State) (obj sel : nat).

Variable P : PlacedObject.t -> Prop.

Hypothesis P_new : forall d x y scale counter,
  invalidDefinition (Some d) = false ->
  P (PlacedObject.new d x y scale counter).
Hypothesis P_set_isSelected : forall b o,
  P o -> P (PlacedObject.set_isSelected b o).
Hypothesis P_setPosition : forall x y o,
  P o -> P (PlacedObject.setPosition x y o).
Hypothesis P_updateScale : forall k o,
  P o -> P (PlacedObject.updateScale k o).
Hypothesis P_rotate : forall o, P o -> P (PlacedObject.rotate o).

Lemma invariant_selectObject o s :
  (forall obj e, heap s !! obj = Some e -> P e) ->
  forall obj e, heap (selectObject o s) !! obj = Some e -> P e.
Proof.
  intros Hall obj e. rewrite selectObject_heap, selectHeap_lookup.
  destruct (heap s !! obj) as [e0 |] eqn:He0; simpl; [| discriminate].
  intros [= <-]. specialize (Hall _ _ He0).
  repeat case_decide; by try apply P_set_isSelected.
Qed.

(** A property of entities that the constructor establishes and the
    methods of an entity keep holds after every call of the manager. *)
Lemma invariant_managerCall s op :
  managerCall s op ->
  (forall obj e, heap s !! obj = Some e -> P e) ->
  forall obj e, heap (step s op) !! obj = Some e -> P e.
Proof.
  intros Hop Hall.
  destruct op as [d x y | o | x y | x y | | | k | | now objectsData];
    cbn [step]; [| | | | | | | | destruct Hop].
  - destruct (invalidDefinition d) eqn:Hd.
    + by rewrite addObject_invalid.
    + destruct d as [d |]; [| discriminate].
      rewrite addObject_valid by exact Hd. cbn [snd].
      intros obj e. rewrite notify_heap. apply invariant_selectObject.
      intros obj' e'. cbn [heap set_heap set_placedObjects set_objectCounter].
      rewrite lookup_insert. case_decide; [| by apply Hall].
      intros [= <-]. by apply P_new.
  - by apply invariant_selectObject.
  - by apply invariant_selectObject.
  - destruct (selectedObject s) as [sel |] eqn:Hsel;
      [| by rewrite moveSelectedObject_none].
    destruct (heap s !! sel) as [o |] eqn:Ho.
    + rewrite (moveSelectedObject_eq _ _ s sel o Hsel Ho).
      intros obj e. rewrite notify_heap. cbn [heap set_heap].
      rewrite lookup_insert. case_decide; [| by apply Hall].
      intros [= <-]. apply P_setPosition. by eapply Hall.
    + unfold moveSelectedObject. rewrite Hsel, Ho. exact Hall.
  - unfold rotateSelectedObject.
    destruct (selectedObject s) as [sel |]; [| exact Hall].
    intros obj e. rewrite notify_heap. cbn [heap set_heap].
    rewrite lookup_alter. case_decide; [| by apply Hall]. subst obj.
    destruct (heap s !! sel) as [o |] eqn:Ho; simpl; [| discriminate].
    intros [= <-]. apply P_rotate. by eapply Hall.
  - unfold deleteSelectedObject.
    destruct (selectedObject s) as [sel |]; [| exact Hall].
    destruct (heap s !! sel) as [o |]; [| exact Hall].
    destruct (findIndex _ _); [| exact Hall].
    intros obj e. rewrite notify_heap. apply Hall.
  - intros obj e. rewrite updateObjectScales_lookup.
    destruct (heap s !! obj) as [o |] eqn:Ho; simpl; [| discriminate].
    intros [= <-]. case_bool_decide; [apply P_updateScale |]; by eapply Hall.
  - exact Hall.
Qed.

Lemma invariant_reachable_by_managerCall currentRoom s :
  reachable_by managerCall currentRoom s ->
  forall obj e, heap s !! obj = Some e -> P e.
Proof.
  induction 1 as [| s op _ IH Hop].
  - intros obj e. unfold init, new. simpl. by rewrite lookup_empty.
  - by apply invariant_managerCall.
Qed.

Hypothesis P_loaded : forall r d x y scale counter,
  P (PlacedObject.set_rotation r (PlacedObject.new d x y scale counter)).

Lemma invariant_step s op :
  callable s op ->
  (forall obj e, heap s !! obj = Some e -> P e) ->
  forall obj e, heap (step s op) !! obj = Some e -> P e.
Proof.
  intros Hop Hall.
  destruct op as [d x y | o | x y | x y | | | k | | now objectsData];
    try (by apply invariant_managerCall).
  cbn [step]. unfold loadObjectsIntoManager.
  apply (forEachObject_preserves
           (fun s' => forall obj e, heap s' !! obj = Some e -> P e));
    [| exact Hall].
  intros t i objData s' Hs' obj e. unfold loadObject.
  cbn [heap set_heap set_placedObjects set_objectCounter].
  rewrite lookup_insert. case_decide; [| by apply Hs'].
  intros [= <-]. apply P_loaded.
Qed.

Lemma invariant_reachable currentRoom s :
  reachable currentRoom s ->
  forall obj e, heap s !! obj = Some e -> P e.
Proof.
  induction 1 as [| s op _ IH Hop].
  - intros obj e. unfold init, new. simpl. by rewrite lookup_empty.
  - by apply invariant_step.
Qed.

End EntityInvariant.

Section EntityInvariants.

Implicit Types (s : State) (obj sel : nat).

Local Open Scope R_scope.

(** X15. Whatever is done to a manager, loading saved records included,
    the pixel sizes of every entity are its sizes in units times its own
    scale. *)
Theorem pixel_sizes_follow_scale currentRoom s obj o :
  reachable currentRoom s -> heap s !! obj = Some o ->
  PlacedObject.widthPixels o
  = (toNumber (PlacedObject.widthUnits o) * PlacedObject.scale o)%js
  /\ PlacedObject.lengthPixels o
     = (toNumber (PlacedObject.lengthUnits o) * PlacedObject.scale o)%js.
Proof.
  intros Hreach Ho.
  eapply (invariant_reachable
            (fun o =>
               PlacedObject.widthPixels o
               = (toNumber (PlacedObject.widthUnits o)
                  * PlacedObject.scale o)%js
               /\ PlacedObject.lengthPixels o
                  = (toNumber (PlacedObject.lengthUnits o)
                     * PlacedObject.scale o)%js));
    [.. | exact Hreach | exact Ho]; try done.
Qed.

Lemma pixel_sizes_follow_scale_witness :
  exists o,
    heap (run [AddObject (Some (block (Fin 2) (Fin 1))) (Fin 437.5) (Fin 350);
               UpdateObjectScales (Fin 100)]
            (init room_5x4)) !! 0%nat = Some o
    /\ PlacedObject.widthPixels o
       = (toNumber (PlacedObject.widthUnits o) * PlacedObject.scale o)%js
    /\ PlacedObject.lengthPixels o
       = (toNumber (PlacedObject.lengthUnits o) * PlacedObject.scale o)%js.
Proof.
  pose proof (block_valid 2 1 ltac:(lra) ltac:(lra)) as Hd.
  assert (Ho : is_Some
            (heap (run [AddObject (Some (block (Fin 2) (Fin 1))) (Fin 437.5)
                          (Fin 350);
                        UpdateObjectScales (Fin 100)]
                     (init room_5x4)) !! 0%nat)).
  { unfold run. cbn [foldl step]. rewrite updateObjectScales_lookup.
    by rewrite (addObject_lookup _ _ _ (init room_5x4) Hd). }
  destruct Ho as [o Ho]. exists o. split; [exact Ho |].
  refine (pixel_sizes_follow_scale room_5x4 _ 0%nat o _ Ho).
  unfold run. cbn [foldl].
  apply reachable_step; [| exact I].
  apply reachable_step; [| exact I]. apply reachable_init.
Defined.

Lemma rotate_tenfold o (k : nat) :
  (k < 36)%nat -> PlacedObject.rotation o = Fin (10 * INR k) ->
  exists k' : nat,
    (k' < 36)%nat
    /\ PlacedObject.rotation (PlacedObject.rotate o) = Fin (10 * INR k').
Proof.
  intros Hk Hr.
  assert (Hk36 : INR k <= 35).
  { replace 35 with (INR 35) by (simpl; lra). apply le_INR. lia. }
  pose proof (pos_INR k) as Hk0.
  rewrite (rotate_rotation o (10 * INR k) Hr) by lra.
  destruct (Nat.eq_dec k 35%nat) as [-> | Hne].
  - exists 0%nat. split; [lia |].
    replace (INR 35) with 35 by (simpl; lra).
    destruct (Rlt_dec (10 * 35 + 10) 360); [exfalso; lra |].
    simpl. fin_eq.
  - exists (S k). split; [lia |]. rewrite S_INR.
    assert (Hk34 : INR k <= 34).
    { replace 34 with (INR 34) by (simpl; lra). apply le_INR. lia. }
    destruct (Rlt_dec (10 * INR k + 10) 360); [fin_eq | exfalso; lra].
Qed.

(** X16. The rotation of every entity of a manager that is only worked on
    through its methods is a whole number of steps of 10 degrees, from 0
    to 350. *)
Theorem rotations_are_steps currentRoom s obj o :
  reachable_by managerCall currentRoom s -> heap s !! obj = Some o ->
  exists k : nat,
    (k < 36)%nat /\ PlacedObject.rotation o = Fin (10 * INR k).
Proof.
  intros Hreach Ho.
  eapply (invariant_reachable_by_managerCall
            (fun o => exists k : nat,
               (k < 36)%nat /\ PlacedObject.rotation o = Fin (10 * INR k)));
    [.. | exact Hreach | exact Ho]; try done.
  - intros d x y scale counter _. exists 0%nat. split; [lia |].
    simpl. fin_eq.
  - intros e (k & Hk & Hr). by apply (rotate_tenfold e k).
Qed.

Lemma rotations_are_steps_witness :
  exists o (k : nat),
    heap (run [AddObject (Some (block (Fin 2) (Fin 1))) (Fin 437.5) (Fin 350);
               RotateSelectedObject]
            (init room_5x4)) !! 0%nat = Some o
    /\ (k < 36)%nat /\ PlacedObject.rotation o = Fin (10 * INR k).
Proof.
  pose proof (block_valid 2 1 ltac:(lra) ltac:(lra)) as Hd.
  assert (Ho : is_Some
            (heap (run [AddObject (Some (block (Fin 2) (Fin 1))) (Fin 437.5)
                          (Fin 350);
                        RotateSelectedObject]
                     (init room_5x4)) !! 0%nat)).
  { unfold run. cbn [foldl step]. unfold rotateSelectedObject.
    rewrite addObject_selectedObject by exact Hd.
    rewrite notify_heap. cbn [heap set_heap].
    rewrite lookup_alter, decide_True by done.
    by rewrite (addObject_lookup _ _ _ (init room_5x4) Hd). }
  destruct Ho as [o Ho]. exists o.
  assert (Hreach : reachable_by managerCall room_5x4
            (run [AddObject (Some (block (Fin 2) (Fin 1))) (Fin 437.5)
                    (Fin 350);
                  RotateSelectedObject]
               (init room_5x4))).
  { unfold run. cbn [foldl].
    apply reachable_step; [| exact I].
    apply reachable_step; [| exact I]. apply reachable_init. }
  destruct (rotations_are_steps room_5x4 _ 0%nat o Hreach Ho)
    as (k & Hk & Hr).
  by exists k.
Defined.

End EntityInvariants.

(** ** PersistenceService.js and the start of the application *)

Section Storage.

Implicit Types (s : State) (localStorage : Storage).



(** X18. What [saveLayout] writes is read back by [loadLayout] exactly
    when the two dimensions of the room are finite: then the layout comes
    back with these dimensions and without a null record, and the storage
    is left as written; otherwise the layout just written is refused and
    removed. *)
Theorem saved_layout_loads currentRoom s storage :
  let written := snd (saveLayout currentRoom s (Some storage)) in
  (forall w l,
     Room.width currentRoom = Fin w -> Room.length currentRoom = Fin l ->
     exists layoutData,
       loadLayout written = (Some layoutData, written)
       /\ room_width layoutData = Num (Fin w)
       /\ room_length layoutData = Num (Fin l)
       /\ Forall is_Some (objects layoutData))
  /\ (~ (Js.is_finite (Room.width currentRoom)
         /\ Js.is_finite (Room.length currentRoom)) ->
      loadLayout written = (None, Some None)).
Proof.
  cbv zeta. cbn [saveLayout snd loadLayout room_width room_length]. split.
  - intros w l -> ->. cbn [jsonNumber typeof_number negb orb].
    eexists. split; [reflexivity |]. cbn [room_width room_length objects].
    split_and!; try reflexivity.
    apply Forall_fmap, Forall_true. intros objData. by eexists.
  - intros Hnot.
    destruct (Room.width currentRoom) as [w | | |],
      (Room.length currentRoom) as [l | | |];
      cbn [jsonNumber typeof_number negb orb]; try reflexivity.
    exfalso. apply Hnot. by split.
Qed.

Lemma saved_layout_loads_witness :
  (exists layoutData,
     loadLayout (snd (saveLayout room_5x4 (init room_5x4) (Some None)))
     = (Some layoutData, snd (saveLayout room_5x4 (init room_5x4) (Some None)))
     /\ room_width layoutData = Num (Fin 5)
     /\ room_length layoutData = Num (Fin 4)
     /\ Forall is_Some (objects layoutData)).
Proof.
  apply (proj1 (saved_layout_loads room_5x4 (init room_5x4) None));
    reflexivity.
Defined.

Lemma gt_zero_accepted (n : number) :
  (n >? Fin 0)%js = true -> Js.isNaN n = false /\ (n <=? Fin 0)%js = false.
Proof.
  destruct n; unfold Js.gt; simpl; try done. by intros ->.
Qed.

Lemma not_gt_zero_refused (n : number) :
  (n >? Fin 0)%js = false -> Js.isNaN n || (n <=? Fin 0)%js = true.
Proof.
  destruct n; unfold Js.gt; simpl; try done. by intros ->.
Qed.

(** The manager made by [handleSetRoomSize] for a room that is accepted. *)
Lemma handleSetRoomSize_accepted now width length objectsToLoad h counter
    localStorage :
  (width >? Fin 0)%js = true -> (length >? Fin 0)%js = true ->
  exists currentRoom,
    Room.new width length = inr currentRoom
    /\ Room.scale currentRoom = Room.calculateScale width length
    /\ handleSetRoomSize now width length objectsToLoad h counter localStorage
       = (Some (_notifyChange
                  (match objectsToLoad with
                   | Some objectsData =>
                       loadObjectsIntoManager now objectsData
                         (setOnChangeCallback
                            (ObjectManager.new currentRoom h counter))
                   | None =>
                       setOnChangeCallback
                         (ObjectManager.new currentRoom h counter)
                   end)),
          snd (saveLayout currentRoom
                 (_notifyChange
                    (match objectsToLoad with
                     | Some objectsData =>
                         loadObjectsIntoManager now objectsData
                           (setOnChangeCallback
                              (ObjectManager.new currentRoom h counter))
                     | None =>
                         setOnChangeCallback
                           (ObjectManager.new currentRoom h counter)
                     end))
                 localStorage)).
Proof.
  intros [Hw1 Hw2]%gt_zero_accepted [Hl1 Hl2]%gt_zero_accepted.
  unfold handleSetRoomSize, Room.new. rewrite Hw1, Hl1, Hw2, Hl2.
  cbn [orb]. eexists. split; [reflexivity |]. split; reflexivity.
Qed.

Lemma handleSetRoomSize_refused now width length objectsToLoad h counter
    localStorage :
  (width >? Fin 0)%js = false \/ (length >? Fin 0)%js = false ->
  handleSetRoomSize now width length objectsToLoad h counter localStorage
  = (None, localStorage).
Proof.
  unfold handleSetRoomSize.
  intros [H%not_gt_zero_refused | H%not_gt_zero_refused];
    apply orb_true_iff in H as [-> | ->];
    by rewrite ?orb_true_r.
Qed.

(** X19. [handleSetRoomSize] makes a manager exactly when both dimensions
    are greater than zero (so never for NaN); when it refuses, the storage
    is left as it is; and a manager made without records to load, as on
    every change of the room size by the user, starts with an empty
    collection and no selection, whatever had been placed before, and an
    empty layout is what is saved. *)
Theorem handleSetRoomSize_spec now width length objectsToLoad h counter
    localStorage :
  (is_Some (fst (handleSetRoomSize now width length objectsToLoad h counter
                   localStorage))
   <-> (width >? Fin 0)%js = true /\ (length >? Fin 0)%js = true)
  /\ (fst (handleSetRoomSize now width length objectsToLoad h counter
             localStorage) = None ->
      snd (handleSetRoomSize now width length objectsToLoad h counter
             localStorage) = localStorage)
  /\ (forall s,
        fst (handleSetRoomSize now width length None h counter localStorage)
        = Some s ->
        placedObjects s = [] /\ selectedObject s = None
        /\ Room.width (room s) = width /\ Room.length (room s) = length
        /\ onChangeCallback s = true /\ notifications s = 1
        /\ forall storage, localStorage = Some storage ->
             exists layoutData,
               snd (handleSetRoomSize now width length None h counter
                      localStorage) = Some (Some (Layout layoutData))
               /\ objects layoutData = []).
Proof.
  destruct (width >? Fin 0)%js eqn:Hw, (length >? Fin 0)%js eqn:Hl.
  - split_and!.
    + destruct (handleSetRoomSize_accepted now width length objectsToLoad h
                  counter localStorage Hw Hl) as (currentRoom & _ & _ & ->).
      split; [done | by eexists].
    + destruct (handleSetRoomSize_accepted now width length objectsToLoad h
                  counter localStorage Hw Hl) as (currentRoom & _ & _ & ->).
      done.
    + destruct (handleSetRoomSize_accepted now width length None h
                  counter localStorage Hw Hl)
        as (currentRoom & Hroom & _ & ->).
      apply Room_new_inr in Hroom as (_ & _ & Hwidth & Hlength).
      intros s [= <-]. split_and!; try done.
      intros storage ->. eexists. split; reflexivity.
  - rewrite !handleSetRoomSize_refused by (by right).
    split_and!; try done. split; [by intros [? [=]] | by intros [_ [=]]].
  - rewrite !handleSetRoomSize_refused by (by left).
    split_and!; try done. split; [by intros [? [=]] | by intros [[=] _]].
  - rewrite !handleSetRoomSize_refused by (by left).
    split_and!; try done. split; [by intros [? [=]] | by intros [[=] _]].
Qed.

Lemma handleSetRoomSize_spec_witness :
  snd (handleSetRoomSize (fun _ => 0) NaN (Fin 4) None ∅ 0 (Some None))
  = Some None.
Proof.
  apply (proj1 (proj2 (handleSetRoomSize_spec (fun _ => 0) NaN (Fin 4) None
                         ∅ 0 (Some None)))).
  reflexivity.
Defined.

End Storage.

Section Start.

Implicit Types (s : State) (localStorage : Storage).

(** The manager of the default room, as [handleSetRoomSize] leaves it. *)
Lemma default_start now localStorage :
  handleSetRoomSize now (Fin 5) (Fin 4) None ∅ 0 localStorage
  = (Some (_notifyChange
             (setOnChangeCallback (ObjectManager.new room_5x4 ∅ 0))),
     snd (saveLayout room_5x4
            (_notifyChange
               (setOnChangeCallback (ObjectManager.new room_5x4 ∅ 0)))
            localStorage)).
Proof.
  destruct (handleSetRoomSize_accepted now (Fin 5) (Fin 4) None ∅ 0
              localStorage) as (currentRoom & Hroom & _ & ->).
  - unfold Js.gt. simpl. apply Rltb_true. lra.
  - unfold Js.gt. simpl. apply Rltb_true. lra.
  - rewrite Room_new_5x4 in Hroom. by injection Hroom as <-.
Qed.

(** X20. Whenever [loadLayout] has nothing to return (no storage, an empty
    slot, a text that is no layout, a layout without numeric room
    dimensions) the application starts with the default room of 5 by 4
    units, an empty collection, no selection and the change callback
    registered, and, where there is a storage, this empty layout is saved.
    This is in particular how it starts after a confirmed
    [handleClearLayout], which empties the slot and asks for the reload. *)
Theorem start_without_saved_layout now localStorage :
  (fst (loadLayout localStorage) = None ->
   exists s,
     initializeApplication now localStorage
     = (Some s,
        (fun _ =>
           Some (Layout {| room_width := Num (Fin 5);
                           room_length := Num (Fin 4);
                           objects := [] |})) <$> localStorage)
     /\ room s = room_5x4 /\ placedObjects s = []
     /\ selectedObject s = None /\ onChangeCallback s = true)
  /\ Handlers.handleClearLayout true localStorage
     = (bool_decide (is_Some localStorage), (fun _ => None) <$> localStorage)
  /\ fst (loadLayout (snd (Handlers.handleClearLayout true localStorage))) = None.
Proof.
  split; [| by destruct localStorage].
  intros Hnone. unfold initializeApplication.
  destruct (loadLayout localStorage) as [savedData localStorage'] eqn:Hload.
  cbn [fst] in Hnone. subst savedData. rewrite default_start.
  exists (_notifyChange (setOnChangeCallback (ObjectManager.new room_5x4 ∅ 0))).
  split;
    [| by rewrite notify_room, notify_placedObjects, notify_selectedObject,
            notify_onChangeCallback].
  f_equal.
  destruct localStorage as [[[| layoutData] |] |]; cbn [loadLayout] in Hload.
  - by injection Hload as <-.
  - destruct (negb _ || negb _); [| discriminate]. by injection Hload as <-.
  - by injection Hload as <-.
  - by injection Hload as <-.
Qed.

Lemma start_without_saved_layout_witness :
  exists s,
    initializeApplication (fun _ => 0) (Some (Some Corrupt))
    = (Some s,
       (fun _ =>
          Some (Layout {| room_width := Num (Fin 5);
                          room_length := Num (Fin 4);
                          objects := [] |})) <$> Some (Some Corrupt))
    /\ room s = room_5x4 /\ placedObjects s = []
    /\ selectedObject s = None /\ onChangeCallback s = true.
Proof.
  apply (proj1 (start_without_saved_layout (fun _ => 0) (Some (Some Corrupt)))).
  reflexivity.
Defined.

(** X21. A room with an infinite dimension is accepted by
    [handleSetRoomSize]: the manager is made, for a room of scale 0, and
    the layout is saved.  But the saved layout does not survive a restart:
    the infinite dimension is written as null, [loadLayout] refuses the
    layout, and the application starts as from an empty slot. *)
Theorem infinite_room_is_not_restored now width length h counter storage :
  (width >? Fin 0)%js = true -> (length >? Fin 0)%js = true ->
  width = PInf \/ length = PInf ->
  exists s,
    fst (handleSetRoomSize now width length None h counter (Some storage))
    = Some s
    /\ Room.scale (room s) = Fin 0
    /\ initializeApplication now
         (snd (handleSetRoomSize now width length None h counter
                 (Some storage)))
       = initializeApplication now (Some None).
Proof.
  intros Hw Hl Hinf.
  destruct (handleSetRoomSize_accepted now width length None h counter
              (Some storage) Hw Hl) as (currentRoom & Hroom & Hscale & ->).
  apply Room_new_inr in Hroom as (_ & _ & Hwidth & Hlength).
  eexists. split; [reflexivity |]. split.
  - rewrite notify_room. cbn [room setOnChangeCallback set_onChangeCallback
                               ObjectManager.new].
    rewrite Hscale. clear Hscale.
    unfold Room.calculateScale, Config.CANVAS_MAX_WIDTH,
      Config.CANVAS_MAX_HEIGHT. unfold Js.gt in Hw, Hl.
    destruct Hinf as [-> | ->].
    + destruct length as [l | | |]; simpl in Hl |- *; try done;
        [| by destruct (Js.Rltb 0 0)].
      apply Rltb_spec in Hl.
      rewrite Reqb_false by lra. simpl.
      rewrite Rltb_false; [done |].
      pose proof (Rdiv_lt_0_compat 700 l ltac:(lra) Hl). lra.
    + destruct width as [w | | |]; simpl in Hw |- *; try done;
        [| by destruct (Js.Rltb 0 0)].
      apply Rltb_spec in Hw.
      rewrite Reqb_false by lra. simpl.
      rewrite Rltb_true; [done |].
      apply Rdiv_lt_0_compat; lra.
  - unfold initializeApplication.
    cbn [snd saveLayout loadLayout room_width room_length].
    rewrite Hwidth, Hlength.
    destruct Hinf as [-> | ->]; cbn [jsonNumber typeof_number negb orb];
      by rewrite ?orb_true_r.
Qed.

Lemma infinite_room_is_not_restored_witness :
  exists s,
    fst (handleSetRoomSize (fun _ => 0) PInf (Fin 4) None ∅ 0 (Some None))
    = Some s
    /\ Room.scale (room s) = Fin 0
    /\ initializeApplication (fun _ => 0)
         (snd (handleSetRoomSize (fun _ => 0) PInf (Fin 4) None ∅ 0
                 (Some None)))
       = initializeApplication (fun _ => 0) (Some None).
Proof.
  apply infinite_room_is_not_restored.
  - reflexivity.
  - unfold Js.gt. simpl. apply Rltb_true. lra.
  - by left.
Defined.

(** X22. A stored layout whose room dimensions are numbers but not both
    greater than zero is neither used nor removed: the application starts
    without a manager and leaves the storage as it is, so that every later
    start ends in the same way. *)
Theorem invalid_saved_room_blocks_start now layoutData w l :
  room_width layoutData = Num w -> room_length layoutData = Num l ->
  (w >? Fin 0)%js = false \/ (l >? Fin 0)%js = false ->
  initializeApplication now (Some (Some (Layout layoutData)))
  = (None, Some (Some (Layout layoutData))).
Proof.
  intros Hw Hl Hbad. unfold initializeApplication. cbn [loadLayout].
  rewrite Hw, Hl. cbn [typeof_number negb orb].
  apply handleSetRoomSize_refused. by rewrite Hw, Hl.
Qed.

Lemma invalid_saved_room_blocks_start_witness :
  initializeApplication (fun _ => 0)
    (Some (Some (Layout {| room_width := Num (Fin 0);
                           room_length := Num (Fin 4);
                           objects := [] |})))
  = (None,
     Some (Some (Layout {| room_width := Num (Fin 0);
                           room_length := Num (Fin 4);
                           objects := [] |}))).
Proof.
  apply (invalid_saved_room_blocks_start _ _ (Fin 0) (Fin 4));
    [reflexivity | reflexivity |].
  left. unfold Js.gt. simpl. apply Rltb_false. lra.
Defined.

Lemma forEachObject_null now l1 l2 index s :
  forEachObject now (l1 ++ None :: l2) index s = forEachObject now l1 index s.
Proof.
  revert index s. induction l1 as [| [objData |] l1 IH]; intros index s;
    cbn [app forEachObject]; try reflexivity.
  destruct (skipped objData); apply IH.
Qed.

(** X23. Loading saved records stops at the first null record: the records
    after it are lost, valid or not.  And a load never notifies and never
    changes the selection, whatever the records are. *)
Theorem load_stops_at_null now l1 l2 objectsData s :
  loadObjectsIntoManager now (l1 ++ None :: l2) s
  = loadObjectsIntoManager now l1 s
  /\ notifications (loadObjectsIntoManager now objectsData s) = notifications s
  /\ onChangeCallback (loadObjectsIntoManager now objectsData s)
     = onChangeCallback s
  /\ selectedObject (loadObjectsIntoManager now objectsData s)
     = selectedObject s.
Proof.
  split; [apply forEachObject_null |].
  unfold loadObjectsIntoManager.
  apply (forEachObject_preserves
           (fun s' => notifications s' = notifications s
                      /\ onChangeCallback s' = onChangeCallback s
                      /\ selectedObject s' = selectedObject s));
    [| done].
  intros t i objData s' H. exact H.
Qed.

End Start.

(** ** main.js: the handlers of the page *)

Section PageHandlers.

Implicit Types (s : State) (app : Handlers.App).

Local Open Scope R_scope.

Lemma selectObject_position o s obj e e' :
  heap s !! obj = Some e -> heap (selectObject o s) !! obj = Some e' ->
  PlacedObject.x e' = PlacedObject.x e /\ PlacedObject.y e' = PlacedObject.y e.
Proof.
  intros He. rewrite selectObject_heap, selectHeap_lookup, He. simpl.
  intros [= <-]. by repeat case_decide.
Qed.


Lemma placed_block_lookup :
  heap placed_block !! 0%nat
  = Some (PlacedObject.set_isSelected true
            (PlacedObject.new (block (Fin 2) (Fin 1)) (Num (Fin 437.5))
               (Num (Fin 350)) (Fin 175) 0)).
Proof.
  apply (addObject_lookup _ _ _ (init room_5x4)).
  apply block_valid; lra.
Qed.


(** X25. Outside a drag the mouse moves nothing: a movement while no drag
    is going on leaves the page as it is; releasing the button ends the
    drag, so that movements after it do nothing; a press that hits no
    entity clears the selection and starts no drag; and a movement never
    changes the collection or the selection, drag or not. *)
Theorem mouse_outside_drag app movement :
  (Handlers.isDragging app = false ->
   Handlers.handleMouseMove movement app = app)
  /\ Handlers.isDragging (Handlers.handleMouseUp app) = false
  /\ Handlers.objectManager (Handlers.handleMouseUp app)
     = Handlers.objectManager app
  /\ Handlers.handleMouseMove movement (Handlers.handleMouseUp app)
     = Handlers.handleMouseUp app
  /\ (forall s press,
        Handlers.objectManager app = Some s ->
        fst (selectObjectAt
               (Handlers.clientX press - Handlers.rectLeft press)%js
               (Handlers.clientY press - Handlers.rectTop press)%js s) = None ->
        Handlers.isDragging (Handlers.handleMouseDown press app) = false
        /\ Handlers.objectManager (Handlers.handleMouseDown press app)
           = Some (selectObject None s))
  /\ (forall s,
        Handlers.objectManager app = Some s ->
        exists s',
          Handlers.objectManager (Handlers.handleMouseMove movement app)
          = Some s'
          /\ placedObjects s' = placedObjects s
          /\ selectedObject s' = selectedObject s).
Proof.
  split_and!.
  - intros Hd. unfold Handlers.handleMouseMove. by rewrite Hd.
  - unfold Handlers.handleMouseUp.
    by destruct (Handlers.isDragging app) eqn:Hd.
  - unfold Handlers.handleMouseUp. by destruct (Handlers.isDragging app).
  - unfold Handlers.handleMouseUp, Handlers.handleMouseMove.
    by destruct (Handlers.isDragging app) eqn:Hd; cbn; rewrite ?Hd.
  - intros s press Hm Hnone. unfold Handlers.handleMouseDown. rewrite Hm.
    unfold selectObjectAt in *. cbn [fst] in Hnone. by rewrite Hnone.
  - intros s Hm. unfold Handlers.handleMouseMove. rewrite Hm.
    destruct (Handlers.isDragging app); cbn [negb]; [| by exists s].
    unfold getSelectedObject.
    destruct (selectedObject s) eqn:Hsel; [| by exists s].
    eexists. split; [reflexivity |]. rewrite <- Hsel.
    split; apply moveSelectedObject_frame.
Qed.

Lemma mouse_outside_drag_witness :
  Handlers.handleMouseMove
    (Handlers.mkMouseEvent (Fin 500) (Fin 300) (Fin 10) (Fin 5))
    page_with_block
  = page_with_block.
Proof.
  apply (proj1 (mouse_outside_drag page_with_block _)). reflexivity.
Defined.

(** X26. A request that passes the check of [handleAddObject] is never
    refused by the manager: with a manager present and a width and a length
    greater than zero, the entity is created, appended to the collection
    and selected, at the center of the canvas, under the internal name
    Custom-n, and the counter of custom objects advances; with a width or a
    length that is not greater than zero (NaN included) nothing changes,
    the counter included. *)
Theorem handleAddObject_spec trim details app s :
  Handlers.objectManager app = Some s ->
  ((Handlers.width details >? Fin 0)%js = true ->
   (Handlers.length details >? Fin 0)%js = true ->
   exists s' o,
     Handlers.objectManager (Handlers.handleAddObject trim details app)
     = Some s'
     /\ Handlers.customObjectCounter (Handlers.handleAddObject trim details app)
        = S (Handlers.customObjectCounter app)
     /\ placedObjects s' = placedObjects s ++ [objectCounter s]
     /\ selectedObject s' = Some (objectCounter s)
     /\ heap s' !! objectCounter s = Some o
     /\ PlacedObject.typeId o
        = "Custom-" +:+ pretty (Handlers.customObjectCounter app)
     /\ PlacedObject.name o <> EmptyString
     /\ PlacedObject.widthUnits o = Num (Handlers.width details)
     /\ PlacedObject.lengthUnits o = Num (Handlers.length details)
     /\ PlacedObject.x o = Num (Room.canvasWidth (room s) / Fin 2)%js
     /\ PlacedObject.y o = Num (Room.canvasHeight (room s) / Fin 2)%js
     /\ PlacedObject.isSelected o = true)
  /\ ((Handlers.width details >? Fin 0)%js = false
      \/ (Handlers.length details >? Fin 0)%js = false ->
      Handlers.handleAddObject trim details app = app).
Proof.
  intros Hm. split.
  - intros Hgw Hgl.
    destruct (gt_zero_accepted _ Hgw) as [Hw1 Hw2].
    destruct (gt_zero_accepted _ Hgl) as [Hl1 Hl2].
    unfold Handlers.handleAddObject. rewrite Hm, Hw1, Hw2, Hl1, Hl2.
    cbn [orb Room.getPixelDimensions].
    set (internalName :=
           "Custom-" +:+ pretty (Handlers.customObjectCounter app)).
    set (displayName :=
           match Handlers.label details with
           | Str l => if str_truthy (Str (trim l)) then trim l else internalName
           | _ => internalName
           end).
    set (d := ObjectDefinition.mk _ _ _ _ _ _).
    assert (Hname : displayName <> EmptyString).
    { unfold displayName.
      destruct (Handlers.label details) as [| | l]; try done.
      destruct (str_truthy (Str (trim l))) eqn:Ht; [| done].
      simpl in Ht. intros Heq. by rewrite Heq in Ht. }
    assert (Hd : invalidDefinition (Some d) = false).
    { unfold invalidDefinition, d.
      cbn [ObjectDefinition.id ObjectDefinition.name ObjectDefinition.width
           ObjectDefinition.length toNumber].
      rewrite Hgw, Hgl. cbn [negb orb str_truthy].
      destruct displayName; [done | reflexivity]. }
    cbn [Handlers.set_objectManager Handlers.set_customObjectCounter
         Handlers.objectManager Handlers.customObjectCounter].
    eexists _, _. split; [reflexivity |]. split; [reflexivity |].
    split; [by apply addObject_placedObjects |].
    split; [by apply addObject_selectedObject |].
    split; [by apply addObject_lookup |].
    cbn [PlacedObject.typeId PlacedObject.name PlacedObject.widthUnits
         PlacedObject.lengthUnits PlacedObject.x PlacedObject.y
         PlacedObject.isSelected PlacedObject.set_isSelected
         PlacedObject.new PlacedObject.updateScale
         ObjectDefinition.id ObjectDefinition.name ObjectDefinition.width
         ObjectDefinition.length d].
    split_and!; try reflexivity.
    rewrite str_or_nonempty by exact Hname. exact Hname.
  - intros Hbad. unfold Handlers.handleAddObject. rewrite Hm.
    destruct Hbad as [H%not_gt_zero_refused | H%not_gt_zero_refused];
      apply orb_true_iff in H as [-> | ->];
      by rewrite ?orb_true_r.
Qed.

Lemma handleAddObject_spec_witness :
  Handlers.handleAddObject (fun text => text)
    (Handlers.mkDetails NaN (Fin 1) (Str "Shelf")) page_with_block
  = page_with_block.
Proof.
  apply (proj2 (handleAddObject_spec (fun text => text)
                  (Handlers.mkDetails NaN (Fin 1) (Str "Shelf"))
                  page_with_block placed_block eq_refl)).
  by left.
Defined.

(** X27. The rotate and delete buttons need a selection.  With nothing
    selected they leave the page as it is, and so does a deletion that is
    not confirmed; a movement of the mouse then leaves the manager as it
    is.  Hence a confirmed deletion works once: it removes the selected
    entity of the collection and clears the selection, and pressing delete
    or rotate again changes nothing. *)
Theorem handlers_need_selection app s confirmed movement :
  Handlers.objectManager app = Some s ->
  (selectedObject s = None ->
   Handlers.handleRotateObject app = app
   /\ Handlers.handleDeleteObject confirmed app = app
   /\ Handlers.objectManager (Handlers.handleMouseMove movement app) = Some s)
  /\ Handlers.handleDeleteObject false app = app
  /\ (forall currentRoom sel,
        reachable currentRoom s ->
        selectedObject s = Some sel -> sel ∈ placedObjects s ->
        let app' := Handlers.handleDeleteObject true app in
        (exists s',
           Handlers.objectManager app' = Some s'
           /\ selectedObject s' = None
           /\ S (Datatypes.length (placedObjects s'))
              = Datatypes.length (placedObjects s))
        /\ Handlers.handleDeleteObject true app' = app'
        /\ Handlers.handleRotateObject app' = app').
Proof.
  intros Hm. split_and!.
  - intros Hsel.
    unfold Handlers.handleRotateObject, Handlers.handleDeleteObject,
      Handlers.handleMouseMove, rotateSelectedObject, getSelectedObject.
    rewrite Hm, Hsel. split_and!.
    + destruct app. cbn in *. by subst.
    + reflexivity.
    + by destruct (Handlers.isDragging app).
  - unfold Handlers.handleDeleteObject. rewrite Hm.
    by destruct (getSelectedObject s).
  - intros currentRoom sel Hreach Hsel Hin. cbv zeta.
    pose proof (reachable_wf _ _ Hreach) as Hwf.
    destruct (deleteSelectedObject_member s sel Hwf Hsel Hin)
      as (index & Hindex & Hdel).
    assert (Hnone : selectedObject (deleteSelectedObject s) = None)
      by (by rewrite Hdel, notify_selectedObject).
    unfold Handlers.handleDeleteObject, Handlers.handleRotateObject,
      getSelectedObject.
    rewrite Hm, Hsel.
    cbn [Handlers.objectManager Handlers.set_objectManager].
    unfold rotateSelectedObject. rewrite Hnone. split_and!; try done.
    eexists. split; [reflexivity |]. split; [exact Hnone |].
    rewrite Hdel, notify_placedObjects.
    cbn [placedObjects set_selectedObject set_placedObjects].
    rewrite length_delete by (by rewrite Hindex).
    apply lookup_lt_Some in Hindex. lia.
Qed.

Lemma handlers_need_selection_witness :
  Handlers.handleRotateObject
    (Handlers.set_objectManager (Some (init room_5x4)) page_with_block)
  = Handlers.set_objectManager (Some (init room_5x4)) page_with_block
  /\ Handlers.handleDeleteObject true
       (Handlers.set_objectManager (Some (init room_5x4)) page_with_block)
     = Handlers.set_objectManager (Some (init room_5x4)) page_with_block.
Proof.
  destruct (handlers_need_selection
              (Handlers.set_objectManager (Some (init room_5x4)) page_with_block)
              (init room_5x4) true
              (Handlers.mkMouseEvent (Fin 0) (Fin 0) (Fin 0) (Fin 0))
              eq_refl) as (H & _).
  destruct (H eq_refl) as (H1 & H2 & _).
  by split.
Defined.

End PageHandlers.

(** ** A saved layout across restarts *)

Section Restart.

Implicit Types (s : State) (obj : nat).

Lemma jsonNumval_again v : jsonNumval (jsonNumval v) = jsonNumval v.
Proof. by destruct v as [| | []]. Qed.

(** The names and colors given by the constructor are never empty. *)
Lemma reachable_named currentRoom s obj o :
  reachable_by managerCall currentRoom s -> heap s !! obj = Some o ->
  PlacedObject.name o <> EmptyString /\ PlacedObject.color o <> EmptyString.
Proof.
  intros Hreach Ho.
  eapply (invariant_reachable_by_managerCall
            (fun o => PlacedObject.name o <> EmptyString
                      /\ PlacedObject.color o <> EmptyString));
    [.. | exact Hreach | exact Ho]; try done.
  intros d x y scale counter _. simpl. split; by apply str_or_not_empty.
Qed.

(** Saving a restored entity gives the record it was restored from. *)
Lemma saveObject_restored scale o o' :
  managed o ->
  PlacedObject.name o <> EmptyString -> PlacedObject.color o <> EmptyString ->
  restores scale (saveObject o) o' -> saveObject o' = saveObject o.
Proof.
  intros (Ht & (r & Hr) & _ & _) Hname Hcolor.
  unfold restores, saveObject.
  cbn [typeId name label color widthUnits lengthUnits Persistence.x
       Persistence.y rotation].
  intros (Htype & Hn & Hlabel & Hc & Hwidth & Hlength & Hx & Hy & Hrot & _).
  rewrite (Htype _ eq_refl Ht), Hn, Hlabel, Hc, Hwidth, Hlength, Hx, Hy, Hrot.
  rewrite (str_or_nonempty (PlacedObject.name o)) by exact Hname.
  rewrite (str_or_nonempty (PlacedObject.color o)) by exact Hcolor.
  rewrite str_or_empty, !jsonNumval_again, Hr.
  f_equal. simpl. unfold Js.Reqb.
  destruct (Req_dec_T r 0) as [-> |]; reflexivity.
Qed.

Lemma resaved_records (h : gmap nat PlacedObject.t) (scale : number)
    (restored : list nat) (records : list SavedObject) :
  Forall2 (fun obj objData => exists o',
             h !! obj = Some o' /\ restores scale objData o')
    restored records ->
  Forall (fun objData => exists o,
            objData = saveObject o /\ managed o
            /\ PlacedObject.name o <> EmptyString
            /\ PlacedObject.color o <> EmptyString) records ->
  omap (fun obj => saveObject <$> h !! obj) restored = records.
Proof.
  induction 1 as [| obj objData restored records (o' & Ho' & Hres) _ IH];
    intros Hall; [reflexivity |].
  apply Forall_cons in Hall as [(o & -> & Hm & Hn & Hc) Hall].
  cbn [omap list_omap]. rewrite Ho'. cbn [fmap option_fmap option_map].
  rewrite (saveObject_restored scale o o' Hm Hn Hc Hres).
  f_equal. by apply IH.
Qed.

Lemma initializeApplication_resaves now currentRoom w l s storage :
  Room.new (Fin w) (Fin l) = inr currentRoom ->
  initializeApplication now (snd (saveLayout currentRoom s (Some storage)))
  = (Some (_notifyChange
             (loadObjectsIntoManager now
                (Some <$> omap (fun obj => saveObject <$> heap s !! obj)
                            (getAllObjects s))
                (setOnChangeCallback (ObjectManager.new currentRoom ∅ 0)))),
     snd (saveLayout currentRoom
            (_notifyChange
               (loadObjectsIntoManager now
                  (Some <$> omap (fun obj => saveObject <$> heap s !! obj)
                              (getAllObjects s))
                  (setOnChangeCallback (ObjectManager.new currentRoom ∅ 0))))
            (Some storage))).
Proof.
  intros Hroom.
  destruct (Room_new_inr _ _ _ Hroom) as (Hw & Hl & Hrw & Hrl).
  unfold saveLayout at 1. cbn [snd]. unfold initializeApplication, loadLayout.
  cbn [room_width room_length objects]. rewrite Hrw, Hrl.
  cbn [jsonNumber typeof_number negb orb toNumber].
  unfold handleSetRoomSize.
  cbn [room_width room_length objects toNumber Js.isNaN orb].
  rewrite Hw, Hl, Hroom.
  reflexivity.
Qed.

(** X28. A restart keeps the saved layout: when the layout of a manager
    that was only worked on through its methods, in a room of finite
    dimensions and with entities of finite sizes and positions, has been
    saved, starting the application again restores the entities and saves
    them again, and the storage holds exactly what it held before. *)
Theorem restart_keeps_saved_layout now currentRoom w l s storage :
  reachable_by managerCall currentRoom s ->
  Room.new (Fin w) (Fin l) = inr currentRoom ->
  (forall obj o, obj ∈ placedObjects s -> heap s !! obj = Some o ->
     finiteObject o) ->
  snd (initializeApplication now
         (snd (saveLayout currentRoom s (Some storage))))
  = snd (saveLayout currentRoom s (Some storage)).
Proof.
  intros Hreach Hroom Hfin.
  pose proof (reachable_wf _ _ (reachable_by_managerCall _ _ Hreach)) as Hwf.
  pose proof (reachable_managed _ _ Hreach) as Hman.
  rewrite (initializeApplication_resaves now currentRoom w l s storage Hroom).
  cbn [snd saveLayout]. do 5 f_equal.
  unfold getAllObjects. rewrite notify_placedObjects, notify_heap.
  unfold loadObjectsIntoManager.
  assert (Hsaved :
    Forall2 (fun obj objData => exists o,
               heap s !! obj = Some o /\ objData = saveObject o
               /\ (managed o /\ finiteObject o
                   /\ PlacedObject.name o <> EmptyString
                   /\ PlacedObject.color o <> EmptyString))
      (placedObjects s)
      (omap (fun obj => saveObject <$> heap s !! obj) (placedObjects s))).
  { apply saved_records_of. intros obj Hin.
    destruct (wf_placed s Hwf obj Hin) as [o Ho].
    destruct (reachable_named _ _ _ _ Hreach Ho) as [Hn Hc].
    exists o. split_and!; eauto. }
  set (records := omap _ (placedObjects s)) in *.
  destruct (forEachObject_spec now records 0
              (setOnChangeCallback (ObjectManager.new currentRoom ∅ 0)))
    as (restored & Hp & Hall & _ & _ & _).
  rewrite Hp. cbn [placedObjects setOnChangeCallback set_onChangeCallback
                   ObjectManager.new app].
  rewrite filter_all in Hall.
  - eapply resaved_records; [exact Hall |].
    eapply Forall2_Forall_right; [| exact Hsaved].
    intros obj objData (o & _ & -> & Hm & _ & Hn & Hc). eauto.
  - eapply Forall2_Forall_right; [| exact Hsaved].
    intros obj objData (o & _ & -> & Hm & Hf & _). by apply not_skipped_saved.
Qed.

Lemma restart_keeps_saved_layout_witness :
  snd (initializeApplication (fun _ => 0)
         (snd (saveLayout room_5x4 placed_block (Some None))))
  = snd (saveLayout room_5x4 placed_block (Some None)).
Proof.
  apply (restart_keeps_saved_layout _ room_5x4 5 4).
  - apply reachable_step; [apply reachable_init | exact I].
  - apply Room_new_5x4.
  - assert (Hplaced : placedObjects placed_block = [0]).
    { unfold placed_block. cbn [step].
      by rewrite addObject_placedObjects by (apply block_valid; lra). }
    rewrite Hplaced. intros obj o ->%list_elem_of_singleton.
    rewrite placed_block_lookup. intros [= <-].
    unfold finiteObject, finiteNumber. simpl. split_and!; eauto.
Defined.

End Restart.

(** ** Room.js: dimensions that are not numbers *)

Section RoomNaN.

(** X29. The constructor of Room does not refuse NaN: a dimension that is
    NaN passes the test [<= 0], and when the other dimension is not refused
    the room is built with scale NaN and a pixel size of NaN by NaN, so
    that every conversion between units and pixels gives NaN. *)
Theorem Room_accepts_NaN (width length : number) :
  (width = NaN /\ (length <=? Fin 0)%js = false)
  \/ (length = NaN /\ (width <=? Fin 0)%js = false) ->
  exists room,
    Room.new width length = inr room
    /\ Room.scale room = NaN
    /\ Room.getPixelDimensions room = (NaN, NaN)
    /\ forall v, Room.toPixels room v = NaN /\ Room.toUnits room v = NaN.
Proof.
  assert (Hmul : forall v, (v * NaN)%js = NaN) by (by intros []).
  assert (Hdiv : forall v, (v / NaN)%js = NaN) by (by intros []).
  assert (Hmin : forall v, Js.min v NaN = NaN) by (by intros []).
  intros [[-> Hl] | [-> Hw]]; unfold Room.new.
  - rewrite Hl. cbn [Js.le orb].
    unfold Room.calculateScale. rewrite Hdiv. cbn [Js.min].
    eexists. split; [reflexivity |].
    unfold Room.getPixelDimensions, Room.toPixels, Room.toUnits.
    cbn [Room.scale Room.canvasWidth Room.canvasHeight].
    rewrite ?Hmul. split_and!; try done; intros v; by rewrite ?Hmul, ?Hdiv.
  - rewrite Hw. cbn [Js.le orb].
    replace (Fin 0 <? NaN)%js with false by reflexivity.
    replace (NaN <=? Fin 0)%js with false by reflexivity. cbn [orb].
    unfold Room.calculateScale. rewrite Hdiv, Hmin.
    eexists. split; [reflexivity |].
    unfold Room.getPixelDimensions, Room.toPixels, Room.toUnits.
    cbn [Room.scale Room.canvasWidth Room.canvasHeight].
    rewrite ?Hmul. split_and!; try done; intros v; by rewrite ?Hmul, ?Hdiv.
Qed.

Lemma Room_accepts_NaN_witness :
  exists room,
    Room.new NaN (Fin 4) = inr room
    /\ Room.scale room = NaN
    /\ Room.getPixelDimensions room = (NaN, NaN)
    /\ forall v, Room.toPixels room v = NaN /\ Room.toUnits room v = NaN.
Proof.
  apply Room_accepts_NaN. left. split; [reflexivity |].
  simpl. rewrite Rltb_true by lra. reflexivity.
Defined.

End RoomNaN.
